(** * LDC Shop: order / stock reservation and settlement engine

    A shallow embedding of the three core server routines of the shop

      - [createOrder]          (checkout action),
      - [processNotify]        (payment gateway callback, /api/notify),
      - [cancelExpiredOrders]  (expiry reaper, lib/db/queries.ts),

    over an explicit model of the three tables they touch
    ([products], [cards], [orders]).  Every routine is a pure function
    from the database before the call to the database after it, together
    with what the routine returns.

    Around the engine, the back office of the Workers edition:

      - [checkAdmin], [addCards], [deleteCard], [deleteCards] and the
        settings actions (actions/admin.ts), [getSetting], [setSetting],
      - [submitReview] (actions/reviews.ts), [createReview],
        [canUserReview], [hasUserReviewedOrder] (lib/db/queries.ts),

    over the same tables and the tables [reviews] and [settings].

    Conventions.
      - SQL [NOW()] and JavaScript [new Date()] are readings of a clock
        that the caller passes in, as milliseconds in [Z]; a call reads
        the clock once.
      - A nullable column is an [option]; SQL three-valued comparison is
        written out ([NULL = x] is not true).
      - [LIMIT 1] without [ORDER BY] takes the first row in table order
        and [FOR UPDATE SKIP LOCKED] sees no locked row: the model is
        sequential, one routine runs to completion before the next.
      - The only schema drift that is modelled is the one the routines
        themselves handle: a [cards] table that does not have the columns
        [reserved_order_id] / [reserved_at] yet (SQLSTATE 42703).  A
        statement that fails this way is taken as the handlers take it:
        it changes nothing and the handler's [catch] decides what runs
        next.  Inside [processNotify]'s transaction the failure leaves
        the transaction aborted: the next statement is refused, the
        transaction is rolled back and the error leaves the routine.
        Other database failures are not modelled.
      - lib/crypto ([md5], [generateSign], [generateOrderId]) and the
        JavaScript number routines are not among the sources at hand:
        the routines take them as parameters (see [Host]), and the value
        of [generateOrderId()] is an argument of [createOrder]. *)

From Stdlib Require Import ZArith List Ascii String Floats.PrimFloat Uint63.
From Stdlib Require OrdersEx.
From stdpp Require Import base option list gmap strings.

Local Open Scope string_scope.
Local Open Scope list_scope.
Local Open Scope Z_scope.

(** ** JavaScript values *)

Module JS.

(** [!!s] for a string that may be [undefined]/[null]: the empty string
    and the missing value are falsy. *)
Definition truthy (v : option string) : bool :=
  match v with
  | Some s => negb (String.eqb s "")
  | None => false
  end.

(** [a || b] on possibly-missing strings. *)
Definition or_else (a b : option string) : option string :=
  if truthy a then a else b.

(** [`${v}`]: a missing value prints as [undefined]. *)
Definition interpolate (v : option string) : string :=
  match v with
  | Some s => s
  | None => "undefined"
  end.

(** [xs.join(sep)] *)
Fixpoint join (sep : string) (xs : list string) : string :=
  match xs with
  | [] => ""
  | [x] => x
  | x :: rest => String.append x (String.append sep (join sep rest))
  end.

(** [xs.sort()] on strings: ascending in the order of [String.compare]
    (code units of the 8-bit encoding). *)
Fixpoint insert_sorted (x : string) (xs : list string) : list string :=
  match xs with
  | [] => [x]
  | y :: rest => if String.leb x y then x :: xs else y :: insert_sorted x rest
  end.

Definition sort (xs : list string) : list string :=
  foldr insert_sorted [] xs.

End JS.

(** ** MD5 (RFC 1321)

    The digest that the worked examples use for the [md5] of lib/crypto.
    The theorems about the engine hold for any function in its place. *)

Module MD5.

Definition mask32 : Z := 4294967295.
Definition wrap (x : Z) : Z := Z.land x mask32.
Definition add32 (x y : Z) : Z := wrap (x + y).
Definition not32 (x : Z) : Z := Z.lxor x mask32.
Definition rotl32 (x : Z) (n : Z) : Z :=
  wrap (Z.lor (Z.shiftl x n) (Z.shiftr x (32 - n))).

Definition K : list Z :=
  [ 3614090360; 3905402710; 606105819; 3250441966; 4118548399; 1200080426; 2821735955; 4249261313;
    1770035416; 2336552879; 4294925233; 2304563134; 1804603682; 4254626195; 2792965006; 1236535329;
    4129170786; 3225465664; 643717713; 3921069994; 3593408605; 38016083; 3634488961; 3889429448;
    568446438; 3275163606; 4107603335; 1163531501; 2850285829; 4243563512; 1735328473; 2368359562;
    4294588738; 2272392833; 1839030562; 4259657740; 2763975236; 1272893353; 4139469664; 3200236656;
    681279174; 3936430074; 3572445317; 76029189; 3654602809; 3873151461; 530742520; 3299628645;
    4096336452; 1126891415; 2878612391; 4237533241; 1700485571; 2399980690; 4293915773; 2240044497;
    1873313359; 4264355552; 2734768916; 1309151649; 4149444226; 3174756917; 718787259; 3951481745 ].

Definition shifts : list Z :=
  [ 7; 12; 17; 22; 7; 12; 17; 22; 7; 12; 17; 22; 7; 12; 17; 22;
    5; 9; 14; 20; 5; 9; 14; 20; 5; 9; 14; 20; 5; 9; 14; 20;
    4; 11; 16; 23; 4; 11; 16; 23; 4; 11; 16; 23; 4; 11; 16; 23;
    6; 10; 15; 21; 6; 10; 15; 21; 6; 10; 15; 21; 6; 10; 15; 21 ].

Definition bytes_of_string (s : string) : list Z :=
  List.map (fun a => Z.of_N (N_of_ascii a)) (list_ascii_of_string s).

(** little-endian bytes of a [n]-byte word *)
Fixpoint le_bytes (n : nat) (x : Z) : list Z :=
  match n with
  | O => []
  | Datatypes.S n' => Z.land x 255 :: le_bytes n' (Z.shiftr x 8)
  end.

Fixpoint le_word (bs : list Z) : Z :=
  match bs with
  | [] => 0
  | b :: rest => b + 256 * le_word rest
  end.

Definition pad (msg : list Z) : list Z :=
  let len := Z.of_nat (length msg) in
  let zeros := Z.to_nat ((55 - len) mod 64) in
  msg ++ [128] ++ List.repeat 0 zeros ++ le_bytes 8 (Z.land (8 * len) 18446744073709551615).

(** cut a list in chunks of [n] elements; [fuel] bounds the number of
    chunks *)
Fixpoint chunks {A} (fuel n : nat) (xs : list A) : list (list A) :=
  match fuel with
  | O => []
  | Datatypes.S fuel' =>
      match xs with
      | [] => []
      | _ => firstn n xs :: chunks fuel' n (skipn n xs)
      end
  end.

Definition words (block : list Z) : list Z :=
  List.map le_word (chunks 16 4 block).

Record regs := Regs { rA : Z; rB : Z; rC : Z; rD : Z }.

Definition round (M : list Z) (r : regs) (i : nat) : regs :=
  let '(Regs a b c d) := r in
  let iz := Z.of_nat i in
  let '(f, g) :=
    if iz <? 16 then (Z.lor (Z.land b c) (Z.land (not32 b) d), iz)
    else if iz <? 32 then (Z.lor (Z.land d b) (Z.land (not32 d) c), (5 * iz + 1) mod 16)
    else if iz <? 48 then (Z.lxor b (Z.lxor c d), (3 * iz + 5) mod 16)
    else (Z.lxor c (Z.lor b (not32 d)), (7 * iz) mod 16) in
  let f' := add32 (add32 (add32 f a) (nth i K 0)) (nth (Z.to_nat g) M 0) in
  Regs d (add32 b (rotl32 f' (nth i shifts 0))) b c.

Definition compress (h : regs) (block : list Z) : regs :=
  let r := fold_left (round (words block)) (seq 0 64) h in
  Regs (add32 (rA h) (rA r)) (add32 (rB h) (rB r))
       (add32 (rC h) (rC r)) (add32 (rD h) (rD r)).

Definition init : regs := Regs 1732584193 4023233417 2562383102 271733878.

Definition digest (msg : list Z) : list Z :=
  let p := pad msg in
  let h := fold_left compress (chunks (length p) 64 p) init in
  le_bytes 4 (rA h) ++ le_bytes 4 (rB h) ++ le_bytes 4 (rC h) ++ le_bytes 4 (rD h).

Definition hex_digit (n : Z) : string :=
  String.substring (Z.to_nat n) 1 "0123456789abcdef".

Definition hex_byte (b : Z) : string :=
  String.append (hex_digit (Z.shiftr b 4)) (hex_digit (Z.land b 15)).

(** lower-case hexadecimal digest of the bytes of a string *)
Definition md5 (s : string) : string :=
  String.concat "" (List.map hex_byte (digest (bytes_of_string s))).

End MD5.

(** ** Decimal literals as IEEE-754 doubles

    [parseFloat] is a builtin of the JavaScript host; the engine below
    takes it as a parameter.  [parseDecimal] is the instance used in the
    worked examples: it reads the longest prefix [-]digits[.digits] and
    divides the integer made of all digits by the power of ten of the
    fraction length, in binary64 with round-to-nearest.  On literals of at
    most 15 significant digits this is the correctly rounded value, the
    one [parseFloat] returns; a string with no leading digit reads as NaN.
    Exponents and [Infinity], which [parseFloat] reads too, are not
    read: the worked examples use plain literals with two decimals. *)

Module Decimal.

Definition digit_of (a : ascii) : option Z :=
  let n := Z.of_N (N_of_ascii a) in
  if (48 <=? n) && (n <=? 57) then Some (n - 48) else None.

(** read leading digits into [acc]; returns the number read so far, how
    many digits were consumed, and the rest of the string *)
Fixpoint digits (s : string) (acc : Z) (n : nat) : Z * nat * string :=
  match s with
  | String a rest =>
      match digit_of a with
      | Some d => digits rest (10 * acc + d) (Datatypes.S n)
      | None => (acc, n, s)
      end
  | EmptyString => (acc, n, s)
  end.

Definition float_of_Z (z : Z) : float := PrimFloat.of_uint63 (Uint63.of_Z z).

Definition parseDecimal (s : string) : float :=
  let '(neg, s1) :=
    match s with
    | String "-"%char r => (true, r)
    | String "+"%char r => (false, r)
    | _ => (false, s)
    end in
  let '(ip, ni, s2) := digits s1 0 0%nat in
  let '(m, nf) :=
    match s2 with
    | String "."%char r => let '(m, nf, _) := digits r ip 0%nat in (m, nf)
    | _ => (ip, 0%nat)
    end in
  if (ni + nf =? 0)%nat then PrimFloat.nan
  else
    let v := PrimFloat.div (float_of_Z m) (float_of_Z (10 ^ Z.of_nat nf)) in
    if neg then PrimFloat.opp v else v.

End Decimal.

(** ** The tables *)

Module Product.
(** [products]: the columns the engine reads. *)
Record row := {
  id : string;
  name : string;
  price : string;               (* DECIMAL(10,2), read as a string *)
  isActive : option bool;       (* BOOLEAN DEFAULT TRUE *)
  purchaseLimit : option Z      (* INTEGER, nullable *)
}.
End Product.

Module Card.
(** [cards]: one single-use stock unit per row. *)
Record row := {
  id : Z;
  product_id : string;
  card_key : string;
  is_used : option bool;            (* BOOLEAN, NULL in legacy rows *)
  reserved_order_id : option string;
  reserved_at : option Z;
  used_at : option Z
}.
End Card.

Module Order.
(** [orders] *)
Record row := {
  orderId : string;
  productId : string;
  productName : string;
  amount : string;                  (* DECIMAL(10,2), read as a string *)
  email : option string;
  status : string;
  tradeNo : option string;
  cardKey : option string;
  paidAt : option Z;
  deliveredAt : option Z;
  userId : option string;
  username : option string;
  created_at : Z                    (* DEFAULT NOW() *)
}.
End Order.

#[global] Instance product_eq_dec : EqDecision Product.row.
Proof. solve_decision. Defined.

#[global] Instance card_eq_dec : EqDecision Card.row.
Proof. solve_decision. Defined.

#[global] Instance order_eq_dec : EqDecision Order.row.
Proof. solve_decision. Defined.

(** The database.  [reservationCols] tells whether [cards] already has the
    columns [reserved_order_id] and [reserved_at]; while it is [false] a
    statement that names one of them fails with SQLSTATE 42703 and the two
    fields of every card are [None] (see [wf]). *)
Record DB := {
  products : list Product.row;
  cards : list Card.row;
  orders : list Order.row;
  reservationCols : bool
}.

Definition with_cards (db : DB) (cs : list Card.row) : DB :=
  {| products := products db; cards := cs; orders := orders db;
     reservationCols := reservationCols db |}.

Definition with_orders (db : DB) (os : list Order.row) : DB :=
  {| products := products db; cards := cards db; orders := os;
     reservationCols := reservationCols db |}.

(** [ALTER TABLE cards ADD COLUMN IF NOT EXISTS reserved_order_id TEXT;
     ALTER TABLE cards ADD COLUMN IF NOT EXISTS reserved_at TIMESTAMP] *)
Definition ensureCardsReservationColumns (db : DB) : DB :=
  {| products := products db; cards := cards db; orders := orders db;
     reservationCols := true |}.

(** Representation invariant: columns that do not exist hold nothing. *)
Definition wf (db : DB) : Prop :=
  reservationCols db = false →
  Forall (fun c => Card.reserved_order_id c = None ∧ Card.reserved_at c = None) (cards db).

(** Outcome of a statement that names the reservation columns. *)
Inductive sql (A : Type) : Type :=
| Done (a : A)
| UndefinedColumn.                     (* SQLSTATE 42703 *)
Arguments Done {A} a.
Arguments UndefinedColumn {A}.

(** ** SQL building blocks *)

Definition PENDING_TTL : Z := 5 * 60 * 1000.   (* INTERVAL '5 minutes' *)
Definition HOLD_TTL : Z := 60 * 1000.          (* INTERVAL '1 minute' *)

(** [UPDATE t SET f WHERE P RETURNING *]: the table after the update and
    the updated rows, in table order. *)
Definition update_where {A} (P : A → bool) (f : A → A) (rows : list A)
  : list A * list A :=
  (List.map (fun r => if P r then f r else r) rows, List.map f (List.filter P rows)).

Definition opt_eqb (o : option string) (s : string) : bool :=
  match o with
  | Some x => String.eqb x s
  | None => false
  end.

(** [COALESCE(is_used, false) = false] *)
Definition unused (c : Card.row) : bool :=
  negb (default false (Card.is_used c)).

(** [reserved_at IS NULL OR reserved_at < NOW() - INTERVAL '1 minute'] *)
Definition hold_lapsed (now : Z) (c : Card.row) : bool :=
  match Card.reserved_at c with
  | None => true
  | Some t => t <? now - HOLD_TTL
  end.

(** [product_id = p AND COALESCE(is_used, false) = false
     AND (reserved_at IS NULL OR reserved_at < NOW() - INTERVAL '1 minute')] *)
Definition available (now : Z) (p : string) (c : Card.row) : bool :=
  String.eqb (Card.product_id c) p && unused c && hold_lapsed now c.

(** [reserved_order_id = o AND COALESCE(is_used, false) = false] *)
Definition held_by (o : string) (c : Card.row) : bool :=
  opt_eqb (Card.reserved_order_id c) o && unused c.

(** [SET reserved_order_id = NULL, reserved_at = NULL] *)
Definition release (c : Card.row) : Card.row :=
  {| Card.id := Card.id c; Card.product_id := Card.product_id c;
     Card.card_key := Card.card_key c; Card.is_used := Card.is_used c;
     Card.reserved_order_id := None; Card.reserved_at := None;
     Card.used_at := Card.used_at c |}.

(** [SET reserved_order_id = o, reserved_at = NOW()] *)
Definition reserve (o : string) (now : Z) (c : Card.row) : Card.row :=
  {| Card.id := Card.id c; Card.product_id := Card.product_id c;
     Card.card_key := Card.card_key c; Card.is_used := Card.is_used c;
     Card.reserved_order_id := Some o; Card.reserved_at := Some now;
     Card.used_at := Card.used_at c |}.

(** [SET is_used = true, used_at = NOW(), reserved_order_id = NULL,
     reserved_at = NULL] *)
Definition consume (now : Z) (c : Card.row) : Card.row :=
  {| Card.id := Card.id c; Card.product_id := Card.product_id c;
     Card.card_key := Card.card_key c; Card.is_used := Some true;
     Card.reserved_order_id := None; Card.reserved_at := None;
     Card.used_at := Some now |}.

(** [UPDATE cards SET f WHERE id = (SELECT id FROM cards WHERE P LIMIT 1
     FOR UPDATE SKIP LOCKED) RETURNING *]: an empty subquery compares [id]
    with NULL and updates nothing. *)
Definition update_first (P : Card.row → bool) (f : Card.row → Card.row)
    (rows : list Card.row) : list Card.row * list Card.row :=
  match List.find P rows with
  | Some c0 => update_where (fun c => Card.id c =? Card.id c0) f rows
  | None => (rows, [])
  end.

Definition set_status (s : string) (o : Order.row) : Order.row :=
  {| Order.orderId := Order.orderId o; Order.productId := Order.productId o;
     Order.productName := Order.productName o; Order.amount := Order.amount o;
     Order.email := Order.email o; Order.status := s;
     Order.tradeNo := Order.tradeNo o; Order.cardKey := Order.cardKey o;
     Order.paidAt := Order.paidAt o; Order.deliveredAt := Order.deliveredAt o;
     Order.userId := Order.userId o; Order.username := Order.username o;
     Order.created_at := Order.created_at o |}.

(** ** Expiry reaper: [cancelExpiredOrders] (lib/db/queries.ts) *)

Record filters := {
  f_productId : option string;
  f_userId : option string;
  f_orderId : option string
}.

Definition no_filter : filters :=
  {| f_productId := None; f_userId := None; f_orderId := None |}.

(** [(x IS NULL OR col = x)] for a column that is not nullable *)
Definition narrow (x : option string) (col : string) : bool :=
  match x with
  | None => true
  | Some v => String.eqb col v
  end.

(** [(x IS NULL OR col = x)] for a nullable column *)
Definition narrow_null (x : option string) (col : option string) : bool :=
  match x with
  | None => true
  | Some v => opt_eqb col v
  end.

(** The [WHERE] clause of the reaper's [UPDATE orders]; [cutoff] is
    [NOW() - INTERVAL '5 minutes']. *)
Definition expired (f : filters) (cutoff : Z) (o : Order.row) : bool :=
  String.eqb (Order.status o) "pending"
  && (Order.created_at o <? cutoff)
  && narrow (f_productId f) (Order.productId o)
  && narrow_null (f_userId f) (Order.userId o)
  && narrow (f_orderId f) (Order.orderId o).

(** What the reaper is meant to select, in words: the order is
    [pending], it was created more than five minutes before [now], and it
    agrees with every field the filter gives. *)
Definition stale (f : filters) (now : Z) (o : Order.row) : Prop :=
  Order.status o = "pending"
  ∧ Order.created_at o + 5 * 60 * 1000 < now
  ∧ (∀ p, f_productId f = Some p → Order.productId o = p)
  ∧ (∀ u, f_userId f = Some u → Order.userId o = Some u)
  ∧ (∀ i, f_orderId f = Some i → Order.orderId o = i).

(** A card that still points at one of the orders [ids] and is
    unconsumed. *)
Definition held_by_any (ids : list string) (c : Card.row) : Prop :=
  unused c = true ∧ ∃ i, i ∈ ids ∧ Card.reserved_order_id c = Some i.

(** [UPDATE cards SET reserved_order_id = NULL, reserved_at = NULL
     WHERE reserved_order_id = o AND COALESCE(is_used, false) = false] *)
Definition releaseHold (cs : list Card.row) (o : string) : list Card.row :=
  fst (update_where (held_by o) release cs).

(** [for (const expiredOrderId of orderIds) { UPDATE cards ... }] *)
Definition releaseHolds (orderIds : list string) (cs : list Card.row) : list Card.row :=
  fold_left releaseHold orderIds cs.

(** The Postgres edition.  The three statements run in one transaction; in
    this model none of them fails (the tables exist, and the [ALTER TABLE]
    creates the columns the last statement names), so the [catch] branches
    for a missing table or column are not taken. *)
Definition cancelExpiredOrders (f : filters) (now : Z) (db : DB) : list string * DB :=
  let '(orders', rows) :=
    update_where (expired f (now - PENDING_TTL)) (set_status "cancelled") (orders db) in
  let db1 := with_orders db orders' in
  let orderIds :=
    List.filter (fun i => JS.truthy (Some i)) (List.map Order.orderId rows) in
  match orderIds with
  | [] => (orderIds, db1)
  | _ =>
      let db2 := ensureCardsReservationColumns db1 in
      (orderIds, with_cards db2 (releaseHolds orderIds (cards db2)))
  end.

(** The Workers (D1) edition: no transaction, the cutoff is computed by
    the handler as [Date.now() - 5 * 60 * 1000], and the two columns are
    added by two [ALTER TABLE] statements whose duplicate-column errors
    are swallowed. *)
Definition cancelExpiredOrders_workers (f : filters) (date_now : Z) (db : DB)
  : list string * DB :=
  let fiveMinutesAgoMs := date_now - 5 * 60 * 1000 in
  let '(orders', rows) :=
    update_where (expired f fiveMinutesAgoMs) (set_status "cancelled") (orders db) in
  let db1 := with_orders db orders' in
  let orderIds :=
    List.filter (fun i => JS.truthy (Some i)) (List.map Order.orderId rows) in
  if (length orderIds =? 0)%nat then (orderIds, db1)
  else
    let db2 := ensureCardsReservationColumns db1 in
    (orderIds, with_cards db2 (releaseHolds orderIds (cards db2))).

(** ** The host: what the routines import or read from the process *)

(** Functions of lib/crypto and of the JavaScript runtime.  The engine is
    parametric in them. *)
Record Host := {
  md5 : string → string;
  generateSign : list (string * option string) → option string → string;
  parseFloat : string → float;
  toFixed2 : string → string            (* Number(x).toFixed(2) *)
}.

(** [process.env] *)
Record Env := {
  MERCHANT_ID : option string;
  MERCHANT_KEY : option string;
  PAY_URL : option string;
  NEXT_PUBLIC_APP_URL : option string;
  VERCEL_URL : option string
}.

(** [session?.user] *)
Record User := {
  user_id : option string;
  user_email : option string;
  user_username : option string
}.

(** ** Checkout: [createOrder] *)

Inductive outcome : Type :=
| Failure (error : string)             (* { success: false, error } *)
| Success (cookie : string * string)   (* cookieStore.set(name, value) *)
          (url : string)
          (params : list (string * option string))
                                       (* { success: true, url, params } *)
| Thrown.                              (* the action rejects *)

(** [SELECT count( * ) FROM cards WHERE product_id = p AND unused AND
     (reserved_at IS NULL OR reserved_at < NOW() - INTERVAL '1 minute')] *)
Definition getAvailableStock (now : Z) (productId : string) (db : DB) : sql Z :=
  if reservationCols db
  then Done (Z.of_nat (length (List.filter (available now productId) (cards db))))
  else UndefinedColumn.

(** [SELECT count( * ) FROM cards WHERE product_id = p AND is_used IS NULL] *)
Definition countNullUsed (productId : string) (db : DB) : Z :=
  Z.of_nat (length (List.filter
    (fun c => String.eqb (Card.product_id c) productId
              && match Card.is_used c with None => true | Some _ => false end)
    (cards db))).

Definition backfill_used (c : Card.row) : Card.row :=
  match Card.is_used c with
  | Some _ => c
  | None =>
      {| Card.id := Card.id c; Card.product_id := Card.product_id c;
         Card.card_key := Card.card_key c; Card.is_used := Some false;
         Card.reserved_order_id := Card.reserved_order_id c;
         Card.reserved_at := Card.reserved_at c; Card.used_at := Card.used_at c |}
  end.

(** [ALTER TABLE cards ALTER COLUMN is_used SET DEFAULT FALSE;
     UPDATE cards SET is_used = FALSE WHERE is_used IS NULL] *)
Definition ensureCardsIsUsedDefaults (db : DB) : DB :=
  with_cards db (List.map backfill_used (cards db)).

(** [or(eq(orders.userId, uid), eq(orders.email, em))] with only the
    conditions whose value is truthy *)
Definition buyer_matches (uid em : option string) (o : Order.row) : bool :=
  (JS.truthy uid && bool_decide (Order.userId o = uid))
  || (JS.truthy em && bool_decide (Order.email o = em)).

Definition settled (o : Order.row) : bool :=
  String.eqb (Order.status o) "paid" || String.eqb (Order.status o) "delivered".

(** the purchase-limit query *)
Definition countPurchases (productId : string) (uid em : option string) (db : DB) : Z :=
  Z.of_nat (length (List.filter
    (fun o => String.eqb (Order.productId o) productId && buyer_matches uid em o && settled o)
    (orders db))).

(** Step 3 of [createOrder]: [true] when the call is refused. *)
Definition limitExceeded (productId : string) (product : Product.row)
    (user : option User) (email : option string) (db : DB) : bool :=
  match Product.purchaseLimit product with
  | Some limit =>
      (* [product.purchaseLimit && product.purchaseLimit > 0] *)
      if negb (limit =? 0) && (limit >? 0) then
        let currentUserId := user ≫= user_id in
        let currentUserEmail := JS.or_else email (user ≫= user_email) in
        if JS.truthy currentUserId || JS.truthy currentUserEmail
        then countPurchases productId currentUserId currentUserEmail db >=? limit
        else false
      else false
  | None => false
  end.

Inductive tx_result : Type :=
| Committed (db : DB)
| StockLocked                          (* throw new Error('stock_locked') *)
| MissingColumn                        (* SQLSTATE 42703 *)
| OtherError.                          (* e.g. duplicate key on orders.order_id *)

Definition newOrder (orderId : string) (product : Product.row) (user : option User)
    (email : option string) (now : Z) : Order.row :=
  {| Order.orderId := orderId;
     Order.productId := Product.id product;
     Order.productName := Product.name product;
     Order.amount := Product.price product;
     Order.email := JS.or_else (JS.or_else email (user ≫= user_email)) None;
     Order.status := "pending";
     Order.tradeNo := None; Order.cardKey := None;
     Order.paidAt := None; Order.deliveredAt := None;
     Order.userId := JS.or_else (user ≫= user_id) None;
     Order.username := JS.or_else (user ≫= user_username) None;
     Order.created_at := now |}.

(** One transaction: claim the first available card of the product for
    [orderId], then insert the pending order.  Any failure rolls both
    back. *)
Definition reserveAndCreate (orderId productId : string) (product : Product.row)
    (user : option User) (email : option string) (now : Z) (db : DB) : tx_result :=
  if negb (reservationCols db) then MissingColumn
  else
    let '(cards', reserved) :=
      update_first (available now productId) (reserve orderId now) (cards db) in
    match reserved with
    | [] => StockLocked
    | _ =>
        if existsb (fun o => String.eqb (Order.orderId o) orderId) (orders db)
        then OtherError                 (* order_id is the primary key *)
        else Committed (with_orders (with_cards db cards')
                          (orders db ++ [newOrder orderId product user email now]))
    end.

Definition payDescriptor (h : Host) (env : Env) (orderId : string)
    (product : Product.row) : string * list (string * option string) :=
  let baseUrl :=
    if JS.truthy (NEXT_PUBLIC_APP_URL env) then JS.interpolate (NEXT_PUBLIC_APP_URL env)
    else if JS.truthy (VERCEL_URL env)
         then String.append "https://" (JS.interpolate (VERCEL_URL env))
         else "http://localhost:3000" in
  let payParams :=
    [ ("pid", MERCHANT_ID env);
      ("type", Some "epay");
      ("out_trade_no", Some orderId);
      ("notify_url", Some (String.append baseUrl "/api/notify"));
      ("return_url", Some (String.append baseUrl (String.append "/callback/" orderId)));
      ("name", Some (Product.name product));
      ("money", Some (toFixed2 h (Product.price product)));
      ("sign_type", Some "MD5") ] in
  let sign := generateSign h payParams (MERCHANT_KEY env) in
  (if JS.truthy (PAY_URL env) then JS.interpolate (PAY_URL env)
   else "https://credit.linux.do/epay/pay/submit.php",
   payParams ++ [("sign", Some sign)]).

(** Step 2 of [createOrder], "Check Stock": count the available cards,
    adding the reservation columns first when the count fails for their
    absence; when the count is zero and the product has cards whose
    [is_used] is NULL, backfill them and count again (errors of this
    second attempt are ignored).  [inr] is an exception that escapes. *)
Definition checkStock (now : Z) (productId : string) (db : DB) : (Z * DB) + DB :=
  let counted :=
    match getAvailableStock now productId db with
    | Done n => inl (n, db)
    | UndefinedColumn =>
        let db' := ensureCardsReservationColumns db in
        match getAvailableStock now productId db' with
        | Done n => inl (n, db')
        | UndefinedColumn => inr db'
        end
    end in
  match counted with
  | inr db' => inr db'
  | inl (stock, db2) =>
      if stock <=? 0 then
        if countNullUsed productId db2 >? 0 then
          let db' := ensureCardsIsUsedDefaults db2 in
          match getAvailableStock now productId db' with
          | Done n => inl (n, db')
          | UndefinedColumn => inl (stock, db')
          end
        else inl (stock, db2)
      else inl (stock, db2)
  end.

(** [createOrder(productId, email)].  [user] is the session's user,
    [orderId] the value [generateOrderId()] returns on this call and [now]
    the clock reading of the call. *)
Definition createOrder (h : Host) (env : Env) (user : option User) (orderId : string)
    (now : Z) (productId : string) (email : option string) (db : DB) : outcome * DB :=
  (* 1. Get Product *)
  match List.find (fun p => String.eqb (Product.id p) productId) (products db) with
  | None => (Failure "buy.productNotFound", db)
  | Some product =>
      (* best effort cleanup *)
      let db1 :=
        snd (cancelExpiredOrders
               {| f_productId := Some productId; f_userId := None; f_orderId := None |}
               now db) in
      (* 2. Check Stock *)
      match checkStock now productId db1 with
      | inr db' => (Thrown, db')
      | inl (stock, db3) =>
          if stock <=? 0 then (Failure "buy.outOfStock", db3)
          (* 3. Check Purchase Limit *)
          else if limitExceeded productId product user email db3
          then (Failure "buy.limitExceeded", db3)
          else
            (* 4. Create Order + Reserve Stock *)
            let done (db4 : DB) :=
              let '(url, params) := payDescriptor h env orderId product in
              (Success ("ldc_pending_order", orderId) url params, db4) in
            match reserveAndCreate orderId productId product user email now db3 with
            | Committed db4 => done db4
            | StockLocked => (Failure "buy.stockLocked", db3)
            | OtherError => (Thrown, db3)
            | MissingColumn =>
                let db' := ensureCardsReservationColumns db3 in
                match reserveAndCreate orderId productId product user email now db' with
                | Committed db4 => done db4
                | StockLocked => (Failure "buy.stockLocked", db')
                | OtherError | MissingColumn => (Thrown, db')
                end
            end
      end
  end.

(** ** Settlement: [processNotify] (the /api/notify route) *)

Module Response.
(** [new Response(body, { status })] *)
Record t := { body : string; status : Z }.
Definition success : t := {| body := "success"; status := 200 |}.
Definition fail : t := {| body := "fail"; status := 400 |}.
Definition error : t := {| body := "error"; status := 500 |}.
End Response.

(** How a call of [processNotify] ends: it returns a response, or an
    exception leaves it. *)
Inductive answer : Type :=
| Answered (response : Response.t)
| Threw.

(** [url.searchParams.forEach((value, key) => { params[key] = value })]
    on [params = {}].  The key [__proto__] names the prototype
    accessor of the object: assigning a string to it does nothing and
    creates no property. *)
Definition collectParams (pairs : list (string * string)) : gmap string string :=
  fold_left (fun m kv => if String.eqb kv.1 "__proto__" then m else <[kv.1 := kv.2]> m)
    pairs ∅.

(** The string that is signed: the fields other than [sign] and
    [sign_type] whose value is not empty, sorted by name, as
    [k=v] joined by [&].  The values are strings, so the tests against
    [null] and [undefined] in the filter always pass. *)
Definition canonical (params : gmap string string) : string :=
  let keys :=
    List.filter
      (fun k => negb (String.eqb k "sign") && negb (String.eqb k "sign_type")
                && negb (opt_eqb (params !! k) ""))
      (List.map fst (map_to_list params)) in
  JS.join "&"
    (List.map (fun k => String.append k (String.append "=" (JS.interpolate (params !! k))))
       (JS.sort keys)).

Definition mySign (h : Host) (env : Env) (params : gmap string string) : string :=
  md5 h (String.append (canonical params) (JS.interpolate (MERCHANT_KEY env))).

(** [sign !== mySign] is [false] *)
Definition signatureOk (h : Host) (env : Env) (params : gmap string string) : bool :=
  opt_eqb (params !! "sign") (mySign h env params).

(** [parseFloat(params.money)]: a missing field reads as NaN *)
Definition notifyMoney (h : Host) (params : gmap string string) : float :=
  match params !! "money" with
  | Some s => parseFloat h s
  | None => PrimFloat.nan
  end.

(** the double nearest to 0.01 *)
Definition epsilon : float := 0x1.47ae147ae147bp-7%float.

(** [Math.abs(notifyMoney - orderMoney) > 0.01] *)
Definition amountMismatch (h : Host) (params : gmap string string) (order : Order.row) : bool :=
  PrimFloat.ltb epsilon
    (PrimFloat.abs (PrimFloat.sub (notifyMoney h params) (parseFloat h (Order.amount order)))).

(** [db.query.orders.findFirst({ where: eq(orders.orderId, orderId) })];
    a notification without [out_trade_no] finds nothing. *)
Definition findOrder (orderId : option string) (db : DB) : option Order.row :=
  match orderId with
  | Some i => List.find (fun o => String.eqb (Order.orderId o) i) (orders db)
  | None => None
  end.

(** [.set({ status: 'delivered', paidAt, deliveredAt, tradeNo, cardKey })];
    a field whose value is [undefined] is left as it is. *)
Definition deliver (now : Z) (tradeNo cardKey : option string) (o : Order.row) : Order.row :=
  {| Order.orderId := Order.orderId o; Order.productId := Order.productId o;
     Order.productName := Order.productName o; Order.amount := Order.amount o;
     Order.email := Order.email o; Order.status := "delivered";
     Order.tradeNo := match tradeNo with Some t => Some t | None => Order.tradeNo o end;
     Order.cardKey := match cardKey with Some k => Some k | None => Order.cardKey o end;
     Order.paidAt := Some now; Order.deliveredAt := Some now;
     Order.userId := Order.userId o; Order.username := Order.username o;
     Order.created_at := Order.created_at o |}.

(** [.set({ status: 'paid', paidAt, tradeNo })] *)
Definition markPaid (now : Z) (tradeNo : option string) (o : Order.row) : Order.row :=
  {| Order.orderId := Order.orderId o; Order.productId := Order.productId o;
     Order.productName := Order.productName o; Order.amount := Order.amount o;
     Order.email := Order.email o; Order.status := "paid";
     Order.tradeNo := match tradeNo with Some t => Some t | None => Order.tradeNo o end;
     Order.cardKey := Order.cardKey o;
     Order.paidAt := Some now; Order.deliveredAt := Order.deliveredAt o;
     Order.userId := Order.userId o; Order.username := Order.username o;
     Order.created_at := Order.created_at o |}.

(** [rows[0]?.card_key] *)
Definition firstCardKey (rows : list Card.row) : option string :=
  Card.card_key <$> head rows.

(** The first statement of the transaction: finalize the card(s) this
    order holds.  Returns the cards, [cardKey] and [supportsReservation].
    On a schema without the reservation columns the statement fails with
    SQLSTATE 42703; the [catch] clears [supportsReservation], and the
    transaction is left aborted. *)
Definition claimReserved (orderId : string) (now : Z) (db : DB)
  : list Card.row * option string * bool :=
  if reservationCols db then
    let '(cs, rows) := update_where (held_by orderId) (consume now) (cards db) in
    (cs, firstCardKey rows, true)
  else (cards db, None, false).

(** [if (!cardKey) { ... }]: claim any available card of the product.
    When [supportsReservation] is [false] the statement of the other
    branch ([UPDATE cards SET is_used = true, used_at = NOW() WHERE id =
    (... LIMIT 1)]) is sent in the transaction that the failed first
    statement has aborted: PostgreSQL refuses it (SQLSTATE 25P02), and
    no [try] is around it.  [None] is that error. *)
Definition claimFallback (productId : string) (now : Z) (supportsReservation : bool)
    (cs : list Card.row) : option (list Card.row * option string) :=
  if supportsReservation then
    let '(cs', rows) := update_first (available now productId) (consume now) cs in
    Some (cs', firstCardKey rows)
  else None.

(** [db.transaction(async (tx) => { ... })] in [processNotify]: the
    database that the transaction commits, or [None] when an error
    leaves its body and it is rolled back. *)
Definition settle (orderId : string) (tradeNo : option string) (order : Order.row)
    (now : Z) (db : DB) : option DB :=
  let '(cs1, cardKey, supportsReservation) := claimReserved orderId now db in
  let onOrder (f : Order.row → Order.row) :=
    fst (update_where (fun o => String.eqb (Order.orderId o) orderId) f (orders db)) in
  match (if negb (JS.truthy cardKey)
         then claimFallback (Order.productId order) now supportsReservation cs1
         else Some (cs1, cardKey)) with
  | Some (cs2, cardKey) =>
      if JS.truthy cardKey
      then Some (with_orders (with_cards db cs2) (onOrder (deliver now tradeNo cardKey)))
      else Some (with_orders (with_cards db cs2) (onOrder (markPaid now tradeNo)))
  | None => None
  end.

Definition processNotify (h : Host) (env : Env) (now : Z)
    (params : gmap string string) (db : DB) : answer * DB :=
  (* Verify Sign *)
  if negb (signatureOk h env params) then (Answered Response.fail, db)
  else if opt_eqb (params !! "trade_status") "TRADE_SUCCESS" then
    let orderId := params !! "out_trade_no" in
    let tradeNo := params !! "trade_no" in
    match orderId, findOrder orderId db with
    | Some oid, Some order =>
        (* Verify Amount *)
        if amountMismatch h params order then (Answered Response.fail, db)
        else if String.eqb (Order.status order) "pending"
                || String.eqb (Order.status order) "cancelled"
        then match settle oid tradeNo order now db with
             | Some db' => (Answered Response.success, db')
             | None => (Threw, db)
             end
        else (Answered Response.success, db)
    | _, _ => (Answered Response.success, db)
    end
  else (Answered Response.success, db).

(** [GET]: the query string's pairs, in order, become the parameters;
    [catch (e) { return new Response('error', { status: 500 }) }] is
    around the call. *)
Definition GET (h : Host) (env : Env) (now : Z) (query : list (string * string))
    (db : DB) : Response.t * DB :=
  match processNotify h env now (collectParams query) db with
  | (Answered response, db') => (response, db')
  | (Threw, db') => (Response.error, db')
  end.

(** ** The engine as a transition system *)

(** The core operations, one constructor per entry point.  [ReleaseOne]
    is one turn of the reaper's release loop on its own: the Workers
    edition runs the loop outside any transaction, so other operations
    can run between the cancellation of an order and the release of its
    card. *)
Inductive op : Type :=
| Checkout (user : option User) (orderId : string) (now : Z)
           (productId : string) (email : option string)
| Notify (now : Z) (params : gmap string string)
| Reap (f : filters) (now : Z)
| ReleaseOne (orderId : string).

Definition run (h : Host) (env : Env) (db : DB) (o : op) : DB :=
  match o with
  | Checkout user orderId now productId email =>
      snd (createOrder h env user orderId now productId email db)
  | Notify now params => snd (processNotify h env now params db)
  | Reap f now => snd (cancelExpiredOrders f now db)
  | ReleaseOne orderId =>
      if reservationCols db then with_cards db (releaseHold (cards db) orderId) else db
  end.

Definition runs (h : Host) (env : Env) (ops : list op) (db : DB) : DB :=
  fold_left (run h env) ops db.

(** A consumed unit: [is_used = true]. *)
Definition consumed (c : Card.row) : Prop := Card.is_used c = Some true.

(** Row by row, a card that was consumed is exactly what it was. *)
Definition keeps_consumed (cs cs' : list Card.row) : Prop :=
  Forall2 (fun c c' => consumed c → c' = c) cs cs'.

(** What one statement does to [cards]: the ids stay in place and the
    consumed rows are untouched. *)
Definition card_step (cs cs' : list Card.row) : Prop :=
  List.map Card.id cs' = List.map Card.id cs ∧ keeps_consumed cs cs'.

(** ** A concrete host and a small shop, for the worked examples *)

Module Sample.

(** Modelled from the spec: [generateSign] of lib/crypto is missing from
    the sources; this is the signing rule that [processNotify] checks,
    the digest of the canonical string followed by the merchant key,
    over the fields that have a value. *)
Definition sign (fields : list (string * option string)) (key : option string) : string :=
  let params :=
    collectParams (omap (fun kv => match kv.2 with
                                   | Some v => Some (kv.1, v)
                                   | None => None
                                   end) fields) in
  MD5.md5 (String.append (canonical params) (JS.interpolate key)).

(** [toFixed2] is the identity: the prices of the examples already have
    two decimals. *)
Definition host : Host :=
  {| md5 := MD5.md5;
     generateSign := sign;
     parseFloat := Decimal.parseDecimal;
     toFixed2 := fun price => price |}.

Definition env : Env :=
  {| MERCHANT_ID := Some "1001";
     MERCHANT_KEY := Some "s3cret";
     PAY_URL := None;
     NEXT_PUBLIC_APP_URL := Some "https://shop.example";
     VERCEL_URL := None |}.

(** a notification as the gateway sends it: the fields and their
    signature under the merchant key *)
Definition notification (fields : list (string * string)) : gmap string string :=
  let params := collectParams fields in
  <["sign" := mySign host env params]> (<["sign_type" := "MD5"]> params).

Definition tradeSuccess (orderId money : string) : gmap string string :=
  notification
    [ ("pid", "1001"); ("trade_no", "T-778"); ("out_trade_no", orderId);
      ("type", "epay"); ("name", "Gift card"); ("money", money);
      ("trade_status", "TRADE_SUCCESS") ].

Definition giftCard (limit : option Z) (active : bool) : Product.row :=
  {| Product.id := "p1"; Product.name := "Gift card"; Product.price := "10.00";
     Product.isActive := Some active; Product.purchaseLimit := limit |}.

Definition unit (n : Z) (key : string) (used : bool) (heldBy : option string)
    (heldAt : option Z) : Card.row :=
  {| Card.id := n; Card.product_id := "p1"; Card.card_key := key;
     Card.is_used := Some used; Card.reserved_order_id := heldBy;
     Card.reserved_at := heldAt; Card.used_at := if used then Some 0 else None |}.

Definition unit1 := unit 1 "KEY-1".
Definition unit2 := unit 2 "KEY-2".

Definition orderOf (orderId status : string) (created : Z) : Order.row :=
  {| Order.orderId := orderId; Order.productId := "p1";
     Order.productName := "Gift card"; Order.amount := "10.00";
     Order.email := Some "a@example.org"; Order.status := status;
     Order.tradeNo := None; Order.cardKey := None;
     Order.paidAt := None; Order.deliveredAt := None;
     Order.userId := Some "u1"; Order.username := Some "alice";
     Order.created_at := created |}.

Definition alice : User :=
  {| user_id := Some "u1"; user_email := Some "a@example.org";
     user_username := Some "alice" |}.

Definition shop (p : Product.row) (cs : list Card.row) (os : list Order.row) : DB :=
  {| products := [p]; cards := cs; orders := os; reservationCols := true |}.

(** One unit, consumed by order O1, which is delivered. *)
Definition afterDelivery : DB :=
  shop (giftCard (Some 1) true) [unit1 true None None] [orderOf "O1" "delivered" 0].

(** One free unit and one pending order that is not O9. *)
Definition oneOrder : DB :=
  shop (giftCard None true) [unit1 false (Some "O1") (Some 0)] [orderOf "O1" "pending" 0].

(** The end-to-end scenario at 80 s: O1 was created at 0 s and its
    hold lapsed at 60 s; at 61 s the only unit was claimed for O2. *)
Definition reassigned : DB :=
  shop (giftCard None true)
    [unit1 false (Some "O2") (Some 61000)]
    [orderOf "O1" "pending" 0; orderOf "O2" "pending" 61000].

(** The product is switched off; its only unit is free. *)
Definition switchedOff : DB :=
  shop (giftCard None false) [unit1 false None None] [].

(** Limit 1, one delivered order of alice, and a second, free unit. *)
Definition limitReached : DB :=
  shop (giftCard (Some 1) true)
    [unit1 true None None; unit2 false None None]
    [orderOf "O1" "delivered" 0].

(** O1 is pending since 0 s and holds unit 1; O2 is pending since
    9 min 50 s and holds unit 2. *)
Definition twoPending : DB :=
  shop (giftCard None true)
    [unit1 false (Some "O1") (Some 0); unit2 false (Some "O2") (Some 590000)]
    [orderOf "O1" "pending" 0; orderOf "O2" "pending" 590000].

(** The reaper has cancelled O1 but not yet released its unit. *)
Definition cancelledNotReleased : DB :=
  shop (giftCard None true)
    [unit1 false (Some "O1") (Some 0)]
    [orderOf "O1" "cancelled" 0].

(** O1 is cancelled and the product's only unit is consumed. *)
Definition soldOut : DB :=
  shop (giftCard None true) [unit1 true None None] [orderOf "O1" "cancelled" 0].

End Sample.

(** ** Counters over the tables *)

(** the number of orders in state [delivered] *)
Definition deliveredCount (os : list Order.row) : nat :=
  length (List.filter (fun o => String.eqb (Order.status o) "delivered") os).

(** the number of consumed cards *)
Definition consumedCount (cs : list Card.row) : nat :=
  length (List.filter (fun c => negb (unused c)) cs).

(** ** Admin actions on the stock (actions/admin.ts)

    These are actions of the Workers edition, whose schema defines
    [cards] with the reservation columns and with [product_id]
    referencing [products(id)]: the actions do not depend on
    [reservationCols], and an insert for a product that does not exist
    is refused by the database. *)

(** String routines of the JavaScript runtime that the admin actions
    call; like [Host], they are parameters. *)
Record Text := {
  trim : string → string;               (* s.trim() *)
  toLowerCase : string → string         (* s.toLowerCase() *)
}.

(** [s.split(sep)] for a one-character separator: the pieces between the
    separators, empty pieces included; the empty string gives one empty
    piece. *)
Fixpoint splitOn (sep : ascii) (s : string) : list string :=
  match s with
  | EmptyString => [""]
  | String a rest =>
      if Ascii.eqb a sep then "" :: splitOn sep rest
      else match splitOn sep rest with
           | piece :: pieces => String a piece :: pieces
           | [] => [String a ""]
           end
  end.

(** [s.split(/[...]+/)] for a class of characters: the pieces between
    the maximal runs of separators.  [inRun] tells that the character
    before was a separator of the run being skipped. *)
Fixpoint splitRuns (isSep : ascii → bool) (inRun : bool) (s : string) : list string :=
  match s with
  | EmptyString => [""]
  | String a rest =>
      if isSep a then
        if inRun then splitRuns isSep true rest else "" :: splitRuns isSep true rest
      else match splitRuns isSep false rest with
           | piece :: pieces => String a piece :: pieces
           | [] => [String a ""]
           end
  end.

(** the class [[\n,]] *)
Definition newlineOrComma (a : ascii) : bool :=
  Ascii.eqb a "010"%char || Ascii.eqb a ","%char.

(** [checkAdmin()]: [true] when it returns, [false] when it throws
    [Unauthorized].  [adminUsers] is [process.env.ADMIN_USERS]. *)
Definition checkAdmin (tx : Text) (adminUsers : option string) (user : option User) : bool :=
  let admins :=
    match adminUsers with
    | Some s => splitOn ","%char (toLowerCase tx s)
    | None => []
    end in
  match user with
  | None => false
  | Some u =>
      match user_username u with
      | Some name =>
          JS.truthy (Some name)
          && existsb (String.eqb (toLowerCase tx name)) admins
      | None => false
      end
  end.

(** How an admin action ends. *)
Inductive action : Type :=
| Returned (db : DB)
| Rejected (message : string)          (* throw new Error(message) *)
| DbError.                             (* a statement is refused by the database *)

(** [l.slice(i, j)] for [0 <= i <= j] *)
Definition slice {A} (l : list A) (i j : nat) : list A :=
  firstn (j - i) (skipn i l).

(** [for (let i = 0; i < l.length; i += size) { ... l.slice(i, i + size) ... }]:
    the batches, in the order the loop makes them. *)
Definition batches {A} (size : nat) (l : list A) : list (list A) :=
  List.map (fun q => slice l (q * size) (q * size + size))
    (seq 0 ((length l + size - 1) / size)).

(** [cardList]: the keys of the form field, split at newlines and
    commas, trimmed, without the empty ones. *)
Definition cardList (tx : Text) (rawCards : string) : list string :=
  List.filter (fun c => JS.truthy (Some c))
    (List.map (trim tx) (splitRuns newlineOrComma false rawCards)).

(** A row as [db.insert(cards).values({ productId, cardKey })] makes it.
    The statement lists every column of the table; a column that is not
    given takes the default that lib/db/schema declares and [NULL]
    otherwise.  The schema module is not among the sources:
    [declared] tells whether it declares [default(false)] for [isUsed]. *)
Definition newCard (declared : bool) (n : Z) (productId key : string) : Card.row :=
  {| Card.id := n; Card.product_id := productId; Card.card_key := key;
     Card.is_used := if declared then Some false else None;
     Card.reserved_order_id := None;
     Card.reserved_at := None; Card.used_at := None |}.

(** One [INSERT] of a batch; [next] is the next value of the id
    sequence. *)
Definition insertBatch (declared : bool) (productId : string)
    (st : list Card.row * Z) (batch : list string) : list Card.row * Z :=
  (fst st ++ imap (fun i key => newCard declared (snd st + Z.of_nat i) productId key) batch,
   snd st + Z.of_nat (length batch)).

(** [addCards(formData)], with the form fields [product_id] and [cards];
    [next] is the next value of the id sequence of [cards]. *)
Definition addCards (tx : Text) (adminUsers : option string) (user : option User)
    (declared : bool) (next : Z) (productId rawCards : string) (db : DB) : action :=
  if negb (checkAdmin tx adminUsers user) then Rejected "Unauthorized"
  else
    let keys := cardList tx rawCards in
    if (length keys =? 0)%nat then Returned db
    else if negb (existsb (fun p => String.eqb (Product.id p) productId) (products db))
    then DbError                        (* product_id REFERENCES products(id) *)
    else
      let BATCH_SIZE := 10%nat in
      Returned (with_cards db
                  (fst (fold_left (insertBatch declared productId)
                          (batches BATCH_SIZE keys) (cards db, next)))).

(** [card.reservedAt && card.reservedAt > new Date(Date.now() - 60 * 1000)] *)
Definition reservedNow (now : Z) (c : Card.row) : bool :=
  match Card.reserved_at c with
  | Some t => t >? now - 60 * 1000
  | None => false
  end.

(** [deleteCard(cardId)] *)
Definition deleteCard (tx : Text) (adminUsers : option string) (user : option User)
    (now : Z) (cardId : Z) (db : DB) : action :=
  if negb (checkAdmin tx adminUsers user) then Rejected "Unauthorized"
  else
    match List.find (fun c => Card.id c =? cardId) (cards db) with
    | None => Rejected "Card not found"
    | Some card =>
        if default false (Card.is_used card) then Rejected "Cannot delete used card"
        else if reservedNow now card then Rejected "Cannot delete reserved card"
        else Returned (with_cards db
                         (List.filter (fun c => negb (Card.id c =? cardId)) (cards db)))
    end.

(** The [WHERE] clause of [deleteCards] for one batch:
    [id IN batch AND (is_used IS NULL OR is_used = false)
     AND (reserved_at IS NULL OR reserved_at <= now - 60 s)] *)
Definition deletable (now : Z) (batch : list Z) (c : Card.row) : bool :=
  existsb (Z.eqb (Card.id c)) batch
  && match Card.is_used c with None => true | Some u => negb u end
  && match Card.reserved_at c with None => true | Some t => t <=? now - 60 * 1000 end.

(** [deleteCards(cardIds)].  The clock is read once for the call. *)
Definition deleteCards (tx : Text) (adminUsers : option string) (user : option User)
    (now : Z) (cardIds : list Z) (db : DB) : action :=
  if negb (checkAdmin tx adminUsers user) then Rejected "Unauthorized"
  else if (length cardIds =? 0)%nat then Returned db
  else
    let BATCH_SIZE := 100%nat in
    Returned (with_cards db
                (fold_left (fun cs batch => List.filter (fun c => negb (deletable now batch c)) cs)
                   (batches BATCH_SIZE cardIds) (cards db))).

(** [s.includes(a)] for one character *)
Fixpoint has_char (a : ascii) (s : string) : bool :=
  match s with
  | EmptyString => false
  | String b rest => Ascii.eqb b a || has_char a rest
  end.

(** ** A concrete back office, for the worked examples *)

Module Office.

Definition isSpace (a : ascii) : bool :=
  let n := nat_of_ascii a in
  ((9 <=? n) && (n <=? 13) || (n =? 32))%nat.

Fixpoint trimStart (s : string) : string :=
  match s with
  | EmptyString => ""
  | String a rest => if isSpace a then trimStart rest else s
  end.

Fixpoint trimEnd (s : string) : string :=
  match s with
  | EmptyString => ""
  | String a rest =>
      let rest' := trimEnd rest in
      if isSpace a && String.eqb rest' "" then "" else String a rest'
  end.

Definition lower (a : ascii) : ascii :=
  let n := nat_of_ascii a in
  if ((65 <=? n) && (n <=? 90))%nat then ascii_of_nat (n + 32) else a.

Fixpoint lowerAll (s : string) : string :=
  match s with
  | EmptyString => ""
  | String a rest => String (lower a) (lowerAll rest)
  end.

(** the two string routines on 8-bit text *)
Definition text : Text :=
  {| trim := fun s => trimEnd (trimStart s); toLowerCase := lowerAll |}.

(** [ADMIN_USERS] *)
Definition admins : option string := Some "Root,Alice".

(** Three units of p1: one consumed, one held since 30 s, one free. *)
Definition stock : DB :=
  Sample.shop (Sample.giftCard None true)
    [ Sample.unit1 true None None;
      Sample.unit2 false (Some "O2") (Some 30000);
      Sample.unit 3 "KEY-3" false None None ]
    [Sample.orderOf "O1" "delivered" 0; Sample.orderOf "O2" "pending" 30000].

End Office.

(** ** Reviews (actions/reviews.ts and the review queries of lib/db/queries.ts) *)

Module Review.
(** [reviews].  Ratings are the whole numbers of the five-star control;
    other numbers are outside this model. *)
Record row := {
  id : Z;
  productId : string;
  orderId : string;
  userId : string;
  username : string;
  rating : Z;
  comment : option string;
  createdAt : Z
}.
End Review.

(** [session.user], as the review action reads it *)
Record SessionUser := {
  session_id : option string;
  session_username : option string;
  session_name : option string
}.

(** [SELECT id FROM reviews WHERE order_id = orderId]: is there a row?
    A table that does not exist yet reads as an empty one: [submitReview]
    creates it first, and [canUserReview] takes the error for "no
    review". *)
Definition hasUserReviewedOrder (orderId : string) (reviews : list Review.row) : bool :=
  negb (length (List.filter (fun r => String.eqb (Review.orderId r) orderId) reviews) =? 0)%nat.

(** [SELECT id FROM reviews WHERE order_id = orderId LIMIT 1] *)
Definition existingReview (orderId : string) (reviews : list Review.row) : list Z :=
  firstn 1 (List.map Review.id
              (List.filter (fun r => String.eqb (Review.orderId r) orderId) reviews)).

(** [createReview(data)]; [next] is the next value of the id sequence. *)
Definition createReview (now next : Z) (productId orderId userId username : string)
    (rating : Z) (comment : option string) (reviews : list Review.row)
  : list Review.row :=
  reviews ++ [ {| Review.id := next; Review.productId := productId;
                  Review.orderId := orderId; Review.userId := userId;
                  Review.username := username; Review.rating := rating;
                  Review.comment := comment; Review.createdAt := now |} ].

(** [session.user.username || session.user.name || fallback] *)
Definition sessionUsername (u : SessionUser) (fallback : string) : string :=
  default fallback
    (JS.or_else (session_username u) (JS.or_else (session_name u) (Some fallback))).

(** [(order.userId && order.userId === session.user.id) ||
     (order.username && sessionUsername && order.username === sessionUsername)] *)
Definition isOwner (order : Order.row) (u : SessionUser) : bool :=
  let name := sessionUsername u "" in
  (JS.truthy (Order.userId order)
   && bool_decide (Order.userId order = session_id u))
  || (JS.truthy (Order.username order) && JS.truthy (Some name)
      && opt_eqb (Order.username order) name).

(** [submitReview(productId, orderId, rating, comment)]: the error, if
    any, and the table of reviews afterwards. *)
Definition submitReview (session : option SessionUser) (now next : Z)
    (productId orderId : string) (rating : Z) (comment : string)
    (db : DB) (reviews : list Review.row) : option string * list Review.row :=
  match session with
  | None => (Some "review.authRequired", reviews)
  | Some u =>
      if (rating <? 1) || (rating >? 5) then (Some "review.invalidRating", reviews)
      else
        match findOrder (Some orderId) db with
        | None => (Some "review.orderNotFound", reviews)
        | Some order =>
            if negb (String.eqb (Order.productId order) productId)
            then (Some "review.invalidOrder", reviews)
            else if negb (isOwner order u) then (Some "review.notOwner", reviews)
            else if negb (String.eqb (Order.status order) "delivered")
            then (Some "review.orderNotDelivered", reviews)
            else if (0 <? length (existingReview orderId reviews))%nat
            then (Some "review.alreadyReviewed", reviews)
            else
              (None,
               createReview now next productId orderId
                 (default "" (JS.or_else (session_id u) (Some "")))
                 (sessionUsername u "Anonymous")
                 rating
                 (JS.or_else (Some comment) None)
                 reviews)
        end
  end.

(** [SELECT order_id FROM orders
     WHERE <mine> AND product_id = productId AND status = 'delivered'] *)
Definition deliveredOrderIds (mine : Order.row → bool) (productId : string) (db : DB)
  : list string :=
  List.map Order.orderId
    (List.filter (fun o => mine o
                           && String.eqb (Order.productId o) productId
                           && String.eqb (Order.status o) "delivered")
       (orders db)).

(** [canUserReview(userId, productId, username)]: the order to review,
    if there is one. *)
Definition canUserReview (userId productId : string) (username : option string)
    (db : DB) (reviews : list Review.row) : option string :=
  let byUserId :=
    deliveredOrderIds (fun o => opt_eqb (Order.userId o) userId) productId db in
  let deliveredOrders :=
    if (length byUserId =? 0)%nat && JS.truthy username
    then deliveredOrderIds (fun o => bool_decide (Order.username o = username)) productId db
    else byUserId in
  if (length deliveredOrders =? 0)%nat then None
  else List.find (fun i => negb (hasUserReviewedOrder i reviews)) deliveredOrders.

(** What a stored review rests on: a delivered order of the product it
    rates, and a rating from one to five. *)
Definition backed (db : DB) (r : Review.row) : Prop :=
  1 ≤ Review.rating r ≤ 5
  ∧ ∃ o, o ∈ orders db ∧ Order.orderId o = Review.orderId r
         ∧ Order.productId o = Review.productId r
         ∧ Order.status o = "delivered".

(** A submission, for sequences of them. *)
Record submission := {
  sub_session : option SessionUser;
  sub_now : Z;
  sub_productId : string;
  sub_orderId : string;
  sub_rating : Z;
  sub_comment : string
}.

(** Submissions one after the other; the id sequence gives the next
    integer to each row it numbers. *)
Fixpoint submitAll (db : DB) (subs : list submission) (next : Z)
    (reviews : list Review.row) : list Review.row :=
  match subs with
  | [] => reviews
  | s :: rest =>
      let '(error, reviews') :=
        submitReview (sub_session s) (sub_now s) next (sub_productId s)
          (sub_orderId s) (sub_rating s) (sub_comment s) db reviews in
      submitAll db rest (match error with Some _ => next | None => next + 1 end) reviews'
  end.

(** ** More sample data *)

Module Day.

(** The shop at opening: one free unit, no order. *)
Definition opening : DB :=
  Sample.shop (Sample.giftCard None true) [Sample.unit1 false None None] [].

(** alice, signed in, as the review action sees her *)
Definition aliceSession : SessionUser :=
  {| session_id := Some "u1"; session_username := Some "alice"; session_name := None |}.

(** the filter that checkout gives the reaper *)
Definition ofProduct (productId : string) : filters :=
  {| f_productId := Some productId; f_userId := None; f_orderId := None |}.

(** the shop of [Sample.oneOrder] on a [cards] table that has no
    reservation columns yet *)
Definition beforeMigration : DB :=
  {| products := [Sample.giftCard None true];
     cards := [Sample.unit1 false None None];
     orders := [Sample.orderOf "O1" "pending" 0];
     reservationCols := false |}.

(** the query string of the gateway's callback for O1 *)
Definition callback : list (string * string) :=
  let fields :=
    [ ("pid", "1001"); ("trade_no", "T-778"); ("out_trade_no", "O1");
      ("type", "epay"); ("name", "Gift card"); ("money", "10.00");
      ("trade_status", "TRADE_SUCCESS") ] in
  fields ++ [ ("sign_type", "MD5");
              ("sign", mySign Sample.host Sample.env (collectParams fields)) ].

(** A day's operations: a checkout, the reaper, a release and the
    payment notification of the new order. *)
Definition operations : list op :=
  [ Checkout None "O3" 80000 "p1" (Some "b@example.org");
    Reap no_filter 500000;
    ReleaseOne "O3";
    Notify 500000 (Sample.tradeSuccess "O3" "10.00") ].

End Day.

(** What the signature covers of a field: nothing of [sign] and
    [sign_type], nothing of a field that is missing or empty, the value
    otherwise. *)
Definition signedField (params : gmap string string) (k : string) : option string :=
  if String.eqb k "sign" || String.eqb k "sign_type" then None
  else match params !! k with
       | Some v => if String.eqb v "" then None else Some v
       | None => None
       end.

(** Ascending in the order of [xs.sort()]: each element is below all
    the later ones. *)
Inductive ascending : list string → Prop :=
| ascending_nil : ascending []
| ascending_cons x l :
    Forall (fun y => String.leb x y = true) l → ascending l → ascending (x :: l).

(** ** Settings ([getSetting], [setSetting] of lib/db/queries.ts and the
    settings actions of actions/admin.ts)

    [s.length] is [String.length s]: a string is its sequence of code
    units.  The table exists; the retry of [saveShopName] after creating
    a missing table is the same write. *)

Module Setting.
(** a row of [settings], without its primary key [key] *)
Record row := { value : option string; updatedAt : Z }.
End Setting.

(** [settings] by key *)
Abbreviation Settings := (gmap string Setting.row).

(** [result[0]?.value ?? null] of [SELECT value FROM settings WHERE key = k] *)
Definition getSetting (key : string) (settings : Settings) : option string :=
  settings !! key ≫= Setting.value.

(** [INSERT ... ON CONFLICT (key) DO UPDATE SET value, updated_at] *)
Definition setSetting (key value : string) (now : Z) (settings : Settings) : Settings :=
  <[key := {| Setting.value := Some value; Setting.updatedAt := now |}]> settings.

(** Number routines of the runtime that the settings actions call. *)
Record Numbers := {
  parseInt : string → option Z;         (* Number.parseInt(s, 10), if finite *)
  showInt : Z → string                  (* String(n) *)
}.

(** How a settings action ends. *)
Inductive saved : Type :=
| Saved (settings : Settings)
| Refused (message : string).           (* throw new Error(message) *)

Section SettingsActions.

Variable tx : Text.
Variable nums : Numbers.
Variable adminUsers : option string.
Variable user : option User.
Variable now : Z.

(** the common shape: [await checkAdmin()] and then the action *)
Definition asAdmin (act : saved) : saved :=
  if negb (checkAdmin tx adminUsers user) then Refused "Unauthorized" else act.

Definition saveShopName (rawName : string) (settings : Settings) : saved :=
  asAdmin
    (let name := trim tx rawName in
     if negb (JS.truthy (Some name)) then Refused "Shop name cannot be empty"
     else if (64 <? String.length name)%nat then Refused "Shop name is too long"
     else Saved (setSetting "shop_name" name now settings)).

Definition saveShopDescription (rawDesc : string) (settings : Settings) : saved :=
  asAdmin
    (let desc := trim tx rawDesc in
     if (200 <? String.length desc)%nat then Refused "Description is too long"
     else Saved (setSetting "shop_description" desc now settings)).

Definition saveShopLogo (logoUrl : string) (settings : Settings) : saved :=
  asAdmin
    (let url := trim tx logoUrl in
     if JS.truthy (Some url) && (500 <? String.length url)%nat
     then Refused "Logo URL is too long"
     else Saved (setSetting "shop_logo" url now settings)).

Definition saveShopFooter (footer : string) (settings : Settings) : saved :=
  asAdmin
    (let text := trim tx footer in
     if (500 <? String.length text)%nat then Refused "Footer text is too long"
     else Saved (setSetting "shop_footer" text now settings)).

(** [Number.isFinite(n) && n > 0 ? String(n) : fallback] for
    [n = Number.parseInt(String(raw || '').trim(), 10)] *)
Definition positiveOr (fallback raw : string) : string :=
  match parseInt nums (trim tx raw) with
  | Some n => if 0 <? n then showInt nums n else fallback
  | None => fallback
  end.

Definition saveLowStockThreshold (raw : string) (settings : Settings) : saved :=
  asAdmin (Saved (setSetting "low_stock_threshold" (positiveOr "5" raw) now settings)).

Definition saveCheckinReward (raw : string) (settings : Settings) : saved :=
  asAdmin (Saved (setSetting "checkin_reward" (positiveOr "10" raw) now settings)).

Definition saveCheckinEnabled (enabled : bool) (settings : Settings) : saved :=
  asAdmin (Saved (setSetting "checkin_enabled" (if enabled then "true" else "false")
                    now settings)).

Definition saveNoIndex (enabled : bool) (settings : Settings) : saved :=
  asAdmin (Saved (setSetting "noindex_enabled" (if enabled then "true" else "false")
                    now settings)).

Definition VALID_THEME_COLORS : list string :=
  ["purple"; "blue"; "cyan"; "green"; "orange"; "pink"; "red"].

Definition saveThemeColor (color : string) (settings : Settings) : saved :=
  asAdmin
    (if negb (existsb (String.eqb color) VALID_THEME_COLORS)
     then Refused "Invalid theme color"
     else Saved (setSetting "theme_color" color now settings)).

End SettingsActions.

(** The settings actions as data, for sequences of them; each call has
    its own user and clock reading. *)
Inductive settingOp : Type :=
| SaveShopName (raw : string)
| SaveShopDescription (raw : string)
| SaveShopLogo (raw : string)
| SaveShopFooter (raw : string)
| SaveLowStockThreshold (raw : string)
| SaveCheckinReward (raw : string)
| SaveCheckinEnabled (enabled : bool)
| SaveNoIndex (enabled : bool)
| SaveThemeColor (color : string).

Definition callSetting (tx : Text) (nums : Numbers) (adminUsers : option string)
    (user : option User) (now : Z) (o : settingOp) (settings : Settings) : saved :=
  match o with
  | SaveShopName raw => saveShopName tx adminUsers user now raw settings
  | SaveShopDescription raw => saveShopDescription tx adminUsers user now raw settings
  | SaveShopLogo raw => saveShopLogo tx adminUsers user now raw settings
  | SaveShopFooter raw => saveShopFooter tx adminUsers user now raw settings
  | SaveLowStockThreshold raw => saveLowStockThreshold tx nums adminUsers user now raw settings
  | SaveCheckinReward raw => saveCheckinReward tx nums adminUsers user now raw settings
  | SaveCheckinEnabled enabled => saveCheckinEnabled tx adminUsers user now enabled settings
  | SaveNoIndex enabled => saveNoIndex tx adminUsers user now enabled settings
  | SaveThemeColor color => saveThemeColor tx adminUsers user now color settings
  end.

(** the table after the call: a call that throws has written nothing *)
Definition runSetting (tx : Text) (nums : Numbers) (adminUsers : option string)
    (settings : Settings) (call : option User * Z * settingOp) : Settings :=
  let '(user, now, o) := call in
  match callSetting tx nums adminUsers user now o settings with
  | Saved settings' => settings'
  | Refused _ => settings
  end.

(** What the actions guarantee of the values they store. *)
Definition validSetting (nums : Numbers) (key value : string) : Prop :=
  (key = "shop_name" → value ≠ "" ∧ (String.length value ≤ 64)%nat)
  ∧ (key = "shop_description" → (String.length value ≤ 200)%nat)
  ∧ (key = "shop_logo" → (String.length value ≤ 500)%nat)
  ∧ (key = "shop_footer" → (String.length value ≤ 500)%nat)
  ∧ (key = "low_stock_threshold" →
     value = "5" ∨ ∃ n, 0 < n ∧ value = showInt nums n)
  ∧ (key = "checkin_reward" →
     value = "10" ∨ ∃ n, 0 < n ∧ value = showInt nums n)
  ∧ (key = "checkin_enabled" → value = "true" ∨ value = "false")
  ∧ (key = "noindex_enabled" → value = "true" ∨ value = "false")
  ∧ (key = "theme_color" → value ∈ VALID_THEME_COLORS).

(** * Properties *)

(** ** The digest and the amount comparison on known values *)

Example md5_empty : MD5.md5 "" = "d41d8cd98f00b204e9800998ecf8427e".
Proof. vm_compute. reflexivity. Qed.

Example md5_abc : MD5.md5 "abc" = "900150983cd24fb0d6963f7d28e17f72".
Proof. vm_compute. reflexivity. Qed.

Example md5_two_blocks :
  MD5.md5 "aaaaaaaaaaaaaaaaaaaaaaaaaaaaaaaaaaaaaaaaaaaaaaaaaaaaaaaaaaaaaaaaaaaaaa"
  = "0f5c6c4e740bfcc08c3c26ccb2673d46".
Proof. vm_compute. reflexivity. Qed.

Example sample_notification_is_signed :
  signatureOk Sample.host Sample.env (Sample.tradeSuccess "O1" "10.00") = true.
Proof. vm_compute. reflexivity. Qed.

Example one_cent_is_within_epsilon :
  amountMismatch Sample.host (Sample.tradeSuccess "O1" "10.01")
    (Sample.orderOf "O1" "pending" 0) = false.
Proof. vm_compute. reflexivity. Qed.

Example two_cents_is_a_mismatch :
  amountMismatch Sample.host (Sample.tradeSuccess "O1" "9.98")
    (Sample.orderOf "O1" "pending" 0) = true.
Proof. vm_compute. reflexivity. Qed.

(** A [money] field that is not a number reads as NaN, and no comparison
    with NaN holds. *)
Example not_a_number_is_no_mismatch :
  amountMismatch Sample.host (Sample.tradeSuccess "O1" "ten")
    (Sample.orderOf "O1" "pending" 0) = false.
Proof. vm_compute. reflexivity. Qed.

(** ** Generic facts about the SQL building blocks *)

Lemma update_where_nothing {A} (P : A → bool) (f : A → A) (rows : list A) :
  (∀ r, r ∈ rows → P r = false) → update_where P f rows = (rows, []).
Proof.
  unfold update_where. induction rows as [|r rows IH]; intros Hno; [done|].
  simpl. rewrite (Hno r) by left.
  assert (Hrest : ∀ r', r' ∈ rows → P r' = false) by (intros; apply Hno; by right).
  specialize (IH Hrest). by inversion IH as [[H1 H2]]; rewrite !H1, ?H2.
Qed.

Lemma find_nothing {A} (P : A → bool) (rows : list A) :
  (∀ r, r ∈ rows → P r = false) → List.find P rows = None.
Proof.
  induction rows as [|r rows IH]; intros Hno; [done|].
  simpl. rewrite (Hno r) by left. apply IH. intros; apply Hno; by right.
Qed.

Lemma update_first_nothing (P : Card.row → bool) f (rows : list Card.row) :
  (∀ r, r ∈ rows → P r = false) → update_first P f rows = (rows, []).
Proof. intros Hno. unfold update_first. by rewrite find_nothing. Qed.

Lemma find_update_where (i : string) (f : Order.row → Order.row) (os : list Order.row) :
  (∀ o, Order.orderId (f o) = Order.orderId o) →
  List.find (fun o => String.eqb (Order.orderId o) i)
    (fst (update_where (fun o => String.eqb (Order.orderId o) i) f os))
  = f <$> List.find (fun o => String.eqb (Order.orderId o) i) os.
Proof.
  intros Hid. unfold update_where. simpl.
  induction os as [|o os IH]; [done|]. simpl.
  destruct (String.eqb (Order.orderId o) i) eqn:E.
  - simpl. by rewrite Hid, E.
  - simpl. by rewrite E.
Qed.

Lemma findOrder_updated (i : string) (f : Order.row → Order.row) (db db' : DB)
    (order : Order.row) :
  (∀ o, Order.orderId (f o) = Order.orderId o) →
  findOrder (Some i) db = Some order →
  orders db' = fst (update_where (fun o => String.eqb (Order.orderId o) i) f (orders db)) →
  findOrder (Some i) db' = Some (f order).
Proof.
  intros Hid Hfind Hdb'. unfold findOrder in *.
  by rewrite Hdb', find_update_where, Hfind.
Qed.

(** Whatever the transaction claims, it leaves the order [delivered] or
    [paid], with the amount it had. *)
Lemma settle_found (oid : string) (tradeNo : option string) (order : Order.row)
    (now : Z) (db db' : DB) :
  findOrder (Some oid) db = Some order →
  settle oid tradeNo order now db = Some db' →
  ∃ o', findOrder (Some oid) db' = Some o'
        ∧ Order.amount o' = Order.amount order
        ∧ (Order.status o' = "paid" ∨ Order.status o' = "delivered").
Proof.
  intros Hfind. unfold settle.
  destruct (claimReserved oid now db) as [[cs1 k] s].
  destruct (if negb (JS.truthy k) then _ else _) as [[cs2 k2]|]; [|done].
  destruct (JS.truthy k2); intros [= <-].
  - exists (deliver now tradeNo k2 order). split; [|by auto].
    by apply (findOrder_updated oid (deliver now tradeNo k2) db).
  - exists (markPaid now tradeNo order). split; [|by auto].
    by apply (findOrder_updated oid (markPaid now tradeNo) db).
Qed.

(** On a schema without the reservation columns the transaction is
    rolled back; with them it commits. *)
Lemma settle_aborts (oid : string) (tradeNo : option string) (order : Order.row)
    (now : Z) (db : DB) :
  reservationCols db = false → settle oid tradeNo order now db = None.
Proof. intros Hcols. unfold settle, claimReserved, claimFallback. by rewrite Hcols. Qed.

Lemma settle_commits (oid : string) (tradeNo : option string) (order : Order.row)
    (now : Z) (db : DB) :
  reservationCols db = true → ∃ db', settle oid tradeNo order now db = Some db'.
Proof.
  intros Hcols. unfold settle, claimReserved, claimFallback. rewrite Hcols.
  destruct (update_where _ _ _) as [cs1 rows].
  destruct (negb (JS.truthy (firstCardKey rows))).
  - destruct (update_first _ _ _) as [cs2 rows2].
    destruct (JS.truthy (firstCardKey rows2)); eauto.
  - destruct (JS.truthy (firstCardKey rows)); eauto.
Qed.

Lemma wf_unreserved (db : DB) (c : Card.row) :
  wf db → reservationCols db = false → c ∈ cards db →
  Card.reserved_order_id c = None ∧ Card.reserved_at c = None.
Proof.
  intros Hwf Hcols Hin. specialize (Hwf Hcols).
  rewrite Forall_forall in Hwf. by apply Hwf.
Qed.

(** What a committed transaction has done: the cards are those after
    the first claim or, when that gave no key, after the fallback claim,
    and the order is updated with the key that was found, if any. *)
Lemma settle_committed (oid : string) (tradeNo : option string) (order : Order.row)
    (now : Z) (db db' : DB) :
  settle oid tradeNo order now db = Some db' →
  reservationCols db = true
  ∧ ∃ cs2 k,
      db' = with_orders (with_cards db cs2)
              (fst (update_where (fun o => String.eqb (Order.orderId o) oid)
                      (if JS.truthy k then deliver now tradeNo k else markPaid now tradeNo)
                      (orders db)))
      ∧ let first := update_where (held_by oid) (consume now) (cards db) in
        let second :=
          update_first (available now (Order.productId order)) (consume now) (fst first) in
        (JS.truthy (firstCardKey (snd first)) = true
         ∧ cs2 = fst first ∧ k = firstCardKey (snd first))
        ∨ (JS.truthy (firstCardKey (snd first)) = false
           ∧ cs2 = fst second ∧ k = firstCardKey (snd second)).
Proof.
  destruct (reservationCols db) eqn:Hcols; [|by rewrite settle_aborts].
  intros Hset. split; [done|]. unfold settle, claimReserved in Hset.
  rewrite Hcols in Hset.
  destruct (update_where (held_by oid) (consume now) (cards db)) as [cs1 rows].
  cbn [fst snd]. destruct (JS.truthy (firstCardKey rows)) eqn:Hk; cbn [negb] in Hset.
  - rewrite Hk in Hset. injection Hset as <-.
    exists cs1, (firstCardKey rows). rewrite Hk. split; [done | by left].
  - unfold claimFallback in Hset.
    destruct (update_first _ _ cs1) as [cs2 rows2].
    exists cs2, (firstCardKey rows2). cbn [fst snd].
    destruct (JS.truthy (firstCardKey rows2)); injection Hset as <-;
      (split; [done | by right]).
Qed.

(** With nothing to claim, the transaction only marks the order paid. *)
Lemma settle_without_stock (oid : string) (tradeNo : option string)
    (order : Order.row) (now : Z) (db : DB) :
  reservationCols db = true →
  (∀ c, c ∈ cards db → held_by oid c = false) →
  (∀ c, c ∈ cards db → available now (Order.productId order) c = false) →
  settle oid tradeNo order now db
  = Some (with_orders db
            (fst (update_where (fun o => String.eqb (Order.orderId o) oid)
                    (markPaid now tradeNo) (orders db)))).
Proof.
  intros Hcols Hheld Havail. unfold settle, claimReserved. rewrite Hcols.
  rewrite (update_where_nothing _ _ _ Hheld). simpl.
  unfold claimFallback. rewrite (update_first_nothing _ _ _ Havail). simpl.
  reflexivity.
Qed.

(** ** Settlement gates *)

Section Settlement.

Variable h : Host.
Variable env : Env.
Variable now : Z.

(** Past the four gates, an order that is neither [pending] nor
    [cancelled] is acknowledged and nothing is written. *)
Lemma processNotify_not_eligible
    (params : gmap string string) (db : DB) (oid : string) (order : Order.row) :
  signatureOk h env params = true →
  params !! "trade_status" = Some "TRADE_SUCCESS" →
  params !! "out_trade_no" = Some oid →
  findOrder (Some oid) db = Some order →
  amountMismatch h params order = false →
  Order.status order ≠ "pending" →
  Order.status order ≠ "cancelled" →
  processNotify h env now params db = (Answered Response.success, db).
Proof.
  intros Hsig Hts Hoid Hfind Hamt Hp Hc.
  unfold processNotify. rewrite Hsig, Hts, Hoid, Hfind, Hamt. simpl.
  apply String.eqb_neq in Hp, Hc. by rewrite Hp, Hc.
Qed.

(** C1.  A notification that passes the signature, outcome, lookup and
    amount gates for an order that is already [paid] or [delivered] is
    acknowledged with [success] and leaves the whole database as it
    was; and whenever such a notification changes the database, the
    order was [pending] or [cancelled]. *)
Theorem processNotify_replay_is_noop
    (params : gmap string string) (db : DB) (oid : string) (order : Order.row) :
  signatureOk h env params = true →
  params !! "trade_status" = Some "TRADE_SUCCESS" →
  params !! "out_trade_no" = Some oid →
  findOrder (Some oid) db = Some order →
  amountMismatch h params order = false →
  (Order.status order = "paid" ∨ Order.status order = "delivered" →
     processNotify h env now params db = (Answered Response.success, db))
  ∧ (snd (processNotify h env now params db) ≠ db →
     Order.status order = "pending" ∨ Order.status order = "cancelled").
Proof.
  intros Hsig Hts Hoid Hfind Hamt.
  split.
  - intros Hst. apply (processNotify_not_eligible params db oid order); try done.
    + by destruct Hst as [-> | ->].
    + by destruct Hst as [-> | ->].
  - intros Hchanged.
    destruct (decide (Order.status order = "pending")) as [Hp|Hp]; [by left|].
    destruct (decide (Order.status order = "cancelled")) as [Hc|Hc]; [by right|].
    exfalso. apply Hchanged.
    by rewrite (processNotify_not_eligible params db oid order).
Qed.

(** C2 (as the code has it).  A signed [TRADE_SUCCESS] notification
    whose [out_trade_no] matches no order changes nothing and is
    answered with the [success] acknowledgment. *)
Theorem processNotify_unknown_order_acknowledged
    (params : gmap string string) (db : DB) :
  signatureOk h env params = true →
  params !! "trade_status" = Some "TRADE_SUCCESS" →
  findOrder (params !! "out_trade_no") db = None →
  processNotify h env now params db = (Answered Response.success, db).
Proof.
  intros Hsig Hts Hfind.
  unfold processNotify. rewrite Hsig, Hts.
  destruct (params !! "out_trade_no") as [oid|]; [rewrite Hfind|]; reflexivity.
Qed.

(** C3.  A signed [TRADE_SUCCESS] notification for an existing order
    whose amount is further than epsilon from the order's amount is
    answered with [fail], status 400, and the database is unchanged. *)
Theorem processNotify_amount_mismatch_rejected
    (params : gmap string string) (db : DB) (oid : string) (order : Order.row) :
  signatureOk h env params = true →
  params !! "trade_status" = Some "TRADE_SUCCESS" →
  params !! "out_trade_no" = Some oid →
  findOrder (Some oid) db = Some order →
  amountMismatch h params order = true →
  processNotify h env now params db = (Answered Response.fail, db)
  ∧ ∃ response, fst (processNotify h env now params db) = Answered response
                ∧ 400 ≤ Response.status response < 500.
Proof.
  intros Hsig Hts Hoid Hfind Hamt.
  unfold processNotify. rewrite Hsig, Hts, Hoid, Hfind, Hamt. simpl.
  split; [reflexivity|]. exists Response.fail. split; [reflexivity | simpl; lia].
Qed.

(** What the gates leave to the transaction: a signed [TRADE_SUCCESS]
    notification for a [pending] or [cancelled] order whose amount
    passes runs [settle]; it is acknowledged when the transaction
    commits. *)
Lemma processNotify_settles
    (params : gmap string string) (db : DB) (oid : string) (order : Order.row) :
  signatureOk h env params = true →
  params !! "trade_status" = Some "TRADE_SUCCESS" →
  params !! "out_trade_no" = Some oid →
  findOrder (Some oid) db = Some order →
  amountMismatch h params order = false →
  Order.status order = "pending" ∨ Order.status order = "cancelled" →
  processNotify h env now params db
  = match settle oid (params !! "trade_no") order now db with
    | Some db' => (Answered Response.success, db')
    | None => (Threw, db)
    end.
Proof.
  intros Hsig Hts Hoid Hfind Hamt Hst.
  unfold processNotify. rewrite Hsig, Hts, Hoid, Hfind, Hamt.
  by destruct Hst as [-> | ->].
Qed.

(** C9.  An eligible order passes every gate, holds no unconsumed card
    and finds no available card of its product, on a [cards] table that
    has the reservation columns: the order becomes
    [paid], with [paidAt] the time of the call and [tradeNo] the
    gateway's reference, it is not marked delivered, no card changes,
    and the gateway gets the [success] acknowledgment. *)
Theorem processNotify_paid_without_stock
    (params : gmap string string) (db : DB) (oid t : string) (order : Order.row) :
  signatureOk h env params = true →
  params !! "trade_status" = Some "TRADE_SUCCESS" →
  params !! "out_trade_no" = Some oid →
  params !! "trade_no" = Some t →
  findOrder (Some oid) db = Some order →
  amountMismatch h params order = false →
  Order.status order = "pending" ∨ Order.status order = "cancelled" →
  reservationCols db = true →
  (∀ c, c ∈ cards db → held_by oid c = false) →
  (∀ c, c ∈ cards db → available now (Order.productId order) c = false) →
  let r := processNotify h env now params db in
  fst r = Answered Response.success
  ∧ cards (snd r) = cards db
  ∧ ∃ o', findOrder (Some oid) (snd r) = Some o'
          ∧ Order.status o' = "paid"
          ∧ Order.paidAt o' = Some now
          ∧ Order.tradeNo o' = Some t
          ∧ Order.deliveredAt o' = Order.deliveredAt order
          ∧ Order.cardKey o' = Order.cardKey order.
Proof.
  intros Hsig Hts Hoid Htn Hfind Hamt Hst Hcols Hheld Havail r. subst r.
  rewrite (processNotify_settles params db oid order) by done.
  rewrite settle_without_stock by done. rewrite Htn.
  split; [reflexivity|]. split; [reflexivity|].
  exists (markPaid now (Some t) order). split; [|done].
  by apply (findOrder_updated oid (markPaid now (Some t)) db).
Qed.

(** C4 (as the code has it).  The order is still [pending], the unit it
    held is now held, with a live hold, by another order, it holds no
    card itself and no other card of the product is available: the
    notification is acknowledged with [success], the order becomes
    [paid] and every card, the reassigned unit included, is left as it
    was. *)
Theorem processNotify_reassigned_unit_marks_paid
    (params : gmap string string) (db : DB) (oid other : string)
    (order : Order.row) (unit : Card.row) :
  signatureOk h env params = true →
  params !! "trade_status" = Some "TRADE_SUCCESS" →
  params !! "out_trade_no" = Some oid →
  findOrder (Some oid) db = Some order →
  amountMismatch h params order = false →
  Order.status order = "pending" →
  wf db →
  unit ∈ cards db →
  Card.product_id unit = Order.productId order →
  unused unit = true →
  Card.reserved_order_id unit = Some other →
  other ≠ oid →
  hold_lapsed now unit = false →
  (∀ c, c ∈ cards db → c ≠ unit → held_by oid c = false) →
  (∀ c, c ∈ cards db → c ≠ unit → available now (Order.productId order) c = false) →
  let r := processNotify h env now params db in
  fst r = Answered Response.success
  ∧ cards (snd r) = cards db
  ∧ ∃ o', findOrder (Some oid) (snd r) = Some o' ∧ Order.status o' = "paid".
Proof.
  intros Hsig Hts Hoid Hfind Hamt Hst Hwf Hin Hprod Hun Hres Hne Hlive Hheld Havail r.
  subst r.
  assert (Hheld' : ∀ c, c ∈ cards db → held_by oid c = false).
  { intros c Hc. destruct (decide (c = unit)) as [->|Hcu]; [|by apply Hheld].
    unfold held_by, opt_eqb. rewrite Hres.
    destruct (String.eqb_spec other oid); [done|reflexivity]. }
  assert (Havail' : ∀ c, c ∈ cards db → available now (Order.productId order) c = false).
  { intros c Hc. destruct (decide (c = unit)) as [->|Hcu]; [|by apply Havail].
    unfold available. rewrite Hlive. apply andb_false_r. }
  assert (Hcols : reservationCols db = true).
  { destruct (reservationCols db) eqn:Hcols; [done|].
    destruct (wf_unreserved db unit Hwf Hcols Hin) as [Hnone _]. congruence. }
  rewrite (processNotify_settles params db oid order) by auto.
  rewrite settle_without_stock by done.
  split; [reflexivity|]. split; [reflexivity|].
  exists (markPaid now (params !! "trade_no") order). split; [|done].
  by apply (findOrder_updated oid (markPaid now (params !! "trade_no")) db).
Qed.

(** X1.  Replay in general: the same notification processed a second time,
    at any later clock reading, gets the same answer as the first time
    and writes nothing. *)
Corollary processNotify_idempotent (later : Z) (params : gmap string string) (db : DB) :
  let r := processNotify h env now params db in
  processNotify h env later params (snd r) = r.
Proof.
  simpl.
  (* a call that stops at a gate does the same at any clock reading *)
  assert (Hgate : (∀ t, processNotify h env t params db
                        = processNotify h env now params db)
                  → snd (processNotify h env now params db) = db
                  → processNotify h env later params
                      (snd (processNotify h env now params db))
                    = processNotify h env now params db).
  { intros Hsame Hdb. rewrite Hdb. apply Hsame. }
  destruct (signatureOk h env params) eqn:Hsig;
    [|by apply Hgate; [intros t|]; unfold processNotify; rewrite Hsig].
  destruct (opt_eqb (params !! "trade_status") "TRADE_SUCCESS") eqn:Hts;
    [|by apply Hgate; [intros t|]; unfold processNotify; rewrite Hsig, Hts].
  destruct (params !! "out_trade_no") as [oid|] eqn:Hoid;
    [|by apply Hgate; [intros t|]; unfold processNotify; rewrite Hsig, Hts, Hoid].
  destruct (findOrder (Some oid) db) as [order|] eqn:Hfind;
    [|by apply Hgate; [intros t|]; unfold processNotify;
         rewrite Hsig, Hts, Hoid, Hfind].
  destruct (amountMismatch h params order) eqn:Hamt;
    [by apply Hgate; [intros t|]; unfold processNotify;
        rewrite Hsig, Hts, Hoid, Hfind, Hamt|].
  destruct (String.eqb (Order.status order) "pending"
            || String.eqb (Order.status order) "cancelled") eqn:Hst;
    [|by apply Hgate; [intros t|]; unfold processNotify;
         rewrite Hsig, Hts, Hoid, Hfind, Hamt, Hst].
  destruct (reservationCols db) eqn:Hcols;
    [|by apply Hgate; [intros t|]; unfold processNotify;
         rewrite Hsig, Hts, Hoid, Hfind, Hamt, Hst, !settle_aborts].
  clear Hgate.
  destruct (settle_commits oid (params !! "trade_no") order now db Hcols)
    as [db' Hcommit].
  assert (Hfirst : processNotify h env now params db = (Answered Response.success, db')).
  { unfold processNotify. by rewrite Hsig, Hts, Hoid, Hfind, Hamt, Hst, Hcommit. }
  rewrite Hfirst. simpl.
  destruct (settle_found oid (params !! "trade_no") order now db db' Hfind Hcommit)
    as (o' & Hfind' & Hamount & Hst').
  unfold processNotify. rewrite Hsig, Hts, Hoid, Hfind'.
  unfold amountMismatch in *. rewrite Hamount, Hamt.
  by destruct Hst' as [-> | ->].
Qed.

End Settlement.

(** ** Expiry reaper *)

Lemma Forall2_map_pointwise {A} (R : A → A → Prop) (g : A → A) (l : list A) :
  (∀ x, x ∈ l → R x (g x)) → Forall2 R l (List.map g l).
Proof.
  induction l as [|x l IH]; intros H; simpl; constructor.
  - apply H. by left.
  - apply IH. intros y Hy. apply H. by right.
Qed.

Lemma opt_eqb_eq (o : option string) (s : string) : opt_eqb o s = true ↔ o = Some s.
Proof.
  destruct o as [x|]; simpl; [|done].
  rewrite String.eqb_eq. split; congruence.
Qed.

Lemma narrow_spec (x : option string) (col : string) :
  narrow x col = true ↔ ∀ v, x = Some v → col = v.
Proof.
  destruct x as [v|]; simpl; [|done].
  rewrite String.eqb_eq. split; [congruence | eauto].
Qed.

Lemma narrow_null_spec (x col : option string) :
  narrow_null x col = true ↔ ∀ v, x = Some v → col = Some v.
Proof.
  destruct x as [v|]; simpl; [|done].
  rewrite opt_eqb_eq. split; [congruence | eauto].
Qed.

(** The [WHERE] clause of the reaper says what [stale] says. *)
Lemma expired_spec (f : filters) (now : Z) (o : Order.row) :
  expired f (now - PENDING_TTL) o = true ↔ stale f now o.
Proof.
  unfold expired, stale, PENDING_TTL.
  rewrite !andb_true_iff, String.eqb_eq, Z.ltb_lt, !narrow_spec, narrow_null_spec.
  intuition lia.
Qed.

Lemma releaseHold_map (cs : list Card.row) (o : string) :
  releaseHold cs o = List.map (fun c => if held_by o c then release c else c) cs.
Proof. reflexivity. Qed.

(** One pass of the release loop over [ids] frees exactly the cards that
    are unconsumed and point at one of [ids]. *)
Lemma releaseHolds_map (ids : list string) (cs : list Card.row) :
  releaseHolds ids cs
  = List.map (fun c => if unused c && existsb (opt_eqb (Card.reserved_order_id c)) ids
                       then release c else c) cs.
Proof.
  unfold releaseHolds. revert cs.
  induction ids as [|o ids IH]; intros cs; simpl.
  - rewrite <- (List.map_id cs) at 1. apply List.map_ext. intros c.
    by rewrite andb_false_r.
  - rewrite IH, releaseHold_map, List.map_map. apply List.map_ext. intros c.
    unfold held_by. destruct (unused c) eqn:Hu; simpl.
    + destruct (opt_eqb (Card.reserved_order_id c) o) eqn:Ho; simpl.
      * unfold unused in *. simpl. rewrite Hu. simpl.
        by destruct (existsb _ ids).
      * by rewrite Hu.
    + rewrite andb_false_r. by rewrite Hu.
Qed.

Lemma held_by_any_spec (ids : list string) (c : Card.row) :
  unused c && existsb (opt_eqb (Card.reserved_order_id c)) ids = true ↔ held_by_any ids c.
Proof.
  unfold held_by_any. rewrite andb_true_iff, existsb_exists.
  split.
  - intros [Hu (i & Hi & He)]. split; [done|]. exists i.
    split; [by apply list_elem_of_In | by apply opt_eqb_eq].
  - intros [Hu (i & Hi & He)]. split; [done|]. exists i.
    split; [by apply list_elem_of_In | by apply opt_eqb_eq].
Qed.

Lemma cancelExpiredOrders_orders (f : filters) (now : Z) (db : DB) :
  orders (snd (cancelExpiredOrders f now db))
  = List.map (fun o => if expired f (now - PENDING_TTL) o
                       then set_status "cancelled" o else o) (orders db).
Proof.
  unfold cancelExpiredOrders, update_where.
  by destruct (List.filter _ (List.map Order.orderId _)).
Qed.

Lemma cancelExpiredOrders_ids (f : filters) (now : Z) (db : DB) :
  fst (cancelExpiredOrders f now db)
  = List.filter (fun i => JS.truthy (Some i))
      (List.map Order.orderId (List.filter (expired f (now - PENDING_TTL)) (orders db))).
Proof.
  unfold cancelExpiredOrders, update_where.
  rewrite List.map_map. simpl.
  by destruct (List.filter _ (List.map _ _)).
Qed.

Lemma cancelExpiredOrders_cards (f : filters) (now : Z) (db : DB) :
  cards (snd (cancelExpiredOrders f now db))
  = releaseHolds (fst (cancelExpiredOrders f now db)) (cards db).
Proof.
  unfold cancelExpiredOrders, update_where.
  by destruct (List.filter _ (List.map Order.orderId _)).
Qed.

Lemma cancelExpiredOrders_products (f : filters) (now : Z) (db : DB) :
  products (snd (cancelExpiredOrders f now db)) = products db.
Proof.
  unfold cancelExpiredOrders, update_where.
  by destruct (List.filter _ (List.map Order.orderId _)).
Qed.

(** The two editions of the reaper are the same function of the clock
    reading and the database. *)
Lemma cancelExpiredOrders_workers_same (f : filters) (now : Z) (db : DB) :
  cancelExpiredOrders_workers f now db = cancelExpiredOrders f now db.
Proof.
  unfold cancelExpiredOrders_workers, cancelExpiredOrders, PENDING_TTL.
  destruct (update_where _ _ _) as [os rows].
  by destruct (List.filter _ (List.map Order.orderId rows)).
Qed.

Lemma filter_truthy_nonempty (l : list string) :
  (∀ i, i ∈ l → i ≠ "") → List.filter (fun i => JS.truthy (Some i)) l = l.
Proof.
  induction l as [|i l IH]; intros H; [done|]. simpl.
  destruct (String.eqb_spec i "") as [->|_].
  - exfalso. by apply (H ""); [left|].
  - simpl. f_equal. apply IH. intros j Hj. apply H. by right.
Qed.

(** C7.  On a table whose order ids are not empty, the reaper (either
    edition) sets exactly the stale orders to [cancelled], changing
    nothing else of them, and leaves every other order as it was,
    returns exactly the ids of the stale orders, and clears the hold
    (holder and hold time) of exactly the cards that are unconsumed and
    point at one of those ids; a card it clears keeps everything but its
    hold. *)
Theorem cancelExpiredOrders_exact (f : filters) (now : Z) (db : DB) :
  (∀ o, o ∈ orders db → Order.orderId o ≠ "") →
  let r := cancelExpiredOrders f now db in
  cancelExpiredOrders_workers f now db = r
  ∧ Forall2 (fun o o' => (stale f now o →
                            o' = set_status "cancelled" o
                            ∧ Order.status o' = "cancelled"
                            ∧ Order.orderId o' = Order.orderId o
                            ∧ Order.productId o' = Order.productId o
                            ∧ Order.productName o' = Order.productName o
                            ∧ Order.amount o' = Order.amount o
                            ∧ Order.email o' = Order.email o
                            ∧ Order.tradeNo o' = Order.tradeNo o
                            ∧ Order.cardKey o' = Order.cardKey o
                            ∧ Order.paidAt o' = Order.paidAt o
                            ∧ Order.deliveredAt o' = Order.deliveredAt o
                            ∧ Order.userId o' = Order.userId o
                            ∧ Order.username o' = Order.username o
                            ∧ Order.created_at o' = Order.created_at o)
                         ∧ (¬ stale f now o → o' = o))
      (orders db) (orders (snd r))
  ∧ (∀ i, i ∈ fst r ↔ ∃ o, o ∈ orders db ∧ stale f now o ∧ Order.orderId o = i)
  ∧ Forall2 (fun c c' => (held_by_any (fst r) c →
                            c' = release c
                            ∧ Card.reserved_order_id c' = None
                            ∧ Card.reserved_at c' = None
                            ∧ Card.id c' = Card.id c
                            ∧ Card.product_id c' = Card.product_id c
                            ∧ Card.card_key c' = Card.card_key c
                            ∧ Card.is_used c' = Card.is_used c
                            ∧ Card.used_at c' = Card.used_at c)
                         ∧ (¬ held_by_any (fst r) c → c' = c))
      (cards db) (cards (snd r))
  ∧ (∀ c, Card.reserved_order_id (release c) = None
          ∧ Card.reserved_at (release c) = None
          ∧ Card.is_used (release c) = Card.is_used c
          ∧ Card.card_key (release c) = Card.card_key c)
  ∧ products (snd r) = products db.
Proof.
  intros Hids r. subst r.
  split; [apply cancelExpiredOrders_workers_same|].
  split; [|split; [|split; [|split]]].
  - rewrite cancelExpiredOrders_orders. apply Forall2_map_pointwise.
    intros o _. destruct (expired f (now - PENDING_TTL) o) eqn:E.
    + apply expired_spec in E. split; [|done]. intros _. simpl. auto 20.
    + split; [|done]. intros Hs. apply expired_spec in Hs. congruence.
  - intros i. rewrite cancelExpiredOrders_ids.
    rewrite filter_truthy_nonempty.
    + rewrite list_elem_of_In, List.in_map_iff. split.
      * intros (o & <- & Ho). apply List.filter_In in Ho as [Hin He].
        exists o. rewrite list_elem_of_In. by rewrite <- expired_spec.
      * intros (o & Hin & Hs & <-). exists o. split; [done|].
        apply List.filter_In. rewrite <- list_elem_of_In. by rewrite expired_spec.
    + intros j Hj. apply list_elem_of_In, List.in_map_iff in Hj as (o & <- & Ho).
      apply List.filter_In in Ho as [Hin _]. by apply Hids, list_elem_of_In.
  - rewrite cancelExpiredOrders_cards, releaseHolds_map.
    apply Forall2_map_pointwise. intros c _.
    destruct (unused c && existsb _ _) eqn:E.
    + apply held_by_any_spec in E. split; [|done]. intros _. simpl. auto 20.
    + split; [|done]. intros Hh. apply held_by_any_spec in Hh. congruence.
  - done.
  - apply cancelExpiredOrders_products.
Qed.

(** ** Checkout *)

Lemma filter_map_length {A} (Q : A → bool) (g : A → A) (l : list A) :
  (∀ x, Q (g x) = Q x) →
  length (List.filter Q (List.map g l)) = length (List.filter Q l).
Proof.
  intros H. induction l as [|x l IH]; [done|]. simpl.
  rewrite H. destruct (Q x); simpl; by rewrite IH.
Qed.

(** The reaper turns [pending] into [cancelled]; neither counts towards
    the purchase limit. *)
Lemma countPurchases_after_reaper (productId : string) (uid em : option string)
    (f : filters) (now : Z) (db : DB) :
  countPurchases productId uid em (snd (cancelExpiredOrders f now db))
  = countPurchases productId uid em db.
Proof.
  unfold countPurchases. rewrite cancelExpiredOrders_orders.
  f_equal. apply filter_map_length. intros o.
  destruct (expired f (now - PENDING_TTL) o) eqn:E; [|done].
  unfold expired in E. rewrite !andb_true_iff in E.
  destruct E as [[[[Hp _] _] _] _]. apply String.eqb_eq in Hp.
  unfold settled. simpl. rewrite Hp. simpl. by rewrite !andb_false_r.
Qed.

Lemma available_backfill (now : Z) (p : string) (c : Card.row) :
  available now p (backfill_used c) = available now p c.
Proof.
  unfold available, backfill_used, unused, hold_lapsed.
  destruct (Card.is_used c) eqn:E; simpl; by rewrite ?E.
Qed.

(** The stock check never fails in the model, counts the available cards
    of the product, and touches no order. *)
Lemma checkStock_counts (now : Z) (productId : string) (db : DB) :
  ∃ db', checkStock now productId db
         = inl (Z.of_nat (length (List.filter (available now productId) (cards db))), db')
         ∧ orders db' = orders db.
Proof.
  unfold checkStock, getAvailableStock.
  set (n := Z.of_nat (length (List.filter (available now productId) (cards db)))).
  assert (Hfix : ∀ db2 : DB, cards db2 = cards db → orders db2 = orders db →
            reservationCols db2 = true →
            ∃ db',
              (if n <=? 0
               then if countNullUsed productId db2 >? 0
                    then match (if reservationCols (ensureCardsIsUsedDefaults db2)
                                then Done (Z.of_nat (length (List.filter (available now productId)
                                             (cards (ensureCardsIsUsedDefaults db2)))))
                                else UndefinedColumn) with
                         | Done m => inl (m, ensureCardsIsUsedDefaults db2)
                         | UndefinedColumn => inl (n, ensureCardsIsUsedDefaults db2)
                         end
                    else inl (n, db2)
               else inl (n, db2)) = (inl (n, db') : (Z * DB) + DB)
              ∧ orders db' = orders db).
  { intros db2 Hc Ho Hr.
    destruct (n <=? 0); [|by exists db2].
    destruct (countNullUsed productId db2 >? 0); [|by exists db2].
    exists (ensureCardsIsUsedDefaults db2). simpl. rewrite Hr. split; [|done].
    rewrite filter_map_length by apply available_backfill. by rewrite Hc. }
  destruct (reservationCols db) eqn:Hr; simpl.
  - apply (Hfix db); done.
  - apply (Hfix (ensureCardsReservationColumns db)); done.
Qed.

Lemma limitExceeded_orders (productId : string) (product : Product.row)
    (user : option User) (email : option string) (db db' : DB) :
  (∀ uid em, countPurchases productId uid em db' = countPurchases productId uid em db) →
  limitExceeded productId product user email db'
  = limitExceeded productId product user email db.
Proof. intros H. unfold limitExceeded. by rewrite H. Qed.

Section Checkout.

Variable h : Host.
Variable env : Env.

(** The true half of C5: an unknown product id is refused and nothing
    is written. *)
Lemma createOrder_unknown_product (user : option User) (orderId : string) (now : Z)
    (productId : string) (email : option string) (db : DB) :
  List.find (fun p => String.eqb (Product.id p) productId) (products db) = None →
  createOrder h env user orderId now productId email db
  = (Failure "buy.productNotFound", db).
Proof. intros H. unfold createOrder. by rewrite H. Qed.

(** The order of the gates: stock first, then the purchase limit. *)
Lemma createOrder_gates (user : option User) (orderId : string) (now : Z)
    (productId : string) (email : option string) (db : DB) (product : Product.row) :
  List.find (fun p => String.eqb (Product.id p) productId) (products db) = Some product →
  let reaped :=
    snd (cancelExpiredOrders
           {| f_productId := Some productId; f_userId := None; f_orderId := None |}
           now db) in
  let stock := length (List.filter (available now productId) (cards reaped)) in
  let r := createOrder h env user orderId now productId email db in
  (stock = 0%nat → fst r = Failure "buy.outOfStock")
  ∧ (stock ≠ 0%nat → limitExceeded productId product user email db = true →
     fst r = Failure "buy.limitExceeded")
  ∧ (limitExceeded productId product user email db = false →
     fst r ≠ Failure "buy.limitExceeded").
Proof.
  intros Hfind reaped stock r. subst r. unfold createOrder. rewrite Hfind.
  fold reaped.
  destruct (checkStock_counts now productId reaped) as (db3 & -> & Hord).
  fold stock.
  assert (Hlim : limitExceeded productId product user email db3
                 = limitExceeded productId product user email db).
  { apply limitExceeded_orders. intros uid em.
    transitivity (countPurchases productId uid em reaped).
    - unfold countPurchases. by rewrite Hord.
    - apply countPurchases_after_reaper. }
  rewrite Hlim.
  destruct (Z.leb_spec (Z.of_nat stock) 0) as [Hz|Hz].
  - split; [done|]. split; [intros; lia | done].
  - split; [intros; lia|]. split.
    + by intros _ ->.
    + intros ->.
      destruct (payDescriptor h env orderId product) as [url ps].
      repeat case_match; simpl; discriminate.
Qed.

(** C6 (as the code has it).  The product has the limit [L > 0] and the
    buyer is identified by a user id or an email; [n] is the number of
    the buyer's [paid] or [delivered] orders for the product.  With
    [n >= L] the call fails with [buy.limitExceeded] provided a card of
    the product is available once the reaper has run, and with
    [buy.outOfStock] otherwise; with [n < L] the call never fails with
    [buy.limitExceeded]. *)
Theorem createOrder_purchase_limit (user : option User) (orderId : string) (now : Z)
    (productId : string) (email : option string) (db : DB)
    (product : Product.row) (L : Z) :
  List.find (fun p => String.eqb (Product.id p) productId) (products db) = Some product →
  Product.purchaseLimit product = Some L →
  0 < L →
  let uid := user ≫= user_id in
  let em := JS.or_else email (user ≫= user_email) in
  JS.truthy uid || JS.truthy em = true →
  let n := countPurchases productId uid em db in
  let reaped :=
    snd (cancelExpiredOrders
           {| f_productId := Some productId; f_userId := None; f_orderId := None |}
           now db) in
  let r := createOrder h env user orderId now productId email db in
  (L ≤ n → (∃ c, c ∈ cards reaped ∧ available now productId c = true) →
     fst r = Failure "buy.limitExceeded")
  ∧ (L ≤ n → (∀ c, c ∈ cards reaped → available now productId c = false) →
     fst r = Failure "buy.outOfStock")
  ∧ (n < L → fst r ≠ Failure "buy.limitExceeded").
Proof.
  intros Hfind HL Hpos uid em Hbuyer n reaped r.
  destruct (createOrder_gates user orderId now productId email db product Hfind)
    as (Hout & Hlim & Hnot).
  fold reaped in Hout, Hlim. fold r in Hout, Hlim, Hnot.
  assert (Hex : limitExceeded productId product user email db = (n >=? L)).
  { unfold limitExceeded. rewrite HL. fold uid em. rewrite Hbuyer.
    replace (negb (L =? 0) && (L >? 0)) with true; [done|].
    symmetry. apply andb_true_iff. split; [apply negb_true_iff|]; lia. }
  split; [|split].
  - intros Hn (c & Hc & Hav). apply Hlim.
    + intros Hz. apply List.length_zero_iff_nil in Hz.
      assert (Hin : In c (List.filter (available now productId) (cards reaped))).
      { apply List.filter_In. by rewrite <- list_elem_of_In. }
      rewrite Hz in Hin. destruct Hin.
    + rewrite Hex. lia.
  - intros _ Hnone. apply Hout.
    destruct (List.filter (available now productId) (cards reaped)) as [|c l] eqn:E; [done|].
    assert (Hin : In c (List.filter (available now productId) (cards reaped)))
      by (rewrite E; by left).
    apply List.filter_In in Hin as [Hin Hav].
    rewrite Hnone in Hav by (by apply list_elem_of_In). discriminate.
  - intros Hn. apply Hnot. rewrite Hex. lia.
Qed.

(** C10.  With no session user and no email the purchase-limit check is
    skipped: whatever the product's limit and however many [paid] or
    [delivered] orders exist, the call never fails with
    [buy.limitExceeded]. *)
Theorem createOrder_anonymous_skips_limit (orderId : string) (now : Z)
    (productId : string) (db : DB) :
  fst (createOrder h env None orderId now productId None db)
  ≠ Failure "buy.limitExceeded"
  ∧ ∀ product, limitExceeded productId product None None db = false.
Proof.
  assert (Hanon : ∀ product, limitExceeded productId product None None db = false).
  { intros product. unfold limitExceeded.
    destruct (Product.purchaseLimit product) as [L|]; [|done].
    by destruct (negb (L =? 0) && (L >? 0)). }
  split; [|done].
  destruct (List.find (fun p => String.eqb (Product.id p) productId) (products db))
    as [product|] eqn:Hfind.
  - by apply (createOrder_gates None orderId now productId None db product Hfind).
  - by rewrite createOrder_unknown_product.
Qed.

End Checkout.

(** ** Consumed units *)

Lemma card_step_refl (cs : list Card.row) : card_step cs cs.
Proof.
  split; [done|]. unfold keeps_consumed.
  induction cs; constructor; auto.
Qed.

Lemma card_step_trans (cs1 cs2 cs3 : list Card.row) :
  card_step cs1 cs2 → card_step cs2 cs3 → card_step cs1 cs3.
Proof.
  intros [Hid12 H12] [Hid23 H23]. split; [congruence|].
  unfold keeps_consumed in *. clear Hid12 Hid23.
  revert cs3 H23. induction H12 as [|c1 c2 l1 l2 Hc _ IH]; intros cs3 H23.
  - by inversion H23.
  - inversion H23 as [|? c3 ? l3 Hc' Hl]; subst. constructor; [|by apply IH].
    intros Hused. specialize (Hc Hused). subst c2. by apply Hc'.
Qed.

Lemma card_step_map (g : Card.row → Card.row) (cs : list Card.row) :
  (∀ c, Card.id (g c) = Card.id c) →
  (∀ c, c ∈ cs → consumed c → g c = c) →
  card_step cs (List.map g cs).
Proof.
  intros Hid Hkeep. split.
  - rewrite List.map_map. by apply List.map_ext.
  - by apply Forall2_map_pointwise.
Qed.

Lemma consumed_not_unused (c : Card.row) : consumed c → unused c = false.
Proof. unfold consumed, unused. by intros ->. Qed.

(** An update whose [WHERE] clause implies [COALESCE(is_used, false) =
    false]. *)
Lemma update_where_step (P : Card.row → bool) (f : Card.row → Card.row)
    (cs : list Card.row) :
  (∀ c, Card.id (f c) = Card.id c) →
  (∀ c, P c = true → unused c = true) →
  card_step cs (fst (update_where P f cs)).
Proof.
  intros Hid HP. unfold update_where. simpl. apply card_step_map.
  - intros c. by destruct (P c).
  - intros c _ Hc. destruct (P c) eqn:E; [|done].
    apply HP in E. apply consumed_not_unused in Hc. congruence.
Qed.

Lemma nodup_id_inj (cs : list Card.row) (c c0 : Card.row) :
  NoDup (List.map Card.id cs) → c ∈ cs → c0 ∈ cs → Card.id c = Card.id c0 → c = c0.
Proof.
  induction cs as [|x cs IH]; simpl; [by intros _ H; inversion H|].
  rewrite NoDup_cons. intros [Hx Hnd]. rewrite !elem_of_cons.
  intros [->|Hc] [->|Hc0] Heq; auto.
  - exfalso. apply Hx. rewrite Heq. by apply (list_elem_of_fmap_2 Card.id).
  - exfalso. apply Hx. rewrite <- Heq. by apply (list_elem_of_fmap_2 Card.id).
Qed.

(** An update keyed on the id of the first row that satisfies a clause
    implying [COALESCE(is_used, false) = false]: [id] is the primary
    key, so the row updated is the row selected. *)
Lemma update_first_step (P : Card.row → bool) (f : Card.row → Card.row)
    (cs : list Card.row) :
  NoDup (List.map Card.id cs) →
  (∀ c, Card.id (f c) = Card.id c) →
  (∀ c, P c = true → unused c = true) →
  card_step cs (fst (update_first P f cs)).
Proof.
  intros Hnd Hid HP. unfold update_first.
  destruct (List.find P cs) as [c0|] eqn:Hfind; [|apply card_step_refl].
  apply List.find_some in Hfind as [Hin0 HP0]. apply list_elem_of_In in Hin0.
  unfold update_where. simpl. apply card_step_map.
  - intros c. by destruct (Card.id c =? Card.id c0).
  - intros c Hin Hc. destruct (Z.eqb_spec (Card.id c) (Card.id c0)) as [Heq|]; [|done].
    assert (c = c0) as -> by eauto using nodup_id_inj.
    apply HP in HP0. apply consumed_not_unused in Hc. congruence.
Qed.

Lemma held_by_unused (o : string) (c : Card.row) : held_by o c = true → unused c = true.
Proof. unfold held_by. by intros [_ ?]%andb_true_iff. Qed.

Lemma available_unused (now : Z) (p : string) (c : Card.row) :
  available now p c = true → unused c = true.
Proof. unfold available. by intros [[_ ?]%andb_true_iff _]%andb_true_iff. Qed.

Lemma releaseHold_step (cs : list Card.row) (o : string) :
  card_step cs (releaseHold cs o).
Proof. apply update_where_step; [done | apply held_by_unused]. Qed.

Lemma releaseHolds_step (ids : list string) (cs : list Card.row) :
  card_step cs (releaseHolds ids cs).
Proof.
  unfold releaseHolds. revert cs. induction ids as [|o ids IH]; intros cs; simpl.
  - apply card_step_refl.
  - eapply card_step_trans; [apply releaseHold_step | apply IH].
Qed.

Lemma cancelExpiredOrders_step (f : filters) (now : Z) (db : DB) :
  card_step (cards db) (cards (snd (cancelExpiredOrders f now db))).
Proof. rewrite cancelExpiredOrders_cards. apply releaseHolds_step. Qed.

Lemma checkStock_step (now : Z) (productId : string) (db : DB) (stock : Z) (db' : DB) :
  checkStock now productId db = inl (stock, db') → card_step (cards db) (cards db').
Proof.
  assert (Hback : ∀ db2 : DB, cards db2 = cards db →
            card_step (cards db) (cards (ensureCardsIsUsedDefaults db2))).
  { intros db2 Heq. simpl. rewrite Heq. apply card_step_map.
    - intros c. unfold backfill_used. by destruct (Card.is_used c).
    - intros c _ Hc. unfold backfill_used. by rewrite Hc. }
  unfold checkStock, getAvailableStock.
  destruct (reservationCols db); simpl; intros H;
    repeat case_match; simplify_eq; first [apply card_step_refl | by apply Hback].
Qed.

Lemma reserveAndCreate_step (orderId productId : string) (product : Product.row)
    (user : option User) (email : option string) (now : Z) (db db' : DB) :
  NoDup (List.map Card.id (cards db)) →
  reserveAndCreate orderId productId product user email now db = Committed db' →
  card_step (cards db) (cards db').
Proof.
  intros Hnd. unfold reserveAndCreate.
  pose proof (update_first_step (available now productId) (reserve orderId now)
                (cards db) Hnd (fun _ => eq_refl) (available_unused now productId)) as Hstep.
  destruct (update_first _ _ (cards db)) as [cs' rows].
  intros H. repeat case_match; simplify_eq. exact Hstep.
Qed.

Lemma card_step_nodup (cs cs' : list Card.row) :
  card_step cs cs' → NoDup (List.map Card.id cs) → NoDup (List.map Card.id cs').
Proof. intros [-> _]. done. Qed.

Lemma createOrder_step (h : Host) (env : Env) (user : option User) (orderId : string)
    (now : Z) (productId : string) (email : option string) (db : DB) :
  NoDup (List.map Card.id (cards db)) →
  card_step (cards db) (cards (snd (createOrder h env user orderId now productId email db))).
Proof.
  intros Hnd. unfold createOrder.
  destruct (List.find _ (products db)) as [product|]; [|apply card_step_refl].
  set (db1 := snd (cancelExpiredOrders _ now db)).
  assert (H1 : card_step (cards db) (cards db1)) by apply cancelExpiredOrders_step.
  destruct (checkStock_counts now productId db1) as (db3 & Hcs & _).
  rewrite Hcs. apply checkStock_step in Hcs.
  assert (H3 : card_step (cards db) (cards db3)) by eauto using card_step_trans.
  assert (Hnd3 : NoDup (List.map Card.id (cards db3))) by eauto using card_step_nodup.
  destruct (payDescriptor h env orderId product) as [url ps].
  destruct (_ <=? 0); [done|].
  destruct (limitExceeded _ _ _ _ _); [done|].
  destruct (reserveAndCreate _ _ _ _ _ _ db3) as [db4| | |] eqn:E; simpl; try done.
  - eapply card_step_trans; [exact H3|]. by eapply reserveAndCreate_step.
  - destruct (reserveAndCreate _ _ _ _ _ _ (ensureCardsReservationColumns db3))
      as [db4| | |] eqn:E'; simpl; try done.
    eapply card_step_trans; [exact H3|].
    by eapply (reserveAndCreate_step _ _ _ _ _ _ (ensureCardsReservationColumns db3)).
Qed.

Lemma settle_step (oid : string) (tradeNo : option string) (order : Order.row)
    (now : Z) (db db' : DB) :
  NoDup (List.map Card.id (cards db)) →
  settle oid tradeNo order now db = Some db' →
  card_step (cards db) (cards db').
Proof.
  intros Hnd (Hcols & cs2 & k & -> & Hcs)%settle_committed.
  cbn [cards with_orders with_cards].
  assert (H1 : card_step (cards db)
                 (fst (update_where (held_by oid) (consume now) (cards db)))).
  { apply update_where_step; [done | apply held_by_unused]. }
  destruct Hcs as [(_ & -> & _)|(_ & -> & _)]; [done|].
  eapply card_step_trans; [exact H1|].
  apply update_first_step; [by eapply card_step_nodup | done | apply available_unused].
Qed.

Lemma processNotify_step (h : Host) (env : Env) (now : Z)
    (params : gmap string string) (db : DB) :
  NoDup (List.map Card.id (cards db)) →
  card_step (cards db) (cards (snd (processNotify h env now params db))).
Proof.
  intros Hnd. unfold processNotify.
  repeat case_match; simpl; try apply card_step_refl. by eapply settle_step.
Qed.

Lemma run_step (h : Host) (env : Env) (db : DB) (o : op) :
  NoDup (List.map Card.id (cards db)) →
  card_step (cards db) (cards (run h env db o)).
Proof.
  intros Hnd. destruct o as [user orderId now productId email|now params|f now|orderId]; simpl.
  - by apply createOrder_step.
  - by apply processNotify_step.
  - apply cancelExpiredOrders_step.
  - destruct (reservationCols db); [apply releaseHold_step | apply card_step_refl].
Qed.

(** C8.  [id] being the primary key of [cards], after any sequence of
    core operations (checkouts, settlement notifications, reaper runs
    and single releases of the reaper's loop, in any order and with any
    arguments) every card that was consumed is still the same row: it is
    consumed, and its key, its timestamps and its hold fields are what
    they were.  The clauses that select a card by its holder or as
    available select unconsumed cards only. *)
Theorem consumed_is_terminal (h : Host) (env : Env) (ops : list op) (db : DB) :
  NoDup (List.map Card.id (cards db)) →
  keeps_consumed (cards db) (cards (runs h env ops db))
  ∧ (∀ o now p c, (held_by o c = true → ¬ consumed c)
                  ∧ (available now p c = true → ¬ consumed c)).
Proof.
  intros Hnd. split.
  - enough (card_step (cards db) (cards (runs h env ops db))) as [_ ?] by done.
    unfold runs. revert db Hnd. induction ops as [|o ops IH]; intros db Hnd; simpl.
    + apply card_step_refl.
    + pose proof (run_step h env db o Hnd) as H1.
      eapply card_step_trans; [exact H1|]. apply IH. by eapply card_step_nodup.
  - intros o now p c.
    split; intros H Hc; apply consumed_not_unused in Hc;
      [apply held_by_unused in H | apply available_unused in H]; congruence.
Qed.

(** ** The representation invariants are invariants *)

Lemma cols_wf (db : DB) : reservationCols db = true → wf db.
Proof. intros H H'. congruence. Qed.

Lemma checkStock_cols (now : Z) (productId : string) (db : DB) (stock : Z) (db' : DB) :
  checkStock now productId db = inl (stock, db') → reservationCols db' = true.
Proof.
  unfold checkStock, getAvailableStock.
  destruct (reservationCols db) eqn:Hcols; simpl; intros H;
    repeat case_match; simplify_eq; done.
Qed.

Lemma reserveAndCreate_cols (orderId productId : string) (product : Product.row)
    (user : option User) (email : option string) (now : Z) (db db' : DB) :
  reserveAndCreate orderId productId product user email now db = Committed db' →
  reservationCols db' = reservationCols db.
Proof.
  unfold reserveAndCreate. destruct (update_first _ _ (cards db)) as [cs' rows].
  intros H. repeat case_match; simplify_eq. done.
Qed.

Lemma createOrder_wf (h : Host) (env : Env) (user : option User) (orderId : string)
    (now : Z) (productId : string) (email : option string) (db : DB) :
  wf db → wf (snd (createOrder h env user orderId now productId email db)).
Proof.
  intros Hwf. unfold createOrder.
  destruct (List.find _ (products db)) as [product|]; [|done].
  destruct (checkStock_counts now productId
              (snd (cancelExpiredOrders
                      {| f_productId := Some productId; f_userId := None;
                         f_orderId := None |} now db))) as (db3 & Hcs & _).
  rewrite Hcs. apply checkStock_cols in Hcs.
  destruct (payDescriptor h env orderId product) as [url ps].
  destruct (_ <=? 0); [by apply cols_wf|].
  destruct (limitExceeded _ _ _ _ _); [by apply cols_wf|].
  destruct (reserveAndCreate _ _ _ _ _ _ db3) as [db4| | |] eqn:E; simpl;
    try by apply cols_wf.
  - apply cols_wf. apply reserveAndCreate_cols in E. congruence.
  - destruct (reserveAndCreate _ _ _ _ _ _ (ensureCardsReservationColumns db3))
      as [db4| | |] eqn:E'; simpl; try by apply cols_wf.
    apply cols_wf. by apply reserveAndCreate_cols in E'.
Qed.

Lemma settle_wf (oid : string) (tradeNo : option string) (order : Order.row)
    (now : Z) (db db' : DB) :
  settle oid tradeNo order now db = Some db' → wf db'.
Proof.
  intros (Hcols & cs2 & k & -> & _)%settle_committed. by apply cols_wf.
Qed.

Lemma processNotify_wf (h : Host) (env : Env) (now : Z)
    (params : gmap string string) (db : DB) :
  wf db → wf (snd (processNotify h env now params db)).
Proof.
  intros Hwf. unfold processNotify.
  repeat case_match; simpl; try done. by eapply settle_wf.
Qed.

Lemma cancelExpiredOrders_wf (f : filters) (now : Z) (db : DB) :
  wf db → wf (snd (cancelExpiredOrders f now db)).
Proof.
  intros Hwf. unfold cancelExpiredOrders, update_where.
  destruct (List.filter _ (List.map Order.orderId _)); [done|].
  by apply cols_wf.
Qed.

(** Every operation keeps [wf], and keeps the ids of [cards] as they
    are, so their uniqueness too. *)
Lemma run_invariants (h : Host) (env : Env) (db : DB) (o : op) :
  wf db → NoDup (List.map Card.id (cards db)) →
  wf (run h env db o) ∧ NoDup (List.map Card.id (cards (run h env db o))).
Proof.
  intros Hwf Hnd. split.
  - destruct o; simpl.
    + by apply createOrder_wf.
    + by apply processNotify_wf.
    + by apply cancelExpiredOrders_wf.
    + destruct (reservationCols db) eqn:Hcols; [by apply cols_wf | done].
  - eapply card_step_nodup; [by apply run_step | done].
Qed.

(** * Worked examples *)

Lemma elem_of_list1 {A} (P : A → Prop) (a : A) : P a → ∀ x, x ∈ [a] → P x.
Proof. intros Ha x Hx. apply list_elem_of_singleton in Hx. by subst. Qed.

Lemma elem_of_list2 {A} (P : A → Prop) (a b : A) : P a → P b → ∀ x, x ∈ [a; b] → P x.
Proof.
  intros Ha Hb x Hx. apply elem_of_cons in Hx as [->|Hx]; [done|].
  apply list_elem_of_singleton in Hx. by subst.
Qed.

(** C1 at work: the notification for O1 is replayed after delivery. *)
Lemma processNotify_replay_is_noop_witness :
  processNotify Sample.host Sample.env 80000 (Sample.tradeSuccess "O1" "10.00")
    Sample.afterDelivery
  = (Answered Response.success, Sample.afterDelivery).
Proof.
  apply (processNotify_replay_is_noop Sample.host Sample.env 80000
           (Sample.tradeSuccess "O1" "10.00") Sample.afterDelivery "O1"
           (Sample.orderOf "O1" "delivered" 0));
    [vm_compute; reflexivity .. | right; reflexivity].
Defined.

(** C2 as stated fails: a signed notification for the unknown order O9 is
    answered with [success], status 200, not with an error. *)
Lemma processNotify_unknown_order_not_rejected :
  let params := Sample.tradeSuccess "O9" "10.00" in
  signatureOk Sample.host Sample.env params = true
  ∧ params !! "trade_status" = Some "TRADE_SUCCESS"
  ∧ findOrder (params !! "out_trade_no") Sample.oneOrder = None
  ∧ processNotify Sample.host Sample.env 80000 params Sample.oneOrder
    = (Answered {| Response.body := "success"; Response.status := 200 |}, Sample.oneOrder).
Proof. vm_compute. repeat split; reflexivity. Qed.

Lemma processNotify_unknown_order_acknowledged_witness :
  processNotify Sample.host Sample.env 80000 (Sample.tradeSuccess "O9" "10.00")
    Sample.oneOrder
  = (Answered Response.success, Sample.oneOrder).
Proof.
  apply (processNotify_unknown_order_acknowledged Sample.host Sample.env 80000
           (Sample.tradeSuccess "O9" "10.00") Sample.oneOrder);
    vm_compute; reflexivity.
Defined.

(** C3 at work: 9.00 is offered for an order of 10.00. *)
Lemma processNotify_amount_mismatch_rejected_witness :
  processNotify Sample.host Sample.env 80000 (Sample.tradeSuccess "O1" "9.00")
    Sample.oneOrder
  = (Answered Response.fail, Sample.oneOrder)
  ∧ ∃ response,
      fst (processNotify Sample.host Sample.env 80000
             (Sample.tradeSuccess "O1" "9.00") Sample.oneOrder) = Answered response
      ∧ 400 ≤ Response.status response < 500.
Proof.
  apply (processNotify_amount_mismatch_rejected Sample.host Sample.env 80000
           (Sample.tradeSuccess "O1" "9.00") Sample.oneOrder "O1"
           (Sample.orderOf "O1" "pending" 0));
    vm_compute; reflexivity.
Defined.

(** C4 as stated fails: in the end-to-end scenario the notification for
    O1 is acknowledged and O1 becomes [paid]; it does not stay
    [pending]. *)
Lemma processNotify_reassigned_unit_not_rejected :
  let params := Sample.tradeSuccess "O1" "10.00" in
  let r := processNotify Sample.host Sample.env 80000 params Sample.reassigned in
  signatureOk Sample.host Sample.env params = true
  ∧ Order.status <$> findOrder (Some "O1") Sample.reassigned = Some "pending"
  ∧ Card.reserved_order_id <$> cards Sample.reassigned = [Some "O2"]
  ∧ fst r = Answered {| Response.body := "success"; Response.status := 200 |}
  ∧ Order.status <$> findOrder (Some "O1") (snd r) = Some "paid".
Proof. vm_compute. repeat split; reflexivity. Qed.

Lemma processNotify_reassigned_unit_marks_paid_witness :
  let r := processNotify Sample.host Sample.env 80000
             (Sample.tradeSuccess "O1" "10.00") Sample.reassigned in
  fst r = Answered Response.success
  ∧ cards (snd r) = cards Sample.reassigned
  ∧ ∃ o', findOrder (Some "O1") (snd r) = Some o' ∧ Order.status o' = "paid".
Proof.
  apply (processNotify_reassigned_unit_marks_paid Sample.host Sample.env 80000
           (Sample.tradeSuccess "O1" "10.00") Sample.reassigned "O1" "O2"
           (Sample.orderOf "O1" "pending" 0)
           (Sample.unit1 false (Some "O2") (Some 61000)));
    try (vm_compute; reflexivity).
  - intros Hcols. discriminate Hcols.
  - apply list_elem_of_here.
  - discriminate.
  - apply (elem_of_list1 (fun c => c ≠ _ → held_by "O1" c = false)). by intros [].
  - apply (elem_of_list1 (fun c => c ≠ _ → available 80000 _ c = false)). by intros [].
Defined.

(** C5 on the code: a product that is switched off is sold like any
    other.  The call succeeds, inserts the pending order O3 and holds the
    product's unit for it. *)
Theorem createOrder_sells_inactive_product :
  let r := createOrder Sample.host Sample.env (Some Sample.alice) "O3" 80000 "p1" None
             Sample.switchedOff in
  Product.isActive <$> products Sample.switchedOff = [Some false]
  ∧ (∃ url params, fst r = Success ("ldc_pending_order", "O3") url params)
  ∧ Order.status <$> findOrder (Some "O3") (snd r) = Some "pending"
  ∧ Card.reserved_order_id <$> cards (snd r) = [Some "O3"].
Proof. vm_compute. repeat split; try reflexivity. eexists _, _. reflexivity. Qed.

(** C6 as stated fails: alice has reached the limit of 1, but the
    product is out of stock and that is what the call reports. *)
Lemma createOrder_limit_reached_reports_out_of_stock :
  let user := Some Sample.alice in
  Product.purchaseLimit <$> products Sample.afterDelivery = [Some 1]
  ∧ countPurchases "p1" (user ≫= user_id) (JS.or_else None (user ≫= user_email))
      Sample.afterDelivery = 1
  ∧ fst (createOrder Sample.host Sample.env user "O3" 80000 "p1" None Sample.afterDelivery)
    = Failure "buy.outOfStock".
Proof. vm_compute. repeat split; reflexivity. Qed.

Lemma createOrder_purchase_limit_witness :
  fst (createOrder Sample.host Sample.env (Some Sample.alice) "O3" 80000 "p1" None
         Sample.limitReached)
  = Failure "buy.limitExceeded".
Proof.
  refine (proj1 (createOrder_purchase_limit Sample.host Sample.env (Some Sample.alice)
                   "O3" 80000 "p1" None Sample.limitReached
                   (Sample.giftCard (Some 1) true) 1 _ _ _ _) _ _);
    try (vm_compute; reflexivity).
  - vm_compute. discriminate.
  - exists (Sample.unit2 false None None). split; [|reflexivity].
    vm_compute. apply list_elem_of_further, list_elem_of_here.
Defined.

(** C10 at work: where alice is refused for the limit, a buyer without
    session and without email gets the payment descriptor. *)
Example anonymous_buyer_is_served :
  ∃ url params,
    fst (createOrder Sample.host Sample.env None "O3" 80000 "p1" None Sample.limitReached)
    = Success ("ldc_pending_order", "O3") url params.
Proof. eexists _, _. vm_compute. reflexivity. Qed.

(** C7 at work, at 15 min: O1 and O2 are both stale. *)
Lemma cancelExpiredOrders_exact_witness :
  let r := cancelExpiredOrders no_filter 900000 Sample.twoPending in
  fst r = ["O1"; "O2"]
  ∧ Order.status <$> orders (snd r) = ["cancelled"; "cancelled"]
  ∧ Card.reserved_order_id <$> cards (snd r) = [None; None]
  ∧ ∀ i, i ∈ fst r ↔ ∃ o, o ∈ orders Sample.twoPending
                         ∧ stale no_filter 900000 o ∧ Order.orderId o = i.
Proof.
  split; [reflexivity|]. split; [reflexivity|]. split; [reflexivity|].
  apply (cancelExpiredOrders_exact no_filter 900000 Sample.twoPending).
  apply elem_of_list2; discriminate.
Defined.

(** At 10 min only O1 is stale: O2, 10 s old, and its hold stay. *)
Example cancelExpiredOrders_spares_young_orders :
  let r := cancelExpiredOrders no_filter 600000 Sample.twoPending in
  fst r = ["O1"]
  ∧ Order.status <$> orders (snd r) = ["cancelled"; "pending"]
  ∧ Card.reserved_order_id <$> cards (snd r) = [None; Some "O2"].
Proof. vm_compute. repeat split; reflexivity. Qed.

(** The race of C8, serialized: the reaper has cancelled O1, the
    settlement of O1 consumes the unit O1 still holds, and the reaper's
    release of O1's hold then finds nothing to free. *)
Example settlement_before_release_stays_consumed :
  let db := runs Sample.host Sample.env
              [Notify 400000 (Sample.tradeSuccess "O1" "10.00"); ReleaseOne "O1"]
              Sample.cancelledNotReleased in
  Card.is_used <$> cards db = [Some true]
  ∧ Order.status <$> orders db = ["delivered"].
Proof. vm_compute. split; reflexivity. Qed.

Lemma consumed_is_terminal_witness :
  keeps_consumed (cards Sample.limitReached)
    (cards (runs Sample.host Sample.env
              [ Checkout None "O3" 80000 "p1" (Some "b@example.org");
                Reap no_filter 500000;
                ReleaseOne "O3";
                Notify 500000 (Sample.tradeSuccess "O3" "10.00") ]
              Sample.limitReached)).
Proof.
  apply (consumed_is_terminal Sample.host Sample.env _ Sample.limitReached).
  vm_compute. apply NoDup_cons. split.
  - intros H. apply list_elem_of_singleton in H. discriminate H.
  - apply NoDup_singleton.
Defined.

(** C9 at work: the cancelled order O1 is paid for when the product's
    only unit is already consumed. *)
Lemma processNotify_paid_without_stock_witness :
  let r := processNotify Sample.host Sample.env 400000
             (Sample.tradeSuccess "O1" "10.00") Sample.soldOut in
  fst r = Answered Response.success
  ∧ cards (snd r) = cards Sample.soldOut
  ∧ ∃ o', findOrder (Some "O1") (snd r) = Some o'
          ∧ Order.status o' = "paid"
          ∧ Order.paidAt o' = Some 400000
          ∧ Order.tradeNo o' = Some "T-778"
          ∧ Order.deliveredAt o' = None
          ∧ Order.cardKey o' = None.
Proof.
  apply (processNotify_paid_without_stock Sample.host Sample.env 400000
           (Sample.tradeSuccess "O1" "10.00") Sample.soldOut "O1" "T-778"
           (Sample.orderOf "O1" "cancelled" 0));
    try (vm_compute; reflexivity).
  - right. reflexivity.
  - by apply elem_of_list1.
  - by apply elem_of_list1.
Defined.

(** * Beyond the claims *)

(** ** Settlement: when it writes, and what *)

Lemma update_where_rel {A} (P : A → bool) (f : A → A) (rows : list A) :
  Forall2 (fun r r' => r' = r ∨ (P r = true ∧ r' = f r))
    rows (fst (update_where P f rows)).
Proof.
  unfold update_where. simpl. apply Forall2_map_pointwise.
  intros r _. destruct (P r); auto.
Qed.

Lemma update_first_rel (P : Card.row → bool) (f : Card.row → Card.row)
    (cs : list Card.row) :
  NoDup (List.map Card.id cs) →
  Forall2 (fun c c' => c' = c ∨ (List.find P cs = Some c ∧ P c = true ∧ c' = f c))
    cs (fst (update_first P f cs)).
Proof.
  intros Hnd. unfold update_first.
  destruct (List.find P cs) as [c0|] eqn:Hfind.
  - pose proof (List.find_some _ _ Hfind) as [Hin0 HP0].
    apply list_elem_of_In in Hin0.
    unfold update_where. simpl. apply Forall2_map_pointwise.
    intros c Hin. destruct (Z.eqb_spec (Card.id c) (Card.id c0)) as [Heq|]; [|by left].
    assert (c = c0) as -> by eauto using nodup_id_inj. by right.
  - simpl. clear. induction cs as [|c cs IH]; constructor; [by left | exact IH].
Qed.

Lemma head_filter_find {A} (P : A → bool) (l : list A) :
  head (List.filter P l) = List.find P l.
Proof. induction l as [|x l IH]; [done|]. simpl. by destruct (P x). Qed.

(** The transaction changes no product and no schema flag, and rewrites
    the orders through [deliver] or [markPaid] on the notified id. *)
Lemma settle_orders (oid : string) (tradeNo : option string) (order : Order.row)
    (now : Z) (db db' : DB) :
  settle oid tradeNo order now db = Some db' →
  products db' = products db
  ∧ reservationCols db' = reservationCols db
  ∧ ∃ f, ((∃ k, f = deliver now tradeNo k) ∨ f = markPaid now tradeNo)
         ∧ orders db'
           = fst (update_where (fun o => String.eqb (Order.orderId o) oid) f (orders db)).
Proof.
  intros (Hcols & cs2 & k & -> & _)%settle_committed.
  split; [done|]. split; [done|].
  destruct (JS.truthy k).
  - exists (deliver now tradeNo k). eauto.
  - exists (markPaid now tradeNo). eauto.
Qed.

Section SettlementMore.

Variable h : Host.
Variable env : Env.
Variable now : Z.

(** X2.  A notification whose signature does not verify is answered [fail]
    and writes nothing; and whenever a notification changes the
    database, it has passed every gate: the signature verifies, the
    outcome is [TRADE_SUCCESS], the order exists, the amount test
    [Math.abs(notifyMoney - orderMoney) > 0.01] is false, the order was
    [pending] or [cancelled], the [cards] table has the reservation
    columns, and the answer is [success].  The amount test is false
    also when one of the two amounts is not a number: the gate does not
    establish that the amounts are within 0.01 of each other. *)
Theorem processNotify_writes_only_past_the_gates
    (params : gmap string string) (db : DB) :
  let r := processNotify h env now params db in
  (signatureOk h env params = false → r = (Answered Response.fail, db))
  ∧ (snd r ≠ db →
     signatureOk h env params = true
     ∧ params !! "trade_status" = Some "TRADE_SUCCESS"
     ∧ fst r = Answered Response.success
     ∧ ∃ oid order,
         params !! "out_trade_no" = Some oid
         ∧ findOrder (Some oid) db = Some order
         ∧ amountMismatch h params order = false
         ∧ (Order.status order = "pending" ∨ Order.status order = "cancelled")
         ∧ reservationCols db = true).
Proof.
  simpl. split.
  { intros Hsig. unfold processNotify. by rewrite Hsig. }
  unfold processNotify.
  destruct (signatureOk h env params) eqn:Hsig; cbn [negb]; [|done].
  destruct (opt_eqb (params !! "trade_status") "TRADE_SUCCESS") eqn:Hts; [|done].
  apply opt_eqb_eq in Hts.
  destruct (params !! "out_trade_no") as [oid|] eqn:Hoid; [|done].
  destruct (findOrder (Some oid) db) as [order|] eqn:Hfind; [|done].
  destruct (amountMismatch h params order) eqn:Hamt; [done|].
  destruct (String.eqb (Order.status order) "pending"
            || String.eqb (Order.status order) "cancelled") eqn:Hst; [|done].
  assert (Hstatus : Order.status order = "pending" ∨ Order.status order = "cancelled").
  { apply orb_true_iff in Hst as [Hst|Hst]; apply String.eqb_eq in Hst; auto. }
  destruct (settle oid (params !! "trade_no") order now db) as [db'|] eqn:Hset; [|done].
  cbn [fst snd]. intros _.
  apply settle_committed in Hset as (Hcols & _).
  split; [done|]. split; [done|]. split; [done|].
  exists oid, order. auto.
Qed.

Lemma processNotify_touches_only_its_order_core
    (params : gmap string string) (db : DB) :
  let r := processNotify h env now params db in
  products (snd r) = products db
  ∧ reservationCols (snd r) = reservationCols db
  ∧ Forall2 (fun o o' =>
               Order.orderId o' = Order.orderId o
               ∧ Order.productId o' = Order.productId o
               ∧ Order.productName o' = Order.productName o
               ∧ Order.amount o' = Order.amount o
               ∧ Order.email o' = Order.email o
               ∧ Order.userId o' = Order.userId o
               ∧ Order.username o' = Order.username o
               ∧ Order.created_at o' = Order.created_at o
               ∧ (params !! "out_trade_no" ≠ Some (Order.orderId o) → o' = o))
      (orders db) (orders (snd r)).
Proof.
  simpl.
  assert (Hsame : products db = products db ∧ reservationCols db = reservationCols db
            ∧ Forall2 (fun o o' =>
               Order.orderId o' = Order.orderId o
               ∧ Order.productId o' = Order.productId o
               ∧ Order.productName o' = Order.productName o
               ∧ Order.amount o' = Order.amount o
               ∧ Order.email o' = Order.email o
               ∧ Order.userId o' = Order.userId o
               ∧ Order.username o' = Order.username o
               ∧ Order.created_at o' = Order.created_at o
               ∧ (params !! "out_trade_no" ≠ Some (Order.orderId o) → o' = o))
              (orders db) (orders db)).
  { split; [done|]. split; [done|]. induction (orders db); constructor; auto 10. }
  unfold processNotify.
  destruct (signatureOk h env params); cbn [negb]; [|done].
  destruct (opt_eqb (params !! "trade_status") "TRADE_SUCCESS"); [|done].
  destruct (params !! "out_trade_no") as [oid|] eqn:Hoid; [|done].
  destruct (findOrder (Some oid) db) as [order|]; [|done].
  destruct (amountMismatch h params order); [done|].
  destruct (_ || _); [|done].
  destruct (settle oid (params !! "trade_no") order now db) as [db'|] eqn:Hset; [|done].
  simpl. clear Hsame.
  destruct (settle_orders oid (params !! "trade_no") order now db db' Hset)
    as (Hp & Hc & f & Hf & Ho).
  split; [done|]. split; [done|]. rewrite Ho.
  unfold update_where. simpl. apply Forall2_map_pointwise. intros o _.
  destruct (String.eqb_spec (Order.orderId o) oid) as [Heq|Hne].
  - destruct Hf as [[k ->] | ->]; simpl; repeat split; try done;
      intros Hn; exfalso; apply Hn; by rewrite Heq.
  - auto 10.
Qed.

(** X3.  Whatever the notification, no product changes, no order is added or
    removed, every order keeps its id, product, amount, buyer and
    creation time, and an order other than the notified one is left
    exactly as it was. *)
Theorem processNotify_touches_only_its_order
    (params : gmap string string) (db : DB) :
  let r := processNotify h env now params db in
  products (snd r) = products db
  ∧ reservationCols (snd r) = reservationCols db
  ∧ Forall2 (fun o o' =>
               Order.orderId o' = Order.orderId o
               ∧ Order.productId o' = Order.productId o
               ∧ Order.productName o' = Order.productName o
               ∧ Order.amount o' = Order.amount o
               ∧ Order.email o' = Order.email o
               ∧ Order.userId o' = Order.userId o
               ∧ Order.username o' = Order.username o
               ∧ Order.created_at o' = Order.created_at o
               ∧ (params !! "out_trade_no" ≠ Some (Order.orderId o) → o' = o))
      (orders db) (orders (snd r)).
Proof. exact (processNotify_touches_only_its_order_core params db). Qed.

(** X4.  [id] being the primary key of [cards], a settlement leaves each card
    as it was or takes it from unconsumed to consumed, with [used_at]
    the time of the call; it never frees a card, never puts a hold on
    one, and never changes a key or a product. *)
Theorem processNotify_only_consumes
    (params : gmap string string) (db : DB) :
  NoDup (List.map Card.id (cards db)) →
  Forall2 (fun c c' =>
             c' = c
             ∨ (unused c = true
                ∧ Card.is_used c' = Some true
                ∧ Card.used_at c' = Some now
                ∧ Card.id c' = Card.id c
                ∧ Card.product_id c' = Card.product_id c
                ∧ Card.card_key c' = Card.card_key c
                ∧ (Card.reserved_order_id c' = None
                   ∨ Card.reserved_order_id c' = Card.reserved_order_id c)))
    (cards db) (cards (snd (processNotify h env now params db))).
Proof.
  intros Hnd.
  set (R := fun c c' : Card.row =>
             c' = c
             ∨ (unused c = true
                ∧ Card.is_used c' = Some true
                ∧ Card.used_at c' = Some now
                ∧ Card.id c' = Card.id c
                ∧ Card.product_id c' = Card.product_id c
                ∧ Card.card_key c' = Card.card_key c
                ∧ (Card.reserved_order_id c' = None
                   ∨ Card.reserved_order_id c' = Card.reserved_order_id c))).
  assert (Hrefl : ∀ cs, Forall2 R cs cs).
  { intros cs. induction cs; constructor; auto. by left. }
  assert (Htrans : ∀ x y z, R x y → R y z → R x z).
  { intros x y z [->|Hxy] [->|Hyz]; [by left | by right | by right |].
    destruct Hxy as (_ & Hu & _). destruct Hyz as (Hu' & _).
    unfold unused in Hu'. rewrite Hu in Hu'. discriminate. }
  unfold processNotify.
  destruct (signatureOk h env params); cbn [negb]; [|apply Hrefl].
  destruct (opt_eqb (params !! "trade_status") "TRADE_SUCCESS"); [|apply Hrefl].
  destruct (params !! "out_trade_no") as [oid|]; [|apply Hrefl].
  destruct (findOrder (Some oid) db) as [order|]; [|apply Hrefl].
  destruct (amountMismatch h params order); [apply Hrefl|].
  destruct (_ || _); [|apply Hrefl].
  destruct (settle oid (params !! "trade_no") order now db) as [db'|] eqn:Hset;
    [|apply Hrefl].
  cbn [snd]. apply settle_committed in Hset as (Hcols & cs2 & k & -> & Hcs).
  cbn [cards with_orders with_cards].
  assert (H1 : Forall2 R (cards db)
                 (fst (update_where (held_by oid) (consume now) (cards db)))).
  { eapply Forall2_impl; [apply (update_where_rel (held_by oid) (consume now))|].
    intros c c' [->|[Hh ->]]; [by left|]. right.
    apply held_by_unused in Hh. simpl. auto 10. }
  assert (Hid1 : List.map Card.id (fst (update_where (held_by oid) (consume now) (cards db)))
                 = List.map Card.id (cards db)).
  { unfold update_where. simpl. rewrite List.map_map. by apply List.map_ext_in;
      intros c _; destruct (held_by oid c). }
  destruct Hcs as [(_ & -> & _)|(_ & -> & _)]; [done|].
  assert (Hnd1 : NoDup (List.map Card.id
                          (fst (update_where (held_by oid) (consume now) (cards db)))))
    by (by rewrite Hid1).
  pose proof (update_first_rel (available now (Order.productId order)) (consume now)
                _ Hnd1) as H2.
  eapply Forall2_trans; [exact Htrans | exact H1 |].
  eapply Forall2_impl; [exact H2|].
  intros c c' [->|(_ & Ha & ->)]; [by left|]. right.
  apply available_unused in Ha. simpl. auto 10.
Qed.

End SettlementMore.

Lemma filter_id_none (cs : list Card.row) (n : Z) :
  n ∉ List.map Card.id cs → List.filter (fun x => Card.id x =? n) cs = [].
Proof.
  induction cs as [|a l IH]; [done|]. simpl. intros Hn.
  apply not_elem_of_cons in Hn as [Hne Hn].
  destruct (Z.eqb_spec (Card.id a) n); [congruence | by apply IH].
Qed.

(** [WHERE id = n] selects one row when [id] is a key. *)
Lemma filter_id_singleton (cs : list Card.row) (c : Card.row) :
  NoDup (List.map Card.id cs) → c ∈ cs →
  List.filter (fun x => Card.id x =? Card.id c) cs = [c].
Proof.
  induction cs as [|a l IH]; intros Hnd Hin; [by apply elem_of_nil in Hin|].
  simpl in Hnd. apply NoDup_cons in Hnd as [Ha Hnd]. simpl.
  apply elem_of_cons in Hin as [->|Hin].
  - rewrite Z.eqb_refl. f_equal. by apply filter_id_none.
  - destruct (Z.eqb_spec (Card.id a) (Card.id c)) as [Heq|_]; [|by apply IH].
    exfalso. apply Ha. rewrite Heq. by apply (list_elem_of_fmap_2 Card.id).
Qed.

Section SettlementPaths.

Variable h : Host.
Variable env : Env.
Variable now : Z.

Lemma held_by_spec (oid : string) (x : Card.row) :
  held_by oid x = true
  ↔ Card.reserved_order_id x = Some oid ∧ Card.is_used x ≠ Some true.
Proof.
  unfold held_by, unused. rewrite andb_true_iff, opt_eqb_eq.
  split; intros [Hr Hu]; (split; [done|]).
  - intros Hused. by rewrite Hused in Hu.
  - by destruct (Card.is_used x) as [[]|].
Qed.

(** X5.  The normal case: the order is eligible and still holds an unconsumed
    card [c] whose key is not empty (the first such card in table order),
    on a [cards] table with the reservation columns.  The answer is
    [success]; every card that the order holds and that is not consumed
    comes out with [is_used] true, [used_at] the time of the call and
    no holder and no hold time, its id, product and key unchanged; no
    other card changes; the order becomes [delivered] with the key of
    [c], [paidAt] and [deliveredAt] the time of the call and [tradeNo]
    the gateway's reference. *)
Theorem processNotify_delivers_held_unit
    (params : gmap string string) (db : DB) (oid : string) (order : Order.row)
    (c : Card.row) :
  signatureOk h env params = true →
  params !! "trade_status" = Some "TRADE_SUCCESS" →
  params !! "out_trade_no" = Some oid →
  findOrder (Some oid) db = Some order →
  amountMismatch h params order = false →
  Order.status order = "pending" ∨ Order.status order = "cancelled" →
  reservationCols db = true →
  List.find (held_by oid) (cards db) = Some c →
  Card.card_key c ≠ "" →
  let r := processNotify h env now params db in
  fst r = Answered Response.success
  ∧ Forall2 (fun x x' =>
               (Card.reserved_order_id x = Some oid ∧ Card.is_used x ≠ Some true →
                Card.is_used x' = Some true
                ∧ Card.used_at x' = Some now
                ∧ Card.reserved_order_id x' = None
                ∧ Card.reserved_at x' = None
                ∧ Card.id x' = Card.id x
                ∧ Card.product_id x' = Card.product_id x
                ∧ Card.card_key x' = Card.card_key x)
               ∧ (¬ (Card.reserved_order_id x = Some oid ∧ Card.is_used x ≠ Some true) →
                  x' = x))
      (cards db) (cards (snd r))
  ∧ ∃ o', findOrder (Some oid) (snd r) = Some o'
          ∧ Order.status o' = "delivered"
          ∧ Order.cardKey o' = Some (Card.card_key c)
          ∧ Order.paidAt o' = Some now
          ∧ Order.deliveredAt o' = Some now
          ∧ (∀ t, params !! "trade_no" = Some t → Order.tradeNo o' = Some t).
Proof.
  intros Hsig Hts Hoid Hfind Hamt Hst Hcols Hheld Hkey r. subst r.
  rewrite (processNotify_settles h env now params db oid order) by done.
  unfold settle, claimReserved. rewrite Hcols.
  unfold update_where, firstCardKey.
  assert (Hk : Card.card_key <$> head (List.map (consume now)
                                         (List.filter (held_by oid) (cards db)))
               = Some (Card.card_key c)).
  { pose proof (head_filter_find (held_by oid) (cards db)) as Hh. rewrite Hheld in Hh.
    destruct (List.filter (held_by oid) (cards db)) as [|x l]; [done|].
    simpl in *. by inversion Hh. }
  rewrite Hk.
  assert (Ht : JS.truthy (Some (Card.card_key c)) = true).
  { simpl. by destruct (String.eqb_spec (Card.card_key c) ""). }
  rewrite Ht. cbn [negb fst snd cards with_orders with_cards]. rewrite ?Ht.
  cbn [fst snd cards with_orders with_cards].
  split; [done|]. split.
  { apply Forall2_map_pointwise. intros x _.
    destruct (held_by oid x) eqn:E.
    - split; [intros _; simpl; auto 10|].
      intros Hn. exfalso. by apply Hn, held_by_spec.
    - split; [|done]. intros Hh%held_by_spec. congruence. }
  exists (deliver now (params !! "trade_no") (Some (Card.card_key c)) order).
  split; [by apply (findOrder_updated oid (deliver now (params !! "trade_no")
                                             (Some (Card.card_key c))) db)|].
  simpl. repeat split; try done. by intros t ->.
Qed.

(** X6.  The fallback: the order is eligible but holds no unconsumed card
    any more, and [c] is the first available card of its product, with a
    key that is not empty, on a [cards] table with the reservation
    columns.  [id] being the primary key of [cards], [c] comes out with
    [is_used] true, [used_at] the time of the call and no holder and no
    hold time, its id, product and key unchanged; no other card
    changes; and the order is delivered with the key of [c]: the buyer
    gets a unit other than the one the order once held. *)
Theorem processNotify_falls_back_to_available_unit
    (params : gmap string string) (db : DB) (oid : string) (order : Order.row)
    (c : Card.row) :
  signatureOk h env params = true →
  params !! "trade_status" = Some "TRADE_SUCCESS" →
  params !! "out_trade_no" = Some oid →
  findOrder (Some oid) db = Some order →
  amountMismatch h params order = false →
  Order.status order = "pending" ∨ Order.status order = "cancelled" →
  reservationCols db = true →
  NoDup (List.map Card.id (cards db)) →
  (∀ x, x ∈ cards db → held_by oid x = false) →
  List.find (available now (Order.productId order)) (cards db) = Some c →
  Card.card_key c ≠ "" →
  let r := processNotify h env now params db in
  fst r = Answered Response.success
  ∧ Forall2 (fun x x' =>
               (x = c →
                Card.is_used x' = Some true
                ∧ Card.used_at x' = Some now
                ∧ Card.reserved_order_id x' = None
                ∧ Card.reserved_at x' = None
                ∧ Card.id x' = Card.id c
                ∧ Card.product_id x' = Card.product_id c
                ∧ Card.card_key x' = Card.card_key c)
               ∧ (x ≠ c → x' = x))
      (cards db) (cards (snd r))
  ∧ ∃ o', findOrder (Some oid) (snd r) = Some o'
          ∧ Order.status o' = "delivered"
          ∧ Order.cardKey o' = Some (Card.card_key c)
          ∧ Order.paidAt o' = Some now
          ∧ Order.deliveredAt o' = Some now.
Proof.
  intros Hsig Hts Hoid Hfind Hamt Hst Hcols Hnd Hnone Hav Hkey r. subst r.
  rewrite (processNotify_settles h env now params db oid order) by done.
  unfold settle, claimReserved. rewrite Hcols.
  rewrite (update_where_nothing _ _ _ Hnone).
  cbn [firstCardKey head fmap option_fmap option_map JS.truthy negb].
  unfold claimFallback, update_first. rewrite Hav.
  pose proof (List.find_some _ _ Hav) as [Hin _]. apply list_elem_of_In in Hin.
  assert (Hsel : ∀ x, x ∈ cards db → (Card.id x =? Card.id c) = bool_decide (x = c)).
  { intros x Hx. destruct (Z.eqb_spec (Card.id x) (Card.id c)) as [Heq|Hne].
    - symmetry. apply bool_decide_eq_true. eauto using nodup_id_inj.
    - symmetry. apply bool_decide_eq_false. congruence. }
  unfold update_where.
  assert (Hrows : List.filter (fun x => Card.id x =? Card.id c) (cards db) = [c])
    by (by apply filter_id_singleton).
  rewrite Hrows. cbn [List.map firstCardKey head fmap option_fmap option_map].
  assert (Ht : JS.truthy (Some (Card.card_key (consume now c))) = true).
  { simpl. by destruct (String.eqb_spec (Card.card_key c) ""). }
  rewrite Ht. cbn [fst snd cards with_orders with_cards]. rewrite ?Ht.
  split; [done|]. split.
  - apply Forall2_map_pointwise. intros x Hx. rewrite (Hsel x Hx).
    destruct (decide (x = c)) as [->|Hne].
    + rewrite bool_decide_eq_true_2 by done. split; [|done].
      intros _. simpl. auto 10.
    + rewrite bool_decide_eq_false_2 by done. by split.
  - exists (deliver now (params !! "trade_no") (Some (Card.card_key c)) order).
    split; [|done].
    by apply (findOrder_updated oid (deliver now (params !! "trade_no")
                                       (Some (Card.card_key c))) db).
Qed.

End SettlementPaths.

(** ** Checkout: what a call writes *)

Lemma cancelExpiredOrders_order_ids (f : filters) (now : Z) (db : DB) :
  List.map Order.orderId (orders (snd (cancelExpiredOrders f now db)))
  = List.map Order.orderId (orders db).
Proof.
  rewrite cancelExpiredOrders_orders, List.map_map. apply List.map_ext.
  intros o. by destruct (expired _ _ o).
Qed.

(** The stock check in full: it always returns a count, the count is the
    number of available cards of the product, the columns exist
    afterwards, orders and products are not touched, and the cards are
    as they were unless the count was zero, in which case NULL [is_used]
    may have been backfilled. *)
Lemma checkStock_spec (now : Z) (productId : string) (db : DB) :
  ∃ db', checkStock now productId db
         = inl (Z.of_nat (length (List.filter (available now productId) (cards db))), db')
         ∧ orders db' = orders db
         ∧ products db' = products db
         ∧ reservationCols db' = true
         ∧ (cards db' = cards db
            ∨ (List.filter (available now productId) (cards db) = []
               ∧ cards db' = List.map backfill_used (cards db))).
Proof.
  unfold checkStock, getAvailableStock.
  set (n := length (List.filter (available now productId) (cards db))).
  assert (Hfix : ∀ db2 : DB, cards db2 = cards db → orders db2 = orders db →
            products db2 = products db → reservationCols db2 = true →
            ∃ db',
              (if Z.of_nat n <=? 0
               then if countNullUsed productId db2 >? 0
                    then match (if reservationCols (ensureCardsIsUsedDefaults db2)
                                then Done (Z.of_nat (length (List.filter (available now productId)
                                             (cards (ensureCardsIsUsedDefaults db2)))))
                                else UndefinedColumn) with
                         | Done m => inl (m, ensureCardsIsUsedDefaults db2)
                         | UndefinedColumn => inl (Z.of_nat n, ensureCardsIsUsedDefaults db2)
                         end
                    else inl (Z.of_nat n, db2)
               else inl (Z.of_nat n, db2)) = (inl (Z.of_nat n, db') : (Z * DB) + DB)
              ∧ orders db' = orders db ∧ products db' = products db
              ∧ reservationCols db' = true
              ∧ (cards db' = cards db
                 ∨ (List.filter (available now productId) (cards db) = []
                    ∧ cards db' = List.map backfill_used (cards db)))).
  { intros db2 Hc Ho Hp Hr.
    destruct (Z.leb_spec (Z.of_nat n) 0) as [Hz|Hz]; [|exists db2; repeat split; auto].
    destruct (countNullUsed productId db2 >? 0); [|exists db2; repeat split; auto].
    exists (ensureCardsIsUsedDefaults db2). simpl. rewrite Hr.
    rewrite filter_map_length by apply available_backfill. rewrite Hc. fold n.
    repeat split; try done. right. split; [|done].
    apply List.length_zero_iff_nil. subst n. lia. }
  destruct (reservationCols db) eqn:Hr; simpl.
  - apply (Hfix db); done.
  - apply (Hfix (ensureCardsReservationColumns db)); done.
Qed.

Lemma existsb_order_id_fresh (orderId : string) (os : list Order.row) :
  orderId ∉ List.map Order.orderId os →
  existsb (fun o => String.eqb (Order.orderId o) orderId) os = false.
Proof.
  induction os as [|o os IH]; [done|]. simpl. intros Hn.
  apply not_elem_of_cons in Hn as [Hne Hn].
  destruct (String.eqb_spec (Order.orderId o) orderId); [congruence | by apply IH].
Qed.

Section CheckoutMore.

Variable h : Host.
Variable env : Env.

Lemma createOrder_success_core (user : option User) (orderId : string) (now : Z)
    (productId : string) (email : option string) (db : DB)
    (product : Product.row) (c : Card.row) :
  List.find (fun p => String.eqb (Product.id p) productId) (products db) = Some product →
  let reaped :=
    snd (cancelExpiredOrders
           {| f_productId := Some productId; f_userId := None; f_orderId := None |}
           now db) in
  List.find (available now productId) (cards reaped) = Some c →
  limitExceeded productId product user email db = false →
  orderId ∉ List.map Order.orderId (orders db) →
  NoDup (List.map Card.id (cards db)) →
  let r := createOrder h env user orderId now productId email db in
  fst r = Success ("ldc_pending_order", orderId)
            (fst (payDescriptor h env orderId product))
            (snd (payDescriptor h env orderId product))
  ∧ orders (snd r) = orders reaped ++ [newOrder orderId product user email now]
  ∧ Order.status (newOrder orderId product user email now) = "pending"
  ∧ Order.amount (newOrder orderId product user email now) = Product.price product
  ∧ Forall2 (fun x x' => (x = c → x' = reserve orderId now c) ∧ (x ≠ c → x' = x))
      (cards reaped) (cards (snd r))
  ∧ products (snd r) = products db.
Proof.
  intros Hfind reaped Hav Hlim Hfresh Hnd r. subst r.
  unfold createOrder. rewrite Hfind. fold reaped.
  destruct (checkStock_spec now productId reaped) as (db3 & -> & Hord & Hprod & Hcols & Hcards).
  pose proof (List.find_some _ _ Hav) as [Hin Hc].
  assert (Hne : List.filter (available now productId) (cards reaped) ≠ []).
  { intros Hnil. assert (In c (List.filter (available now productId) (cards reaped)))
      by (by apply List.filter_In). rewrite Hnil in *. done. }
  destruct Hcards as [Hcards | [Hnil _]]; [|done].
  assert (Hstock : (Z.of_nat (length (List.filter (available now productId) (cards reaped)))
                    <=? 0) = false).
  { apply Z.leb_gt. destruct (List.filter _ (cards reaped)); [done | simpl; lia]. }
  rewrite Hstock.
  assert (Hlim3 : limitExceeded productId product user email db3 = false).
  { rewrite <- Hlim. apply limitExceeded_orders. intros uid em.
    transitivity (countPurchases productId uid em reaped).
    - unfold countPurchases. by rewrite Hord.
    - apply countPurchases_after_reaper. }
  rewrite Hlim3.
  assert (Hnd3 : NoDup (List.map Card.id (cards reaped))).
  { eapply card_step_nodup; [apply cancelExpiredOrders_step | done]. }
  apply list_elem_of_In in Hin.
  unfold reserveAndCreate. rewrite Hcols. cbn [negb].
  unfold update_first. rewrite Hcards, Hav. unfold update_where.
  rewrite (filter_id_singleton _ _ Hnd3 Hin). cbn [List.map].
  rewrite existsb_order_id_fresh
    by (rewrite Hord; unfold reaped; by rewrite cancelExpiredOrders_order_ids).
  destruct (payDescriptor h env orderId product) as [url ps]. simpl.
  split; [done|]. split; [by rewrite Hord|]. split; [done|]. split; [done|].
  split; [|by rewrite Hprod; apply cancelExpiredOrders_products].
  apply Forall2_map_pointwise. intros x Hx.
  destruct (Z.eqb_spec (Card.id x) (Card.id c)) as [Heq|Hneq].
  - assert (x = c) as -> by eauto using nodup_id_inj. by split.
  - split; [by intros -> | done].
Qed.

(** X9.  What a successful checkout writes.  The product exists, [c] is the
    first card of the product that is available once the reaper has
    run, the buyer is not over the limit and the generated order id is
    not in use; [id] is the primary key of [cards].  Then the call
    returns the payment descriptor (with the order id, the product's
    name and its price as [money]) and sets the pending-order cookie,
    appends one order: [pending], created at [now], with the product's
    id, name and price, the buyer's email, id and username, and no
    payment, key or delivery yet; [c] comes out held by that order with
    hold time [now] and otherwise unchanged, and no other card
    changes. *)
Theorem createOrder_success (user : option User) (orderId : string) (now : Z)
    (productId : string) (email : option string) (db : DB)
    (product : Product.row) (c : Card.row) :
  List.find (fun p => String.eqb (Product.id p) productId) (products db) = Some product →
  let reaped :=
    snd (cancelExpiredOrders
           {| f_productId := Some productId; f_userId := None; f_orderId := None |}
           now db) in
  List.find (available now productId) (cards reaped) = Some c →
  limitExceeded productId product user email db = false →
  orderId ∉ List.map Order.orderId (orders db) →
  NoDup (List.map Card.id (cards db)) →
  let r := createOrder h env user orderId now productId email db in
  (∃ url params,
      fst r = Success ("ldc_pending_order", orderId) url params
      ∧ (url, params) = payDescriptor h env orderId product
      ∧ ("pid", MERCHANT_ID env) ∈ params
      ∧ ("out_trade_no", Some orderId) ∈ params
      ∧ ("name", Some (Product.name product)) ∈ params
      ∧ ("money", Some (toFixed2 h (Product.price product))) ∈ params
      ∧ ("sign_type", Some "MD5") ∈ params)
  ∧ (∃ o, orders (snd r) = orders reaped ++ [o]
          ∧ Order.orderId o = orderId
          ∧ Order.productId o = Product.id product
          ∧ Order.productName o = Product.name product
          ∧ Order.amount o = Product.price product
          ∧ Order.status o = "pending"
          ∧ Order.created_at o = now
          ∧ Order.tradeNo o = None
          ∧ Order.cardKey o = None
          ∧ Order.paidAt o = None
          ∧ Order.deliveredAt o = None
          ∧ Order.email o = JS.or_else (JS.or_else email (user ≫= user_email)) None
          ∧ Order.userId o = JS.or_else (user ≫= user_id) None
          ∧ Order.username o = JS.or_else (user ≫= user_username) None)
  ∧ Forall2 (fun x x' =>
               (x = c →
                Card.reserved_order_id x' = Some orderId
                ∧ Card.reserved_at x' = Some now
                ∧ Card.id x' = Card.id c
                ∧ Card.product_id x' = Card.product_id c
                ∧ Card.card_key x' = Card.card_key c
                ∧ Card.is_used x' = Card.is_used c
                ∧ Card.used_at x' = Card.used_at c)
               ∧ (x ≠ c → x' = x))
      (cards reaped) (cards (snd r))
  ∧ products (snd r) = products db.
Proof.
  intros Hprod reaped Hav Hlimit Hfresh Hnd r.
  destruct (createOrder_success_core user orderId now productId email db product c
              Hprod Hav Hlimit Hfresh Hnd) as (H1 & H2 & _ & _ & H5 & H6).
  split; [|split; [|split; [|done]]].
  - exists (fst (payDescriptor h env orderId product)),
           (snd (payDescriptor h env orderId product)).
    split; [exact H1|]. split; [by destruct (payDescriptor h env orderId product)|].
    unfold payDescriptor. cbn [snd]. rewrite !elem_of_app, !elem_of_cons. auto 20.
  - exists (newOrder orderId product user email now). split; [exact H2|].
    simpl. auto 20.
  - eapply Forall2_impl; [exact H5|]. intros x x' [Hc Hn]. split; [|done].
    intros Hx. rewrite (Hc Hx). simpl. auto 10.
Qed.

(** X10.  A checkout that does not succeed leaves no trace: whatever the
    reason (unknown product, no stock, limit reached, every unit locked,
    a failed insert), no order is added and no hold is placed.  Beyond
    what the reaper did, at most NULL [is_used] marks were backfilled. *)
Theorem createOrder_refused_writes_nothing (user : option User) (orderId : string)
    (now : Z) (productId : string) (email : option string) (db : DB) :
  let r := createOrder h env user orderId now productId email db in
  let base :=
    match List.find (fun p => String.eqb (Product.id p) productId) (products db) with
    | Some _ =>
        snd (cancelExpiredOrders
               {| f_productId := Some productId; f_userId := None; f_orderId := None |}
               now db)
    | None => db
    end in
  (∀ cookie url params, fst r ≠ Success cookie url params) →
  orders (snd r) = orders base
  ∧ products (snd r) = products base
  ∧ Forall2 (fun x x' => x' = x ∨ (Card.is_used x = None ∧ x' = backfill_used x))
      (cards base) (cards (snd r)).
Proof.
  simpl. unfold createOrder.
  assert (Hrefl : ∀ cs, Forall2 (fun x x' : Card.row =>
                     x' = x ∨ (Card.is_used x = None ∧ x' = backfill_used x)) cs cs).
  { intros cs. induction cs; constructor; auto. }
  destruct (List.find _ (products db)) as [product|]; [|intros _; auto].
  set (reaped := snd (cancelExpiredOrders _ now db)).
  destruct (checkStock_spec now productId reaped) as (db3 & -> & Hord & Hprod & Hcols & Hcards).
  assert (H3 : Forall2 (fun x x' : Card.row =>
                  x' = x ∨ (Card.is_used x = None ∧ x' = backfill_used x))
                 (cards reaped) (cards db3)).
  { destruct Hcards as [-> | [_ ->]]; [apply Hrefl|].
    apply Forall2_map_pointwise. intros x _.
    destruct (Card.is_used x) eqn:E; [|by right].
    left. unfold backfill_used. by rewrite E. }
  destruct (payDescriptor h env orderId product) as [url ps].
  destruct (_ <=? 0); [by intros _|].
  destruct (limitExceeded _ _ _ _ _); [by intros _|].
  destruct (reserveAndCreate _ _ _ _ _ _ db3) as [db4| | |] eqn:E; cbn [fst snd].
  - intros Hno. by destruct (Hno ("ldc_pending_order", orderId) url ps).
  - by intros _.
  - unfold reserveAndCreate in E. rewrite Hcols in E. simpl in E.
    destruct (update_first _ _ (cards db3)) as [cs' rows].
    by repeat case_match.
  - by intros _.
Qed.

End CheckoutMore.

(** ** Holds *)

Lemma Forall2_in_l {A B} (R : A → B → Prop) (l : list A) (k : list B) (x : A) :
  Forall2 R l k → x ∈ l → ∃ y, y ∈ k ∧ R x y.
Proof.
  induction 1 as [|a b l k Hab _ IH]; intros Hx; [by apply elem_of_nil in Hx|].
  apply elem_of_cons in Hx as [->|Hx].
  - exists b. split; [left | done].
  - destruct (IH Hx) as (y & Hy & HR). exists y. split; [by right | done].
Qed.

(** An id the reaper returns is the id of an order it found expired. *)
Lemma cancelExpiredOrders_id_expired (f : filters) (now : Z) (db : DB) (i : string) :
  i ∈ fst (cancelExpiredOrders f now db) →
  ∃ o, o ∈ orders db ∧ expired f (now - PENDING_TTL) o = true ∧ Order.orderId o = i.
Proof.
  rewrite cancelExpiredOrders_ids. intros Hi.
  apply list_elem_of_In, List.filter_In in Hi as [Hi _].
  apply List.in_map_iff in Hi as (o & <- & Ho).
  apply List.filter_In in Ho as [Hin He].
  exists o. by rewrite list_elem_of_In.
Qed.

Section Holds.

Variable h : Host.
Variable env : Env.

Lemma createOrder_respects_live_holds_core (user : option User) (orderId : string)
    (now : Z) (productId : string) (email : option string) (db : DB) :
  NoDup (List.map Card.id (cards db)) →
  let f := {| f_productId := Some productId; f_userId := None; f_orderId := None |} in
  Forall2 (fun c c' =>
             hold_lapsed now c = false →
             (∀ o, o ∈ orders db → Card.reserved_order_id c = Some (Order.orderId o) →
                   ¬ stale f now o) →
             Card.reserved_order_id c' = Card.reserved_order_id c
             ∧ Card.reserved_at c' = Card.reserved_at c
             ∧ Card.id c' = Card.id c
             ∧ Card.product_id c' = Card.product_id c
             ∧ Card.card_key c' = Card.card_key c)
    (cards db) (cards (snd (createOrder h env user orderId now productId email db))).
Proof.
  intros Hnd f.
  set (Keep := fun c c' : Card.row =>
                 Card.reserved_order_id c' = Card.reserved_order_id c
                 ∧ Card.reserved_at c' = Card.reserved_at c
                 ∧ Card.id c' = Card.id c
                 ∧ Card.product_id c' = Card.product_id c
                 ∧ Card.card_key c' = Card.card_key c).
  set (Live := fun c : Card.row =>
                 hold_lapsed now c = false
                 ∧ ∀ o, o ∈ orders db → Card.reserved_order_id c = Some (Order.orderId o) →
                        ¬ stale f now o).
  enough (Forall2 (fun c c' => Live c → Keep c c' ∧ Live c')
            (cards db) (cards (snd (createOrder h env user orderId now productId email db)))).
  { eapply Forall2_impl; [exact H|]. intros c c' Hk Hl Hs. by apply Hk. }
  assert (Hrefl : ∀ cs, Forall2 (fun c c' : Card.row => Live c → Keep c c' ∧ Live c') cs cs).
  { intros cs. induction cs; constructor; auto. intros Hl. by split. }
  assert (Htrans : ∀ x y z : Card.row,
            (Live x → Keep x y ∧ Live y) → (Live y → Keep y z ∧ Live z) →
            (Live x → Keep x z ∧ Live z)).
  { intros x y z Hxy Hyz Hx. destruct (Hxy Hx) as [(?&?&?&?&?) Hy].
    destruct (Hyz Hy) as [(?&?&?&?&?) Hz]. split; [|done].
    unfold Keep. repeat split; congruence. }
  (* the reaper *)
  set (reaped := snd (cancelExpiredOrders f now db)).
  assert (H1 : Forall2 (fun c c' => Live c → Keep c c' ∧ Live c')
                 (cards db) (cards reaped)).
  { unfold reaped. rewrite cancelExpiredOrders_cards, releaseHolds_map.
    apply Forall2_map_pointwise. intros c _ Hl.
    destruct (unused c && existsb _ _) eqn:E; [|by split].
    exfalso. apply held_by_any_spec in E as [_ (i & Hi & Hres)].
    apply cancelExpiredOrders_id_expired in Hi as (o & Ho & He & <-).
    destruct Hl as [_ Hl]. apply (Hl o Ho Hres). by apply expired_spec. }
  unfold createOrder.
  destruct (List.find _ (products db)) as [product|]; [|apply Hrefl].
  fold f. fold reaped.
  destruct (checkStock_spec now productId reaped) as (db3 & -> & Hord & Hprod & Hcols & Hcards).
  assert (H3 : Forall2 (fun c c' => Live c → Keep c c' ∧ Live c')
                 (cards db) (cards db3)).
  { eapply Forall2_trans; [exact Htrans | exact H1 |].
    destruct Hcards as [-> | [_ ->]]; [apply Hrefl|].
    apply Forall2_map_pointwise. intros c _ Hl. unfold backfill_used.
    destruct (Card.is_used c); [by split|]. split; [done|]. exact Hl. }
  assert (Hnd3 : NoDup (List.map Card.id (cards db3))).
  { assert (card_step (cards db) (cards reaped)) by apply cancelExpiredOrders_step.
    assert (NoDup (List.map Card.id (cards reaped))) by eauto using card_step_nodup.
    destruct Hcards as [-> | [_ ->]]; [done|].
    rewrite List.map_map. erewrite List.map_ext; [done|].
    intros c. unfold backfill_used. by destruct (Card.is_used c). }
  assert (H4 : ∀ db4, reserveAndCreate orderId productId product user email now db3
                      = Committed db4 →
               Forall2 (fun c c' => Live c → Keep c c' ∧ Live c') (cards db) (cards db4)).
  { intros db4 E. eapply Forall2_trans; [exact Htrans | exact H3 |].
    unfold reserveAndCreate in E. rewrite Hcols in E. cbn [negb] in E.
    pose proof (update_first_rel (available now productId) (reserve orderId now)
                  (cards db3) Hnd3) as Hrel.
    destruct (update_first _ _ (cards db3)) as [cs' rows]. simpl in Hrel.
    assert (cards db4 = cs') as -> by (by repeat case_match; simplify_eq).
    eapply Forall2_impl; [exact Hrel|].
    intros c c' [->|(_ & Ha & ->)] Hl; [by split|].
    exfalso. destruct Hl as [Hl _]. unfold available in Ha.
    rewrite Hl in Ha. by rewrite andb_false_r in Ha. }
  destruct (payDescriptor h env orderId product) as [url ps].
  destruct (_ <=? 0); [exact H3|].
  destruct (limitExceeded _ _ _ _ _); [exact H3|].
  destruct (reserveAndCreate _ _ _ _ _ _ db3) as [db4| | |] eqn:E; cbn [fst snd];
    try exact H3.
  - by apply H4.
  - unfold reserveAndCreate in E. rewrite Hcols in E. simpl in E.
    destruct (update_first _ _ (cards db3)) as [cs' rows].
    by repeat case_match.
Qed.

(** X11.  A checkout never takes over a live hold.  [id] being the primary key
    of [cards]: a card whose hold is less than a minute old at the time
    of the call, and whose holding order is not one the reaper cancels
    in this call, comes out with the same holder and the same hold time
    (and the same id, product and key). *)
Theorem createOrder_respects_live_holds (user : option User) (orderId : string)
    (now : Z) (productId : string) (email : option string) (db : DB) :
  NoDup (List.map Card.id (cards db)) →
  let f := {| f_productId := Some productId; f_userId := None; f_orderId := None |} in
  Forall2 (fun c c' =>
             hold_lapsed now c = false →
             (∀ o, o ∈ orders db → Card.reserved_order_id c = Some (Order.orderId o) →
                   ¬ stale f now o) →
             Card.reserved_order_id c' = Card.reserved_order_id c
             ∧ Card.reserved_at c' = Card.reserved_at c
             ∧ Card.id c' = Card.id c
             ∧ Card.product_id c' = Card.product_id c
             ∧ Card.card_key c' = Card.card_key c)
    (cards db) (cards (snd (createOrder h env user orderId now productId email db))).
Proof. exact (createOrder_respects_live_holds_core user orderId now productId email db). Qed.

End Holds.

(** ** The reaper, run again *)

(** X13.  Running the reaper a second time, at the same instant or with an
    earlier clock reading, finds nothing: it returns no id and writes
    nothing. *)
Theorem cancelExpiredOrders_again_is_noop (f : filters) (now earlier : Z) (db : DB) :
  earlier ≤ now →
  let db' := snd (cancelExpiredOrders f now db) in
  cancelExpiredOrders f earlier db' = ([], db').
Proof.
  intros Hle db'.
  assert (Hnone : ∀ o, o ∈ orders db' → expired f (earlier - PENDING_TTL) o = false).
  { intros o Ho. subst db'. rewrite cancelExpiredOrders_orders in Ho.
    apply list_elem_of_In, List.in_map_iff in Ho as (o0 & <- & _).
    destruct (expired f (now - PENDING_TTL) o0) eqn:E.
    - unfold expired. simpl. done.
    - apply not_true_iff_false. intros E'. apply not_true_iff_false in E. apply E.
      unfold expired in *. rewrite !andb_true_iff in *.
      destruct E' as [[[[? Hlt] ?] ?] ?]. repeat split; try done.
      apply Z.ltb_lt in Hlt. apply Z.ltb_lt. lia. }
  unfold cancelExpiredOrders at 1.
  rewrite (update_where_nothing _ _ _ Hnone). simpl.
  subst db'. unfold cancelExpiredOrders, update_where.
  by destruct (List.filter _ (List.map Order.orderId _)).
Qed.

(** ** Two checkouts in a row *)

Section TwoCheckouts.

Variable h : Host.
Variable env : Env.

(** X12.  After a successful checkout at [t] that put its hold on [c], any
    further checkout within the next minute, for any product and by any
    buyer, leaves that card held by the first order: the unit cannot be
    sold twice while its hold is alive. *)
Theorem createOrder_hold_survives_next_checkout
    (user : option User) (orderId : string) (t : Z) (productId : string)
    (email : option string) (db : DB) (product : Product.row) (c : Card.row)
    (user2 : option User) (orderId2 : string) (t2 : Z) (productId2 : string)
    (email2 : option string) :
  List.find (fun p => String.eqb (Product.id p) productId) (products db) = Some product →
  List.find (available t productId)
    (cards (snd (cancelExpiredOrders
                   {| f_productId := Some productId; f_userId := None; f_orderId := None |}
                   t db))) = Some c →
  limitExceeded productId product user email db = false →
  orderId ∉ List.map Order.orderId (orders db) →
  NoDup (List.map Card.id (cards db)) →
  t ≤ t2 ≤ t + HOLD_TTL →
  let db1 := snd (createOrder h env user orderId t productId email db) in
  let r2 := createOrder h env user2 orderId2 t2 productId2 email2 db1 in
  ∃ c', c' ∈ cards (snd r2)
        ∧ Card.id c' = Card.id c
        ∧ Card.card_key c' = Card.card_key c
        ∧ Card.reserved_order_id c' = Some orderId
        ∧ Card.reserved_at c' = Some t.
Proof.
  intros Hfind Hav Hlim Hfresh Hnd Ht db1 r2.
  destruct (createOrder_success_core h env user orderId t productId email db product c
              Hfind Hav Hlim Hfresh Hnd) as (_ & Hord & _ & _ & Hcards & _).
  fold db1 in Hord, Hcards.
  set (reaped := snd (cancelExpiredOrders
                        {| f_productId := Some productId; f_userId := None;
                           f_orderId := None |} t db)) in *.
  pose proof (List.find_some _ _ Hav) as [Hin _]. apply list_elem_of_In in Hin.
  destruct (Forall2_in_l _ _ _ c Hcards Hin) as (c1 & Hin1 & Hc1 & _).
  specialize (Hc1 eq_refl). subst c1.
  assert (Hnd1 : NoDup (List.map Card.id (cards db1))).
  { eapply card_step_nodup; [by apply createOrder_step | done]. }
  pose proof (createOrder_respects_live_holds_core h env user2 orderId2 t2 productId2 email2
                db1 Hnd1) as Hkeep.
  cbv zeta in Hkeep. fold r2 in Hkeep.
  destruct (Forall2_in_l _ _ _ _ Hkeep Hin1) as (c' & Hin' & HR).
  exists c'. split; [done|].
  destruct HR as (Hres & Hat & Hid & _ & Hkey).
  - unfold hold_lapsed, HOLD_TTL in *. simpl. apply Z.ltb_ge. lia.
  - intros o Ho Hheld Hstale. simpl in Hheld. injection Hheld as Hheld.
    rewrite Hord in Ho. apply elem_of_app in Ho as [Ho|Ho].
    + apply Hfresh. rewrite Hheld.
      unfold reaped in Ho. rewrite <- (cancelExpiredOrders_order_ids
        {| f_productId := Some productId; f_userId := None; f_orderId := None |} t db).
      by apply (list_elem_of_fmap_2 Order.orderId).
    + apply list_elem_of_singleton in Ho. subst o.
      destruct Hstale as (_ & Hold & _). simpl in Hold. unfold HOLD_TTL in Ht. lia.
  - by rewrite Hres, Hat, Hid, Hkey.
Qed.

End TwoCheckouts.

(** ** The ledger over any run *)

Lemma createOrder_orders (h : Host) (env : Env) (user : option User) (orderId : string)
    (now : Z) (productId : string) (email : option string) (db : DB) :
  let r := createOrder h env user orderId now productId email db in
  products (snd r) = products db
  ∧ ∃ os, List.map Order.orderId os = List.map Order.orderId (orders db)
          ∧ deliveredCount os = deliveredCount (orders db)
          ∧ (orders (snd r) = os
             ∨ ∃ o, orders (snd r) = os ++ [o]
                    ∧ Order.orderId o = orderId
                    ∧ Order.status o = "pending"
                    ∧ orderId ∉ List.map Order.orderId os).
Proof.
  simpl. unfold createOrder.
  destruct (List.find _ (products db)) as [product|];
    [|split; [done|]; exists (orders db); auto].
  set (reaped := snd (cancelExpiredOrders _ now db)).
  assert (Hids : List.map Order.orderId (orders reaped) = List.map Order.orderId (orders db))
    by apply cancelExpiredOrders_order_ids.
  assert (Hdel : deliveredCount (orders reaped) = deliveredCount (orders db)).
  { unfold reaped, deliveredCount. rewrite cancelExpiredOrders_orders.
    apply filter_map_length. intros o.
    destruct (expired _ _ o) eqn:E; [|done].
    unfold expired in E. rewrite !andb_true_iff in E.
    destruct E as [[[[Hp _] _] _] _]. apply String.eqb_eq in Hp.
    simpl. by rewrite Hp. }
  assert (Hprod : products reaped = products db) by apply cancelExpiredOrders_products.
  destruct (checkStock_spec now productId reaped) as (db3 & -> & Hord & Hprod3 & Hcols & _).
  assert (Hsame : products db3 = products db
                  ∧ ∃ os, List.map Order.orderId os = List.map Order.orderId (orders db)
                          ∧ deliveredCount os = deliveredCount (orders db)
                          ∧ (orders db3 = os
                             ∨ ∃ o, orders db3 = os ++ [o]
                                    ∧ Order.orderId o = orderId
                                    ∧ Order.status o = "pending"
                                    ∧ orderId ∉ List.map Order.orderId os)).
  { split; [congruence|]. exists (orders reaped). rewrite Hord. auto. }
  destruct (payDescriptor h env orderId product) as [url ps].
  destruct (_ <=? 0); [exact Hsame|].
  destruct (limitExceeded _ _ _ _ _); [exact Hsame|].
  destruct (reserveAndCreate _ _ _ _ _ _ db3) as [db4| | |] eqn:E; cbn [fst snd];
    try exact Hsame.
  - unfold reserveAndCreate in E. rewrite Hcols in E. cbn [negb] in E.
    destruct (update_first _ _ (cards db3)) as [cs' rows].
    destruct rows; [done|].
    destruct (existsb _ (orders db3)) eqn:Hex; [done|].
    injection E as <-. simpl. split; [congruence|].
    exists (orders reaped). split; [done|]. split; [done|]. right.
    exists (newOrder orderId product user email now). rewrite Hord.
    repeat split; try done.
    intros Hin. apply list_elem_of_fmap_1 in Hin as (o & Ho & Hin).
    apply not_true_iff_false in Hex. apply Hex. apply existsb_exists.
    exists o. rewrite Hord. split; [by apply list_elem_of_In|].
    apply String.eqb_eq. done.
  - unfold reserveAndCreate in E. rewrite Hcols in E. simpl in E.
    destruct (update_first _ _ (cards db3)) as [cs' rows].
    by repeat case_match.
Qed.

Lemma processNotify_order_ids (h : Host) (env : Env) (now : Z)
    (params : gmap string string) (db : DB) :
  List.map Order.orderId (orders (snd (processNotify h env now params db)))
  = List.map Order.orderId (orders db).
Proof.
  destruct (processNotify_touches_only_its_order_core h env now params db) as (_ & _ & H).
  induction H as [|o o' l l' (Hid & _) _ IH]; [done|]. simpl. by rewrite Hid, IH.
Qed.

(** One operation: products and card ids stay, order ids stay or get one
    new id at the end. *)
Lemma run_ledger (h : Host) (env : Env) (db : DB) (o : op) :
  products (run h env db o) = products db
  ∧ (List.map Order.orderId (orders (run h env db o)) = List.map Order.orderId (orders db)
     ∨ ∃ i, List.map Order.orderId (orders (run h env db o))
            = List.map Order.orderId (orders db) ++ [i]
            ∧ i ∉ List.map Order.orderId (orders db)).
Proof.
  destruct o as [user orderId now productId email|now params|f now|orderId]; simpl.
  - destruct (createOrder_orders h env user orderId now productId email db)
      as (Hp & os & Hids & _ & [-> | (o & -> & Hid & _ & Hfresh)]).
    + split; [done|]. by left.
    + split; [done|]. right. exists orderId.
      rewrite List.map_app. simpl. rewrite Hid, Hids. split; [done|]. by rewrite <- Hids.
  - split; [|left; apply processNotify_order_ids].
    by destruct (processNotify_touches_only_its_order_core h env now params db) as (? & _).
  - split; [apply cancelExpiredOrders_products | left; apply cancelExpiredOrders_order_ids].
  - destruct (reservationCols db); (split; [done | by left]).
Qed.

Lemma runs_keep_the_ledger_core (h : Host) (env : Env) (ops : list op) (db : DB) :
  NoDup (List.map Card.id (cards db)) →
  let db' := runs h env ops db in
  products db' = products db
  ∧ List.map Card.id (cards db') = List.map Card.id (cards db)
  ∧ List.map Order.orderId (orders db) `prefix_of` List.map Order.orderId (orders db')
  ∧ (NoDup (List.map Order.orderId (orders db)) →
     NoDup (List.map Order.orderId (orders db'))).
Proof.
  intros Hnd. simpl. unfold runs. revert db Hnd.
  induction ops as [|o ops IH]; intros db Hnd; simpl.
  - repeat split; try done.
  - pose proof (run_step h env db o Hnd) as [Hids _].
    assert (Hnd1 : NoDup (List.map Card.id (cards (run h env db o)))) by (by rewrite Hids).
    destruct (IH _ Hnd1) as (Hp & Hc & Hpre & Huniq).
    destruct (run_ledger h env db o) as (Hp1 & Ho1).
    split; [congruence|]. split; [congruence|]. split.
    + etrans; [|exact Hpre].
      destruct Ho1 as [-> | (i & -> & _)]; [done | by apply prefix_app_r].
    + intros Hu. apply Huniq.
      destruct Ho1 as [-> | (i & -> & Hi)]; [done|].
      apply NoDup_app. split; [done|]. split.
      * intros x Hx Hx'. apply list_elem_of_singleton in Hx'. by subst.
      * apply NoDup_singleton.
Qed.

(** X14.  Over any sequence of core operations no product changes, no order
    is deleted or renamed (the order ids of the start are a prefix of
    the order ids of the end), order ids stay unique if they were, and
    no card is added or removed ([id] being the primary key of
    [cards]). *)
Theorem runs_keep_the_ledger (h : Host) (env : Env) (ops : list op) (db : DB) :
  NoDup (List.map Card.id (cards db)) →
  let db' := runs h env ops db in
  products db' = products db
  ∧ List.map Card.id (cards db') = List.map Card.id (cards db)
  ∧ List.map Order.orderId (orders db) `prefix_of` List.map Order.orderId (orders db')
  ∧ (NoDup (List.map Order.orderId (orders db)) →
     NoDup (List.map Order.orderId (orders db'))).
Proof. exact (runs_keep_the_ledger_core h env ops db). Qed.

(** ** Deliveries and consumed units *)

Local Open Scope nat_scope.

Lemma consumedb_spec (c : Card.row) : negb (unused c) = true ↔ consumed c.
Proof.
  unfold unused, consumed. rewrite negb_involutive.
  destruct (Card.is_used c) as [[]|]; simpl; split; congruence.
Qed.

Lemma consumedCount_mono (cs cs' : list Card.row) :
  keeps_consumed cs cs' → consumedCount cs ≤ consumedCount cs'.
Proof.
  unfold keeps_consumed, consumedCount.
  induction 1 as [|c c' l l' Hc _ IH]; [done|]. simpl.
  destruct (negb (unused c)) eqn:E.
  - apply consumedb_spec in E. rewrite (Hc E).
    apply consumedb_spec in E. rewrite E. simpl. lia.
  - destruct (negb (unused c')); simpl; lia.
Qed.

Lemma consumedCount_map_mono (Q : Card.row → bool) (f : Card.row → Card.row)
    (cs : list Card.row) :
  (∀ c, unused (f c) = false) →
  consumedCount cs ≤ consumedCount (List.map (fun c => if Q c then f c else c) cs).
Proof.
  intros Hf. unfold consumedCount. induction cs as [|x l IH]; [done|]. simpl.
  destruct (Q x).
  - rewrite Hf. simpl. destruct (negb (unused x)); simpl; lia.
  - destruct (negb (unused x)); simpl; lia.
Qed.

(** An update that reaches an unconsumed row and consumes what it
    reaches raises the number of consumed rows. *)
Lemma consumedCount_flip (Q : Card.row → bool) (f : Card.row → Card.row)
    (cs : list Card.row) (c0 : Card.row) :
  c0 ∈ cs → Q c0 = true → unused c0 = true →
  (∀ c, unused (f c) = false) →
  consumedCount cs + 1 ≤ consumedCount (List.map (fun c => if Q c then f c else c) cs).
Proof.
  intros Hin HQ Hu Hf. induction cs as [|x l IH]; [by apply elem_of_nil in Hin|].
  apply elem_of_cons in Hin as [<-|Hin].
  - pose proof (consumedCount_map_mono Q f l Hf) as Hm.
    unfold consumedCount in *. simpl. rewrite HQ, Hf, Hu. simpl. lia.
  - specialize (IH Hin). unfold consumedCount in *. simpl.
    destruct (Q x).
    + rewrite Hf. simpl. destruct (negb (unused x)); simpl; lia.
    + destruct (negb (unused x)); simpl; lia.
Qed.

Lemma deliveredCount_update_le (os : list Order.row) (oid : string)
    (f : Order.row → Order.row) :
  NoDup (List.map Order.orderId os) →
  deliveredCount (fst (update_where (fun o => String.eqb (Order.orderId o) oid) f os))
  ≤ deliveredCount os + 1.
Proof.
  unfold update_where, deliveredCount. simpl.
  induction os as [|x l IH]; intros Hnd; [simpl; lia|].
  simpl in Hnd. apply NoDup_cons in Hnd as [Hx Hnd]. simpl.
  destruct (String.eqb_spec (Order.orderId x) oid) as [Heq|Hne].
  - assert (Hid : List.map (fun o => if String.eqb (Order.orderId o) oid then f o else o) l = l).
    { rewrite <- (List.map_id l) at 2. apply List.map_ext_in. intros o Ho.
      destruct (String.eqb_spec (Order.orderId o) oid) as [Ho'|]; [|done].
      exfalso. apply Hx. rewrite Heq, <- Ho'.
      apply (list_elem_of_fmap_2 Order.orderId). by apply list_elem_of_In. }
    rewrite Hid.
    destruct (String.eqb (Order.status (f x)) "delivered"),
             (String.eqb (Order.status x) "delivered"); simpl; lia.
  - specialize (IH Hnd).
    destruct (String.eqb (Order.status x) "delivered"); simpl; lia.
Qed.

Lemma deliveredCount_markPaid (os : list Order.row) (oid : string) (now : Z)
    (t : option string) :
  deliveredCount (fst (update_where (fun o => String.eqb (Order.orderId o) oid)
                         (markPaid now t) os))
  ≤ deliveredCount os.
Proof.
  unfold update_where, deliveredCount. simpl.
  induction os as [|x l IH]; [done|]. simpl.
  destruct (String.eqb (Order.orderId x) oid); simpl;
    destruct (String.eqb (Order.status x) "delivered"); simpl; lia.
Qed.

Lemma deliveredCount_after_reaper (f : filters) (now : Z) (db : DB) :
  deliveredCount (orders (snd (cancelExpiredOrders f now db))) = deliveredCount (orders db).
Proof.
  unfold deliveredCount. rewrite cancelExpiredOrders_orders.
  apply filter_map_length. intros o.
  destruct (expired _ _ o) eqn:E; [|done].
  unfold expired in E. rewrite !andb_true_iff in E.
  destruct E as [[[[Hp _] _] _] _]. apply String.eqb_eq in Hp.
  simpl. by rewrite Hp.
Qed.

(** In the transaction, an order is marked delivered only if a card went
    from unconsumed to consumed. *)
Lemma settle_counts (oid : string) (tradeNo : option string) (order : Order.row)
    (now : Z) (db db' : DB) :
  NoDup (List.map Card.id (cards db)) →
  NoDup (List.map Order.orderId (orders db)) →
  settle oid tradeNo order now db = Some db' →
  deliveredCount (orders db') + consumedCount (cards db)
  ≤ deliveredCount (orders db) + consumedCount (cards db').
Proof.
  intros Hndc Hndo (Hcols & cs2 & k & -> & Hcs)%settle_committed.
  cbn [orders cards with_orders with_cards].
  (* first statement *)
  assert (H1 : consumedCount (cards db)
               ≤ consumedCount (fst (update_where (held_by oid) (consume now) (cards db)))
               ∧ (JS.truthy (firstCardKey
                               (snd (update_where (held_by oid) (consume now) (cards db))))
                  = true →
                  consumedCount (cards db) + 1
                  ≤ consumedCount (fst (update_where (held_by oid) (consume now) (cards db))))).
  { unfold update_where. cbn [fst snd]. split.
    - by apply consumedCount_map_mono.
    - unfold firstCardKey. intros Hk.
      destruct (List.filter (held_by oid) (cards db)) as [|c0 l] eqn:Hf; [done|].
      assert (Hin : In c0 (List.filter (held_by oid) (cards db))) by (rewrite Hf; by left).
      apply List.filter_In in Hin as [Hin Hh].
      apply (consumedCount_flip (held_by oid) (consume now) (cards db) c0);
        [by apply list_elem_of_In | done | by apply held_by_unused in Hh | done]. }
  destruct H1 as [Hm1 Hk1].
  (* second statement *)
  assert (H2 : ∀ pid cs1,
             consumedCount cs1
             ≤ consumedCount (fst (update_first (available now pid) (consume now) cs1))
             ∧ (JS.truthy (firstCardKey
                             (snd (update_first (available now pid) (consume now) cs1)))
                = true →
                consumedCount cs1 + 1
                ≤ consumedCount (fst (update_first (available now pid) (consume now) cs1)))).
  { intros pid cs1. unfold update_first.
    destruct (List.find (available now pid) cs1) as [c0|] eqn:Hfind; [|done].
    pose proof (List.find_some _ _ Hfind) as [Hin Ha].
    unfold update_where. cbn [fst snd]. split; [by apply consumedCount_map_mono|]. intros _.
    apply (consumedCount_flip _ (consume now) cs1 c0);
      [by apply list_elem_of_In | apply Z.eqb_refl | by apply available_unused in Ha | done]. }
  destruct Hcs as [(Hk & -> & ->)|(Hk & -> & ->)].
  - rewrite Hk.
    pose proof (deliveredCount_update_le (orders db) oid
                  (deliver now tradeNo
                     (firstCardKey (snd (update_where (held_by oid) (consume now) (cards db)))))
                  Hndo) as Hd.
    specialize (Hk1 Hk). lia.
  - destruct (H2 (Order.productId order)
                (fst (update_where (held_by oid) (consume now) (cards db)))) as [Hm2 Hk2].
    destruct (JS.truthy (firstCardKey (snd (update_first _ _ _)))) eqn:Hk'.
    + pose proof (deliveredCount_update_le (orders db) oid
                    (deliver now tradeNo
                       (firstCardKey
                          (snd (update_first (available now (Order.productId order))
                                  (consume now)
                                  (fst (update_where (held_by oid) (consume now) (cards db)))))))
                    Hndo) as Hd.
      specialize (Hk2 eq_refl). lia.
    + pose proof (deliveredCount_markPaid (orders db) oid now tradeNo) as Hd. lia.
Qed.

Lemma deliveredCount_app_pending (os : list Order.row) (o : Order.row) :
  Order.status o = "pending" → deliveredCount (os ++ [o]) = deliveredCount os.
Proof.
  intros Hp. unfold deliveredCount. rewrite List.filter_app, List.length_app.
  simpl. rewrite Hp. simpl. lia.
Qed.

Lemma run_counts (h : Host) (env : Env) (db : DB) (o : op) :
  NoDup (List.map Card.id (cards db)) →
  NoDup (List.map Order.orderId (orders db)) →
  deliveredCount (orders (run h env db o)) + consumedCount (cards db)
  ≤ deliveredCount (orders db) + consumedCount (cards (run h env db o)).
Proof.
  intros Hndc Hndo.
  pose proof (run_step h env db o Hndc) as [_ Hkeep].
  apply consumedCount_mono in Hkeep.
  destruct o as [user orderId now productId email|now params|f now|orderId]; cbn [run] in *.
  - destruct (createOrder_orders h env user orderId now productId email db)
      as (_ & os & _ & Hdel & [Ho | (o & Ho & _ & Hp & _)]); rewrite Ho.
    + lia.
    + rewrite deliveredCount_app_pending by done. lia.
  - clear Hkeep. unfold processNotify.
    destruct (signatureOk h env params); cbn [negb snd]; [|lia].
    destruct (opt_eqb (params !! "trade_status") "TRADE_SUCCESS"); cbn [snd]; [|lia].
    destruct (params !! "out_trade_no") as [oid|]; cbn [snd]; [|lia].
    destruct (findOrder (Some oid) db) as [order|]; cbn [snd]; [|lia].
    destruct (amountMismatch h params order); cbn [snd]; [lia|].
    destruct (_ || _); cbn [snd]; [|lia].
    destruct (settle oid (params !! "trade_no") order now db) as [db'|] eqn:Hset;
      cbn [snd]; [|lia].
    by eapply settle_counts.
  - rewrite deliveredCount_after_reaper. lia.
  - destruct (reservationCols db); cbn [orders cards with_cards] in *; lia.
Qed.

(** X15.  Starting from a database whose order ids and card ids are unique and
    in which no more orders are [delivered] than cards are consumed (an
    empty ledger, for one), after any sequence of core operations there
    are still no more [delivered] orders than consumed cards, and no
    more consumed cards than there were cards at the start: the shop
    never delivers more units than it has. *)
Theorem runs_never_overdeliver (h : Host) (env : Env) (ops : list op) (db : DB) :
  NoDup (List.map Card.id (cards db)) →
  NoDup (List.map Order.orderId (orders db)) →
  deliveredCount (orders db) ≤ consumedCount (cards db) →
  let db' := runs h env ops db in
  deliveredCount (orders db') ≤ consumedCount (cards db')
  ∧ consumedCount (cards db') ≤ length (cards db).
Proof.
  intros Hndc Hndo Hinv. simpl. split.
  - unfold runs. revert db Hndc Hndo Hinv.
    induction ops as [|o ops IH]; intros db Hndc Hndo Hinv; [done|]. simpl.
    pose proof (run_counts h env db o Hndc Hndo).
    apply IH.
    + eapply card_step_nodup; [by apply run_step | done].
    + destruct (run_ledger h env db o) as (_ & [-> | (i & -> & Hi)]); [done|].
      apply NoDup_app. split; [done|]. split; [|apply NoDup_singleton].
      intros x Hx Hx'. apply list_elem_of_singleton in Hx'. by subst.
    + lia.
  - destruct (runs_keep_the_ledger_core h env ops db Hndc) as (_ & Hids & _).
    assert (Hlen : length (cards (runs h env ops db)) = length (cards db)).
    { rewrite <- (List.length_map Card.id), Hids. apply List.length_map. }
    rewrite <- Hlen. unfold consumedCount. apply List.filter_length_le.
Qed.

Local Close Scope nat_scope.

(** ** The callback's parameters *)

Lemma collectParams_snoc (l : list (string * string)) (k v : string) :
  collectParams (l ++ [(k, v)])
  = if String.eqb k "__proto__" then collectParams l else <[k := v]> (collectParams l).
Proof. unfold collectParams. by rewrite fold_left_app. Qed.

Lemma collectParams_lookup (l : list (string * string)) (k v : string) :
  NoDup (List.map fst l) →
  collectParams l !! k = Some v ↔ (k, v) ∈ l ∧ k ≠ "__proto__".
Proof.
  induction l as [|[k' v'] l IH] using rev_ind; intros Hnd.
  - unfold collectParams. simpl. rewrite lookup_empty. split; [done|].
    intros [H _]. by apply elem_of_nil in H.
  - rewrite List.map_app in Hnd. simpl in Hnd.
    apply NoDup_app in Hnd as (Hnd & Hfresh & _).
    rewrite collectParams_snoc, elem_of_app, list_elem_of_singleton.
    destruct (String.eqb_spec k' "__proto__") as [->|Hproto].
    + rewrite (IH Hnd). split.
      * intros [Hin Hne]. split; [by left | done].
      * intros [[Hin | [= -> ->]] Hne]; [done | done].
    + destruct (decide (k' = k)) as [->|Hne].
      * rewrite lookup_insert_eq. split.
        -- intros [= ->]. split; [by right | done].
        -- intros [[Hin | [= ->]] _]; [|done].
           exfalso. apply (Hfresh k); [|by left].
           by apply (list_elem_of_fmap_2 fst l (k, v)).
      * rewrite lookup_insert_ne by done. rewrite (IH Hnd). split.
        -- intros [Hin Hk]. split; [by left | done].
        -- intros [[Hin | [= -> ->]] Hk]; [done | done].
Qed.

Lemma collectParams_proto (l : list (string * string)) :
  collectParams l !! "__proto__" = None.
Proof.
  induction l as [|[k v] l IH] using rev_ind; [done|].
  rewrite collectParams_snoc.
  destruct (String.eqb_spec k "__proto__") as [->|Hne]; [done|].
  by rewrite lookup_insert_ne.
Qed.

(** An exception leaves [processNotify] only from the transaction, on a
    [cards] table without the reservation columns, and then nothing is
    written. *)
Lemma processNotify_threw (h : Host) (env : Env) (now : Z)
    (params : gmap string string) (db : DB) :
  fst (processNotify h env now params db) = Threw →
  snd (processNotify h env now params db) = db ∧ reservationCols db = false.
Proof.
  unfold processNotify.
  destruct (signatureOk h env params); cbn [negb]; [|done].
  destruct (opt_eqb (params !! "trade_status") "TRADE_SUCCESS"); [|done].
  destruct (params !! "out_trade_no") as [oid|]; [|done].
  destruct (findOrder (Some oid) db) as [order|]; [|done].
  destruct (amountMismatch h params order); [done|].
  destruct (_ || _); [|done].
  destruct (reservationCols db) eqn:Hcols.
  - destruct (settle_commits oid (params !! "trade_no") order now db Hcols) as [db' ->].
    done.
  - by rewrite settle_aborts.
Qed.

(** What [processNotify] returns, when it returns, is [success] or
    [fail]. *)
Lemma processNotify_answers (h : Host) (env : Env) (now : Z)
    (params : gmap string string) (db : DB) (response : Response.t) :
  fst (processNotify h env now params db) = Answered response →
  response = Response.success ∨ response = Response.fail.
Proof.
  unfold processNotify. repeat case_match; cbn [fst]; intros [= <-]; auto.
Qed.

(** X8.  [GET] reads the query string into an object: a field that occurs
    twice keeps its last value, except that a field named [__proto__]
    is never a parameter; when no field occurs twice the order of the
    fields in the query string makes no difference to the answer nor to
    what is written.  [GET] answers [error], status 500, only on a
    [cards] table without the reservation columns, and has then written
    nothing. *)
Theorem GET_field_order (h : Host) (env : Env) (now : Z)
    (query query' : list (string * string)) (db : DB) :
  (∀ k v, k ≠ "__proto__" → collectParams (query ++ [(k, v)]) !! k = Some v)
  ∧ (∀ v, collectParams (query ++ [("__proto__", v)]) = collectParams query)
  ∧ collectParams query !! "__proto__" = None
  ∧ (NoDup (List.map fst query) → query ≡ₚ query' →
     GET h env now query' db = GET h env now query db)
  ∧ (Response.status (fst (GET h env now query db)) = 500 →
     GET h env now query db = (Response.error, db) ∧ reservationCols db = false).
Proof.
  split; [|split; [|split; [|split]]].
  - intros k v Hk. rewrite collectParams_snoc.
    destruct (String.eqb_spec k "__proto__"); [done|]. by rewrite lookup_insert_eq.
  - intros v. by rewrite collectParams_snoc.
  - apply collectParams_proto.
  - intros Hnd Hperm. unfold GET.
    assert (Hsame : collectParams query' = collectParams query); [|by rewrite Hsame].
    apply map_eq. intros k. apply option_eq. intros v.
    assert (Hnd' : NoDup (List.map fst query')).
    { change (NoDup (fst <$> query')). rewrite <- Hperm. exact Hnd. }
    rewrite !collectParams_lookup by done. by rewrite Hperm.
  - unfold GET.
    pose proof (processNotify_threw h env now (collectParams query) db) as Hthrew.
    pose proof (processNotify_answers h env now (collectParams query) db) as Hans.
    destruct (processNotify h env now (collectParams query) db) as [[response|] db'];
      cbn [fst snd] in *.
    + intros H500. exfalso.
      destruct (Hans response eq_refl) as [-> | ->]; discriminate H500.
    + intros _. destruct (Hthrew eq_refl) as [-> Hcols]. done.
Qed.

(** ** Admin actions on the stock *)

Example splitRuns_examples :
  splitRuns newlineOrComma false "a,,b" = ["a"; "b"]
  ∧ splitRuns newlineOrComma false ",a" = [""; "a"]
  ∧ splitRuns newlineOrComma false "a," = ["a"; ""]
  ∧ splitRuns newlineOrComma false ",," = [""; ""]
  ∧ splitRuns newlineOrComma false "" = [""]
  ∧ splitOn ","%char "a,,b" = ["a"; ""; "b"]
  ∧ splitOn ","%char "" = [""]
  ∧ batches 2 [1; 2; 3; 4; 5] = [[1; 2]; [3; 4]; [5]]
  ∧ batches 2 ([] : list Z) = [].
Proof. vm_compute. repeat split; reflexivity. Qed.

Local Open Scope nat_scope.

Lemma batches_nil {A} (size : nat) : 0 < size → batches size ([] : list A) = [].
Proof.
  intros H. unfold batches.
  assert ((length (@nil A) + size - 1) `div` size = 0) as ->; [|done].
  apply Nat.div_small. simpl. lia.
Qed.

Lemma batches_count (n size : nat) :
  0 < size → 0 < n →
  (n + size - 1) `div` size = S ((n - size + size - 1) `div` size).
Proof.
  intros Hs Hn. destruct (decide (n ≤ size)) as [Hle|Hgt].
  - replace (n - size) with 0 by lia.
    replace (n + size - 1) with ((n - 1) + 1 * size) by lia.
    rewrite Nat.div_add by lia.
    rewrite !Nat.div_small by lia. done.
  - replace (n + size - 1) with ((n - size + size - 1) + 1 * size) by lia.
    rewrite Nat.div_add by lia. lia.
Qed.

Lemma batches_cons {A} (size : nat) (l : list A) :
  0 < size → l ≠ [] →
  batches size l = firstn size l :: batches size (skipn size l).
Proof.
  intros Hs Hl. unfold batches.
  assert (Hn : 0 < length l) by (destruct l; [done | simpl; lia]).
  rewrite (batches_count _ _ Hs Hn). rewrite length_skipn.
  cbn [seq List.map]. f_equal.
  - unfold slice. simpl. f_equal. lia.
  - rewrite <- seq_shift, List.map_map. apply List.map_ext. intros q.
    unfold slice. rewrite skipn_skipn. f_equal; [lia|]. f_equal. simpl. lia.
Qed.

Lemma batches_concat {A} (size : nat) (l : list A) :
  0 < size → concat (batches size l) = l.
Proof.
  intros Hs. remember (length l) as n eqn:Hn. revert l Hn.
  induction n as [n IH] using lt_wf_ind. intros l Hn.
  destruct l as [|a l]; [by rewrite batches_nil|].
  rewrite batches_cons by done. cbn [concat].
  rewrite (IH (length (skipn size (a :: l)))); [apply firstn_skipn | | done].
  rewrite length_skipn. simpl in *. lia.
Qed.

Lemma batches_bound {A} (size : nat) (l : list A) :
  0 < size → Forall (fun b => 0 < length b ≤ size) (batches size l).
Proof.
  intros Hs. remember (length l) as n eqn:Hn. revert l Hn.
  induction n as [n IH] using lt_wf_ind. intros l Hn.
  destruct l as [|a l]; [rewrite batches_nil by done; constructor|].
  rewrite batches_cons by done. constructor.
  - rewrite length_firstn. simpl. lia.
  - apply (IH (length (skipn size (a :: l)))); [|done].
    rewrite length_skipn. simpl in *. lia.
Qed.

Local Close Scope nat_scope.

Lemma insertBatch_fold (declared : bool) (productId : string)
    (bs : list (list string)) (cs : list Card.row) (n : Z) :
  fold_left (insertBatch declared productId) bs (cs, n)
  = (cs ++ imap (fun i key => newCard declared (n + Z.of_nat i) productId key) (concat bs),
     n + Z.of_nat (length (concat bs))).
Proof.
  revert cs n. induction bs as [|b bs IH]; intros cs n.
  - simpl. rewrite app_nil_r. f_equal. lia.
  - cbn [fold_left concat]. unfold insertBatch at 2. cbn [fst snd].
    rewrite IH, imap_app, <- app_assoc, length_app. f_equal; [|lia].
    f_equal. f_equal. apply imap_ext. intros i key _. simpl. f_equal. lia.
Qed.

Lemma deletable_app (now : Z) (b1 b2 : list Z) (c : Card.row) :
  deletable now (b1 ++ b2) c = deletable now b1 c || deletable now b2 c.
Proof.
  unfold deletable. rewrite existsb_app.
  destruct (existsb _ b1), (existsb _ b2), (Card.is_used c) as [[]|],
    (Card.reserved_at c) as [t|]; simpl; try done; by destruct (t <=? _).
Qed.

Lemma deleteBatches_fold (now : Z) (bs : list (list Z)) (cs : list Card.row) :
  fold_left (fun cs batch => List.filter (fun c => negb (deletable now batch c)) cs) bs cs
  = List.filter (fun c => negb (deletable now (concat bs) c)) cs.
Proof.
  revert cs. induction bs as [|b bs IH]; intros cs.
  - simpl. induction cs as [|c cs IHc]; [done|]. simpl. by f_equal.
  - cbn [fold_left concat]. rewrite IH. clear IH.
    induction cs as [|c cs IHc]; [done|]. simpl.
    rewrite deletable_app.
    destruct (deletable now b c); simpl; [done|].
    destruct (deletable now (concat bs) c); simpl; [done|]. by f_equal.
Qed.

Lemma with_cards_same (db : DB) : with_cards db (cards db) = db.
Proof. by destruct db. Qed.

Lemma filter_all {A} (P : A → bool) (l : list A) :
  (∀ x, x ∈ l → P x = true) → List.filter P l = l.
Proof.
  induction l as [|a l IH]; intros H; [done|]. simpl.
  rewrite (H a) by left. f_equal. apply IH. intros x Hx. apply H. by right.
Qed.

Lemma cardList_nonempty (tx : Text) (rawCards key : string) :
  key ∈ cardList tx rawCards → key ≠ "".
Proof.
  unfold cardList. rewrite list_elem_of_In, filter_In. intros [_ H] ->. done.
Qed.

Lemma newCards_fields (declared : bool) (p : string) (keys : list string) (n : Z) :
  Forall2 (fun key c =>
             Card.card_key c = key
             ∧ Card.product_id c = p
             ∧ Card.is_used c = (if declared then Some false else None)
             ∧ Card.reserved_order_id c = None
             ∧ Card.reserved_at c = None
             ∧ Card.used_at c = None)
    keys (imap (fun i key => newCard declared (n + Z.of_nat i) p key) keys)
  ∧ List.map Card.id (imap (fun i key => newCard declared (n + Z.of_nat i) p key) keys)
    = List.map (fun i => n + Z.of_nat i) (seq 0 (length keys)).
Proof.
  revert n. induction keys as [|key keys IH]; intros n; [split; [constructor | done]|].
  rewrite imap_cons.
  assert (Hext : imap ((fun i key0 => newCard declared (n + Z.of_nat i) p key0) ∘ S) keys
                 = imap (fun i key0 => newCard declared (n + 1 + Z.of_nat i) p key0) keys).
  { apply imap_ext. intros i k _. simpl. f_equal. lia. }
  rewrite Hext. destruct (IH (n + 1)) as [Hfields Hids]. split.
  - constructor; [by simpl | done].
  - cbn [length seq List.map]. f_equal; try (simpl; lia).
    rewrite Hids, <- seq_shift, List.map_map. apply List.map_ext. intros i. lia.
Qed.

Lemma newCards_ids (declared : bool) (p : string) (keys : list string) (n : Z) :
  NoDup (Card.id <$> imap (fun i key => newCard declared (n + Z.of_nat i) p key) keys)
  ∧ ∀ x, x ∈ (Card.id <$> imap (fun i key => newCard declared (n + Z.of_nat i) p key) keys)
         → n ≤ x < n + Z.of_nat (length keys).
Proof.
  revert n. induction keys as [|key keys IH]; intros n.
  - split; [constructor | by intros x Hx; apply elem_of_nil in Hx].
  - rewrite imap_cons. cbn [fmap list_fmap length]. 
    assert (Hext : imap ((fun i key0 => newCard declared (n + Z.of_nat i) p key0) ∘ S) keys
                   = imap (fun i key0 => newCard declared (n + 1 + Z.of_nat i) p key0) keys).
    { apply imap_ext. intros i k _. simpl. f_equal. lia. }
    rewrite Hext. destruct (IH (n + 1)) as [Hnd Hrange]. split.
    + apply NoDup_cons. split; [|done]. simpl. intros Hin.
      apply Hrange in Hin. lia.
    + intros x [->|Hx]%elem_of_cons; [simpl; lia|].
      apply Hrange in Hx. lia.
Qed.

(** X16.  [addCards] by an admin.  No key of the cleaned list is empty,
    and with no key nothing happens.  For a product that exists, the
    batches of ten add up to one append, in the order typed: one new
    card per key, with that key and the product, unconsumed, without
    hold or use date, and with consecutive ids from the next value of
    the sequence; the cards that were there are untouched, and ids stay
    unique when the sequence is ahead of the table.  For a product that
    does not exist the insert is refused and no card is added. *)
Theorem addCards_appends (tx : Text) (adminUsers : option string) (user : option User)
    (declared : bool) (next : Z) (productId rawCards : string) (db : DB) :
  checkAdmin tx adminUsers user = true →
  let keys := cardList tx rawCards in
  let r := addCards tx adminUsers user declared next productId rawCards db in
  (∀ key, key ∈ keys → key ≠ "")
  ∧ (keys = [] → r = Returned db)
  ∧ ((∃ p, p ∈ products db ∧ Product.id p = productId) →
     ∃ added,
       r = Returned (with_cards db (cards db ++ added))
       ∧ Forall2 (fun key c =>
                    Card.card_key c = key
                    ∧ Card.product_id c = productId
                    ∧ Card.is_used c = (if declared then Some false else None)
                    ∧ Card.reserved_order_id c = None
                    ∧ Card.reserved_at c = None
                    ∧ Card.used_at c = None)
           keys added
       ∧ List.map Card.id added
         = List.map (fun i => next + Z.of_nat i) (seq 0 (length keys))
       ∧ (NoDup (List.map Card.id (cards db)) →
          (∀ c, c ∈ cards db → Card.id c < next) →
          NoDup (List.map Card.id (cards db ++ added))))
  ∧ (keys ≠ [] → (∀ p, p ∈ products db → Product.id p ≠ productId) → r = DbError).
Proof.
  intros Hadmin keys r. subst r. unfold addCards. rewrite Hadmin. cbn [negb]. fold keys.
  split; [apply cardList_nonempty|]. split; [by intros ->|]. split.
  - intros (p & Hp & Hid).
    exists (imap (fun i key => newCard declared (next + Z.of_nat i) productId key) keys).
    destruct (newCards_fields declared productId keys next) as [Hfields Hids].
    split; [|split; [done|split; [done|]]].
    + destruct (Nat.eqb_spec (length keys) 0) as [Hlen|Hlen].
      * destruct keys; [|done]. simpl. by rewrite app_nil_r, with_cards_same.
      * assert (Hex : existsb (fun p0 => String.eqb (Product.id p0) productId) (products db)
                      = true).
        { apply existsb_exists. exists p. split; [by apply list_elem_of_In|].
          by apply String.eqb_eq. }
        rewrite Hex. cbn [negb]. by rewrite insertBatch_fold, batches_concat by lia.
    + intros Hnd Hlt.
      change (NoDup (Card.id <$> (cards db ++
                imap (fun i key => newCard declared (next + Z.of_nat i) productId key) keys))).
      rewrite fmap_app. apply NoDup_app.
      destruct (newCards_ids declared productId keys next) as [Hnew Hrange].
      split; [done|]. split; [|done].
      intros x Hx Hx'. apply Hrange in Hx'.
      apply list_elem_of_fmap in Hx as (c & -> & Hc). apply Hlt in Hc. lia.
  - intros Hkeys Hnone.
    destruct (Nat.eqb_spec (length keys) 0) as [Hlen|Hlen]; [by destruct keys|].
    destruct (existsb _ (products db)) eqn:Hex; [|done].
    apply existsb_exists in Hex as (p & Hp & Hid).
    apply String.eqb_eq in Hid. by apply list_elem_of_In, Hnone in Hp.
Qed.

Lemma deletable_spec (now : Z) (ids : list Z) (c : Card.row) :
  deletable now ids c = true
  ↔ Card.id c ∈ ids ∧ unused c = true ∧ reservedNow now c = false.
Proof.
  unfold deletable, unused, reservedNow.
  rewrite !andb_true_iff, existsb_exists.
  split.
  - intros [[(x & Hx & Heq) Hu] Hr]. apply Z.eqb_eq in Heq. subst x.
    split; [by apply list_elem_of_In|].
    split; [by destruct (Card.is_used c) as [[]|]|].
    destruct (Card.reserved_at c) as [t|]; [|done]. lia.
  - intros (Hin & Hu & Hr). split; [split|].
    + exists (Card.id c). split; [by apply list_elem_of_In | apply Z.eqb_refl].
    + by destruct (Card.is_used c) as [[]|].
    + destruct (Card.reserved_at c) as [t|]; [|done]. lia.
Qed.

(** X17.  [deleteCards], when it returns: the batches of a hundred add up to
    one deletion over the whole list; a card that is consumed, or was
    reserved within the last minute, or is not listed, stays as it is;
    a card that goes was listed, unconsumed and not reserved within the
    last minute.  Orders and products are not touched. *)
Theorem deleteCards_spares_sold_and_held (tx : Text) (adminUsers : option string)
    (user : option User) (now : Z) (cardIds : list Z) (db db' : DB) :
  deleteCards tx adminUsers user now cardIds db = Returned db' →
  db' = with_cards db (List.filter (fun c => negb (deletable now cardIds c)) (cards db))
  ∧ (∀ c, c ∈ cards db →
       consumed c ∨ reservedNow now c = true ∨ Card.id c ∉ cardIds → c ∈ cards db')
  ∧ (∀ c, c ∈ cards db → c ∉ cards db' →
       Card.id c ∈ cardIds ∧ unused c = true ∧ reservedNow now c = false)
  ∧ (∀ c, c ∈ cards db' → c ∈ cards db).
Proof.
  intros Hrun.
  assert (Heq : db' = with_cards db
            (List.filter (fun c => negb (deletable now cardIds c)) (cards db))).
  { unfold deleteCards in Hrun.
    destruct (checkAdmin tx adminUsers user); [|done]. cbn [negb] in Hrun.
    destruct (Nat.eqb_spec (length cardIds) 0) as [Hlen|Hlen].
    - injection Hrun as <-. destruct cardIds; [|done].
      rewrite filter_all; [by rewrite with_cards_same | done].
    - injection Hrun as <-.
      rewrite deleteBatches_fold, batches_concat by lia. done. }
  split; [done|]. subst db'. cbn [cards with_cards].
  split; [|split].
  - intros c Hin Hkeep. apply list_elem_of_In, filter_In.
    split; [by apply list_elem_of_In|].
    destruct (deletable now cardIds c) eqn:Hd; [|done].
    apply deletable_spec in Hd as (Hid & Hu & Hr).
    destruct Hkeep as [Hc|[Hn|Hn]].
    + apply consumed_not_unused in Hc. congruence.
    + congruence.
    + done.
  - intros c Hin Hgone. destruct (deletable now cardIds c) eqn:Hd.
    + by apply deletable_spec.
    + exfalso. apply Hgone. apply list_elem_of_In, filter_In.
      split; [by apply list_elem_of_In | by rewrite Hd].
  - intros c Hc. apply list_elem_of_In, filter_In in Hc as [Hc _].
    by apply list_elem_of_In.
Qed.

Lemma find_id_none (cs : list Card.row) (n : Z) :
  List.find (fun c => Card.id c =? n) cs = None → ∀ c, c ∈ cs → Card.id c ≠ n.
Proof.
  intros Hf c Hc Heq. apply list_elem_of_In in Hc.
  apply (find_none _ _ Hf) in Hc. simpl in Hc. lia.
Qed.

Lemma find_id_some (cs : list Card.row) (n : Z) (card : Card.row) :
  List.find (fun c => Card.id c =? n) cs = Some card → card ∈ cs ∧ Card.id card = n.
Proof.
  intros Hf. apply find_some in Hf as [Hin Heq].
  split; [by apply list_elem_of_In | lia].
Qed.

Lemma filter_ext_elem {A} (P Q : A → bool) (l : list A) :
  (∀ x, x ∈ l → P x = Q x) → List.filter P l = List.filter Q l.
Proof.
  intros H. apply List.filter_ext_in. intros x Hx. apply H. by apply list_elem_of_In.
Qed.

(** X18.  [deleteCard] and [deleteCards] of the one id leave the same table,
    when ids are unique: where [deleteCard] deletes, the same row goes;
    where it throws ([Card not found], [Cannot delete used card],
    [Cannot delete reserved card]), [deleteCards] returns and deletes
    nothing.  [deleteCard] throws nothing else. *)
Theorem deleteCard_agrees_with_deleteCards (tx : Text) (adminUsers : option string)
    (user : option User) (now : Z) (cardId : Z) (db : DB) :
  NoDup (List.map Card.id (cards db)) →
  checkAdmin tx adminUsers user = true →
  reservationCols db = true →
  match deleteCard tx adminUsers user now cardId db with
  | Returned db' =>
      deleteCards tx adminUsers user now [cardId] db = Returned db'
      ∧ ∃ card, card ∈ cards db ∧ Card.id card = cardId
                ∧ unused card = true ∧ reservedNow now card = false
                ∧ card ∉ cards db'
  | Rejected message =>
      deleteCards tx adminUsers user now [cardId] db = Returned db
      ∧ (message = "Card not found" ∧ cardId ∉ List.map Card.id (cards db)
         ∨ ∃ card, card ∈ cards db ∧ Card.id card = cardId
                   ∧ (message = "Cannot delete used card" ∧ consumed card
                      ∨ message = "Cannot delete reserved card"
                        ∧ reservedNow now card = true))
  | DbError => False
  end.
Proof.
  intros Hnd Hadmin Hcols.
  assert (Hmany : deleteCards tx adminUsers user now [cardId] db
            = Returned (with_cards db
                (List.filter (fun c => negb (deletable now [cardId] c)) (cards db)))).
  { unfold deleteCards. rewrite Hadmin. cbn [negb length Nat.eqb].
    by rewrite deleteBatches_fold, batches_concat by lia. }
  assert (Hkeep : (∀ c, c ∈ cards db → deletable now [cardId] c = false) →
            deleteCards tx adminUsers user now [cardId] db = Returned db).
  { intros H. rewrite Hmany, filter_all, with_cards_same; [done|].
    intros c Hc. by rewrite H. }
  unfold deleteCard. rewrite Hadmin. cbn [negb].
  destruct (List.find _ (cards db)) as [card|] eqn:Hfind.
  - apply find_id_some in Hfind as [Hin Hid].
    assert (Hother : ∀ c, c ∈ cards db → Card.id c = cardId → c = card).
    { intros c Hc Heq. apply (nodup_id_inj (cards db)); [done..|congruence]. }
    destruct (default false (Card.is_used card)) eqn:Hused; [|
      destruct (reservedNow now card) eqn:Hres].
    + split.
      * apply Hkeep. intros c Hc. destruct (deletable now [cardId] c) eqn:Hd; [|done].
        apply deletable_spec in Hd as (Hc1 & Hu & _).
        apply list_elem_of_singleton in Hc1. rewrite (Hother c Hc Hc1) in Hu.
        unfold unused in Hu. by rewrite Hused in Hu.
      * right. exists card. split; [done|]. split; [done|]. left. split; [done|].
        unfold consumed. by destruct (Card.is_used card) as [[]|].
    + split.
      * apply Hkeep. intros c Hc. destruct (deletable now [cardId] c) eqn:Hd; [|done].
        apply deletable_spec in Hd as (Hc1 & _ & Hr).
        apply list_elem_of_singleton in Hc1. rewrite (Hother c Hc Hc1) in Hr. congruence.
      * right. exists card. split; [done|]. split; [done|]. by right.
    + assert (Hsame : List.filter (fun c => negb (deletable now [cardId] c)) (cards db)
                      = List.filter (fun c => negb (Card.id c =? cardId)) (cards db)).
      { apply filter_ext_elem. intros c Hc. f_equal.
        destruct (Z.eqb_spec (Card.id c) cardId) as [Heq|Hne].
        - rewrite (Hother c Hc Heq). apply deletable_spec.
          split; [by apply list_elem_of_singleton|].
          split; [by unfold unused; rewrite Hused | done].
        - destruct (deletable now [cardId] c) eqn:Hd; [|done].
          by apply deletable_spec in Hd as (Hc1%list_elem_of_singleton & _ & _). }
      split; [by rewrite Hmany, Hsame|].
      exists card. split; [done|]. split; [done|].
      split; [by unfold unused; rewrite Hused|]. split; [done|].
      cbn [cards with_cards]. rewrite list_elem_of_In, filter_In.
      intros [_ Hne]. rewrite Hid, Z.eqb_refl in Hne. done.
  - split.
    + apply Hkeep. intros c Hc. destruct (deletable now [cardId] c) eqn:Hd; [|done].
      apply deletable_spec in Hd as (Hc1%list_elem_of_singleton & _ & _).
      by apply (find_id_none _ _ Hfind) in Hc.
    + left. split; [done|]. intros Hin.
      change (cardId ∈ Card.id <$> cards db) in Hin.
      apply list_elem_of_fmap in Hin as (c & -> & Hc).
      by apply (find_id_none _ _ Hfind) in Hc.
Qed.

(** *** Who is an admin *)

Lemma splitOn_nonempty (sep : ascii) (s : string) : splitOn sep s ≠ [].
Proof.
  destruct s as [|a rest]; simpl; [done|].
  destruct (Ascii.eqb a sep); [done|]. by destruct (splitOn sep rest).
Qed.

Lemma join_cons (sep x : string) (xs : list string) :
  xs ≠ [] → JS.join sep (x :: xs) = String.append x (String.append sep (JS.join sep xs)).
Proof. by destruct xs. Qed.

Lemma splitOn_join (sep : ascii) (s : string) :
  JS.join (String sep "") (splitOn sep s) = s.
Proof.
  induction s as [|a rest IH]; [done|]. cbn [splitOn].
  destruct (Ascii.eqb_spec a sep) as [->|Hne].
  - rewrite join_cons by apply splitOn_nonempty. by rewrite IH.
  - pose proof (splitOn_nonempty sep rest) as Hnil.
    destruct (splitOn sep rest) as [|piece pieces]; [done|].
    destruct pieces as [|piece' pieces].
    + rewrite <- IH. reflexivity.
    + rewrite <- IH. reflexivity.
Qed.

Lemma splitOn_no_sep (sep : ascii) (s : string) :
  Forall (fun piece => has_char sep piece = false) (splitOn sep s).
Proof.
  induction s as [|a rest IH]; [by repeat constructor|]. cbn [splitOn].
  destruct (Ascii.eqb a sep) eqn:Ha; [by constructor|].
  destruct (splitOn sep rest) as [|piece pieces]; [by repeat constructor; simpl; rewrite Ha|].
  inversion IH as [|? ? Hp Hps]; subst. constructor; [|done]. simpl. by rewrite Ha, Hp.
Qed.

Lemma splitOn_piece (sep : ascii) (piece : string) :
  has_char sep piece = false → splitOn sep piece = [piece].
Proof.
  induction piece as [|a rest IH]; [done|]. simpl.
  intros [Ha Hrest]%orb_false_iff. rewrite Ha. by rewrite IH.
Qed.

Lemma splitOn_append (sep : ascii) (piece rest : string) :
  has_char sep piece = false →
  splitOn sep (String.append piece (String sep rest)) = piece :: splitOn sep rest.
Proof.
  induction piece as [|a p IH]; simpl.
  - intros _. by rewrite Ascii.eqb_refl.
  - intros [Ha Hp]%orb_false_iff. rewrite Ha. by rewrite IH.
Qed.

Lemma splitOn_of_join (sep : ascii) (pieces : list string) :
  pieces ≠ [] → Forall (fun piece => has_char sep piece = false) pieces →
  splitOn sep (JS.join (String sep "") pieces) = pieces.
Proof.
  induction pieces as [|piece pieces IH]; [done|]. intros _ Hall.
  inversion Hall as [|? ? Hp Hps]; subst.
  destruct pieces as [|piece' pieces]; [by apply splitOn_piece|].
  rewrite join_cons by done.
  change (String.append (String sep "") ?x) with (String sep x).
  rewrite splitOn_append by done. by rewrite IH.
Qed.

(** X20.  [checkAdmin] lets through exactly a signed-in user with a non-empty
    username that, in lower case, is one whole entry of the
    comma-separated [ADMIN_USERS] in lower case; entries are compared as
    they stand between the commas. *)
Theorem checkAdmin_exact_entry (tx : Text) (adminUsers : option string)
    (user : option User) :
  checkAdmin tx adminUsers user = true
  ↔ ∃ u name list entries,
      user = Some u ∧ user_username u = Some name ∧ name ≠ ""
      ∧ adminUsers = Some list
      ∧ toLowerCase tx list = JS.join "," entries
      ∧ Forall (fun entry => has_char ","%char entry = false) entries
      ∧ toLowerCase tx name ∈ entries.
Proof.
  unfold checkAdmin. split.
  - destruct user as [u|]; [|done].
    destruct (user_username u) as [name|] eqn:Hname; [|done].
    intros [Hne Hin]%andb_true_iff.
    destruct adminUsers as [list|]; [|done].
    exists u, name, list, (splitOn ","%char (toLowerCase tx list)).
    split; [done|]. split; [done|].
    split; [by intros ->|]. split; [done|].
    split; [by rewrite splitOn_join|]. split; [apply splitOn_no_sep|].
    apply existsb_exists in Hin as (x & Hx & Heq).
    apply String.eqb_eq in Heq. subst x. by apply list_elem_of_In.
  - intros (u & name & list & entries & -> & Hname & Hne & -> & Hjoin & Hall & Hin).
    rewrite Hname, Hjoin. apply andb_true_iff. split.
    + simpl. by destruct (String.eqb_spec name "").
    + rewrite splitOn_of_join; [| by intros -> ; apply elem_of_nil in Hin | done].
      apply existsb_exists. exists (toLowerCase tx name).
      split; [by apply list_elem_of_In | apply String.eqb_refl].
Qed.

(** With the routines of [Office]: case does not matter, blanks do. *)
Example checkAdmin_examples :
  checkAdmin Office.text Office.admins (Some Sample.alice) = true
  ∧ checkAdmin Office.text (Some "root, alice") (Some Sample.alice) = false
  ∧ checkAdmin Office.text None (Some Sample.alice) = false
  ∧ checkAdmin Office.text Office.admins None = false.
Proof. vm_compute. repeat split; reflexivity. Qed.

(** ** Reviews *)

Lemma existingReview_spec (orderId : string) (reviews : list Review.row) :
  Nat.ltb 0 (length (existingReview orderId reviews)) = hasUserReviewedOrder orderId reviews.
Proof.
  unfold existingReview, hasUserReviewedOrder.
  by destruct (List.filter _ reviews).
Qed.

Lemma hasUserReviewedOrder_spec (orderId : string) (reviews : list Review.row) :
  hasUserReviewedOrder orderId reviews = true ↔ orderId ∈ Review.orderId <$> reviews.
Proof.
  unfold hasUserReviewedOrder. rewrite list_elem_of_fmap. split.
  - destruct (List.filter _ reviews) as [|r l] eqn:Hf; [done|]. intros _.
    assert (Hin : In r (List.filter (fun r => String.eqb (Review.orderId r) orderId) reviews))
      by (rewrite Hf; apply in_eq).
    apply filter_In in Hin as [Hin Heq]. apply String.eqb_eq in Heq.
    exists r. split; [done | by apply list_elem_of_In].
  - intros (r & -> & Hin).
    assert (Hf : In r (List.filter (fun r0 => String.eqb (Review.orderId r0) (Review.orderId r)) reviews)).
    { apply filter_In. split; [by apply list_elem_of_In | apply String.eqb_refl]. }
    by destruct (List.filter _ reviews).
Qed.

Lemma findOrder_elem (orderId : string) (db : DB) (order : Order.row) :
  findOrder (Some orderId) db = Some order →
  order ∈ orders db ∧ Order.orderId order = orderId.
Proof.
  unfold findOrder. intros [Hin Heq]%find_some.
  split; [by apply list_elem_of_In | by apply String.eqb_eq].
Qed.

Lemma findOrder_unique (db : DB) (order : Order.row) :
  NoDup (List.map Order.orderId (orders db)) → order ∈ orders db →
  findOrder (Some (Order.orderId order)) db = Some order.
Proof.
  unfold findOrder. induction (orders db) as [|o os IH]; intros Hnd Hin.
  - by apply elem_of_nil in Hin.
  - simpl in Hnd. apply NoDup_cons in Hnd as [Ho Hnd]. simpl.
    destruct (String.eqb_spec (Order.orderId o) (Order.orderId order)) as [Heq|Hne].
    + apply elem_of_cons in Hin as [->|Hin]; [done|].
      exfalso. apply Ho. rewrite Heq. by apply (list_elem_of_fmap_2 Order.orderId).
    + apply elem_of_cons in Hin as [->|Hin]; [done|]. by apply IH.
Qed.

(** One submission: nothing is stored with an error; without one,
    exactly one row is appended, for an order that had no review. *)
Lemma submitReview_step (session : option SessionUser) (now next : Z)
    (productId orderId : string) (rating : Z) (comment : string)
    (db : DB) (reviews : list Review.row) :
  match submitReview session now next productId orderId rating comment db reviews with
  | (Some _, reviews') => reviews' = reviews
  | (None, reviews') =>
      ∃ r, reviews' = reviews ++ [r] ∧ Review.id r = next
           ∧ Review.orderId r = orderId ∧ Review.productId r = productId
           ∧ Review.rating r = rating ∧ Review.createdAt r = now
           ∧ (orderId ∉ Review.orderId <$> reviews)
           ∧ backed db r
  end.
Proof.
  unfold submitReview. destruct session as [u|]; [|done].
  destruct (Z.ltb_spec rating 1) as [|Hlo]; [done|].
  destruct (Z.gtb_spec rating 5) as [|Hhi]; [done|]. cbn [orb].
  destruct (findOrder (Some orderId) db) as [order|] eqn:Hfind; [|done].
  destruct (String.eqb_spec (Order.productId order) productId) as [Hp|]; [|done].
  cbn [negb]. destruct (isOwner order u); [|done]. cbn [negb].
  destruct (String.eqb_spec (Order.status order) "delivered") as [Hs|]; [|done].
  cbn [negb]. rewrite existingReview_spec.
  destruct (hasUserReviewedOrder orderId reviews) eqn:Hrev; [done|].
  eexists. split; [reflexivity|]. cbn.
  repeat (split; [done|]). split.
  - intros Hin%hasUserReviewedOrder_spec. congruence.
  - split; [simpl; lia|].
    apply findOrder_elem in Hfind as [Hin Hid]. by exists order.
Qed.

(** X21.  Whatever is submitted, by whomever, in whatever order: every order
    has at most one review, every review rests on a delivered order of
    the product it rates and carries a rating from one to five, review
    ids stay unique, and no stored review is changed or removed. *)
Theorem submitAll_one_review_per_delivered_order (db : DB) (subs : list submission)
    (next : Z) (reviews : list Review.row) :
  NoDup (Review.orderId <$> reviews) →
  NoDup (Review.id <$> reviews) →
  (∀ r, r ∈ reviews → Review.id r < next) →
  Forall (backed db) reviews →
  let reviews' := submitAll db subs next reviews in
  NoDup (Review.orderId <$> reviews')
  ∧ NoDup (Review.id <$> reviews')
  ∧ Forall (backed db) reviews'
  ∧ reviews `prefix_of` reviews'.
Proof.
  revert next reviews. induction subs as [|s subs IH]; intros next reviews Ho Hi Hlt Hb.
  - simpl. done.
  - cbn [submitAll].
    pose proof (submitReview_step (sub_session s) (sub_now s) next (sub_productId s)
                  (sub_orderId s) (sub_rating s) (sub_comment s) db reviews) as Hstep.
    destruct (submitReview _ _ _ _ _ _ _ _ _) as [[e|] reviews1].
    + subst reviews1. by apply IH.
    + destruct Hstep as (r & -> & Hid & Hoid & _ & _ & _ & Hfresh & Hbacked).
      destruct (IH (next + 1) (reviews ++ [r])) as (H1 & H2 & H3 & H4).
      * rewrite fmap_app. apply NoDup_app. split; [done|]. split; [|apply NoDup_singleton].
        intros x Hx Hx'%list_elem_of_singleton. simpl in Hx'. congruence.
      * rewrite fmap_app. apply NoDup_app. split; [done|]. split; [|apply NoDup_singleton].
        intros x Hx Hx'%list_elem_of_singleton.
        apply list_elem_of_fmap in Hx as (r0 & -> & Hr0). apply Hlt in Hr0.
        simpl in Hx'. lia.
      * intros r0 [Hr0|Hr0%list_elem_of_singleton]%elem_of_app.
        -- apply Hlt in Hr0. lia.
        -- subst r0. lia.
      * apply Forall_app. split; [done|]. by constructor.
      * repeat split; try done. etrans; [|exact H4]. by apply prefix_app_r.
Qed.

Lemma canUserReview_sound (userId productId : string) (username : option string)
    (db : DB) (reviews : list Review.row) (orderId : string) :
  canUserReview userId productId username db reviews = Some orderId →
  hasUserReviewedOrder orderId reviews = false
  ∧ ∃ o, o ∈ orders db ∧ Order.orderId o = orderId
         ∧ Order.productId o = productId ∧ Order.status o = "delivered"
         ∧ (Order.userId o = Some userId
            ∨ JS.truthy username = true ∧ Order.username o = username).
Proof.
  assert (Hdel : ∀ mine i, In i (deliveredOrderIds mine productId db) →
            ∃ o, o ∈ orders db ∧ Order.orderId o = i ∧ mine o = true
                 ∧ Order.productId o = productId ∧ Order.status o = "delivered").
  { intros mine i (o & Hid & Hin)%in_map_iff.
    apply filter_In in Hin as [Hin [[Hm Hp%String.eqb_eq]%andb_true_iff Hs%String.eqb_eq]%andb_true_iff].
    exists o. by rewrite list_elem_of_In. }
  unfold canUserReview. cbv zeta.
  destruct ((length (deliveredOrderIds _ _ _) =? 0)%nat && JS.truthy username) eqn:Hfallback.
  - apply andb_true_iff in Hfallback as [_ Htruthy].
    destruct (length _ =? 0)%nat; [done|].
    intros [Hin Hrev]%find_some. apply negb_true_iff in Hrev.
    split; [done|]. apply Hdel in Hin as (o & Ho & Hid & Hm & Hp & Hs).
    exists o. repeat (split; [done|]). right. split; [done|].
    by apply bool_decide_eq_true in Hm.
  - destruct (length _ =? 0)%nat; [done|].
    intros [Hin Hrev]%find_some. apply negb_true_iff in Hrev.
    split; [done|]. apply Hdel in Hin as (o & Ho & Hid & Hm & Hp & Hs).
    exists o. repeat (split; [done|]). left.
    unfold opt_eqb in Hm. destruct (Order.userId o) as [x|]; [|done].
    by apply String.eqb_eq in Hm as ->.
Qed.

Lemma truthy_some (s : string) : s ≠ "" → JS.truthy (Some s) = true.
Proof. intros H. simpl. by destruct (String.eqb_spec s ""). Qed.

(** X22.  The order that [canUserReview] offers to the signed-in user is one
    that [submitReview] accepts from them, with any rating from one to
    five; once the review is stored the order is not offered again and
    a second review of it is refused. *)
Theorem canUserReview_then_submitReview (u : SessionUser) (userId productId orderId : string)
    (now next rating : Z) (comment : string) (db : DB) (reviews : list Review.row) :
  NoDup (List.map Order.orderId (orders db)) →
  session_id u = Some userId → userId ≠ "" →
  1 ≤ rating ≤ 5 →
  canUserReview userId productId (session_username u) db reviews = Some orderId →
  ∃ r, submitReview (Some u) now next productId orderId rating comment db reviews
       = (None, reviews ++ [r])
       ∧ Review.orderId r = orderId
       ∧ hasUserReviewedOrder orderId (reviews ++ [r]) = true
       ∧ canUserReview userId productId (session_username u) db (reviews ++ [r])
         ≠ Some orderId
       ∧ ∀ now' next' comment',
           submitReview (Some u) now' next' productId orderId rating comment' db
             (reviews ++ [r])
           = (Some "review.alreadyReviewed", reviews ++ [r]).
Proof.
  intros Hnd Hsid Hne Hrating Hcan.
  apply canUserReview_sound in Hcan as (Hfresh & o & Ho & Hid & Hp & Hs & Hmine).
  assert (Hfind : findOrder (Some orderId) db = Some o).
  { rewrite <- Hid. by apply findOrder_unique. }
  assert (Hown : isOwner o u = true).
  { unfold isOwner. destruct Hmine as [Huid|[Htruthy Hname]].
    - rewrite Huid, Hsid, truthy_some by done.
      by rewrite bool_decide_eq_true_2.
    - apply orb_true_iff. right.
      destruct (session_username u) as [n|] eqn:Hn; [|done].
      assert (Hsn : sessionUsername u "" = n).
      { unfold sessionUsername, JS.or_else. by rewrite Hn, Htruthy. }
      rewrite Hsn, Hname, Htruthy. simpl. by rewrite String.eqb_refl. }
  assert (Hgates : ∀ now0 next0 comment0 rs,
            submitReview (Some u) now0 next0 productId orderId rating comment0 db rs
            = if hasUserReviewedOrder orderId rs
              then (Some "review.alreadyReviewed", rs)
              else (None,
                    createReview now0 next0 productId orderId
                      (default "" (JS.or_else (session_id u) (Some "")))
                      (sessionUsername u "Anonymous") rating
                      (JS.or_else (Some comment0) None) rs)).
  { intros now0 next0 comment0 rs. unfold submitReview.
    destruct (Z.ltb_spec rating 1) as [|_]; [lia|].
    destruct (Z.gtb_spec rating 5) as [|_]; [lia|]. cbn [orb].
    rewrite Hfind. cbv beta iota.
    rewrite Hp, Hown, Hs, String.eqb_refl, existingReview_spec. cbn [negb].
    change (String.eqb "delivered" "delivered") with true. done. }
  eexists. split; [by rewrite Hgates, Hfresh|].
  split; [done|].
  assert (Hnow : hasUserReviewedOrder orderId
            (createReview now next productId orderId
               (default "" (JS.or_else (session_id u) (Some "")))
               (sessionUsername u "Anonymous") rating
               (JS.or_else (Some comment) None) reviews) = true).
  { apply hasUserReviewedOrder_spec. unfold createReview. rewrite fmap_app.
    apply elem_of_app. right. by apply list_elem_of_singleton. }
  split; [exact Hnow|]. split.
  - intros [Hno _]%canUserReview_sound. unfold createReview in Hnow. congruence.
  - intros now' next' comment'. rewrite Hgates. unfold createReview in Hnow.
    by rewrite Hnow.
Qed.

(** ** The properties at work *)

(** The callback for O1: delivered on the current schema; on a table
    without the reservation columns the transaction is rolled back, the
    route answers 500 and nothing is written.  A [__proto__] field in
    the query string is not a parameter: the signature still verifies. *)
Example GET_examples :
  (let r := GET Sample.host Sample.env 30000 Day.callback Sample.oneOrder in
   fst r = Response.success
   ∧ Order.status <$> orders (snd r) = ["delivered"]
   ∧ Card.is_used <$> cards (snd r) = [Some true])
  ∧ processNotify Sample.host Sample.env 30000 (collectParams Day.callback)
      Day.beforeMigration = (Threw, Day.beforeMigration)
  ∧ GET Sample.host Sample.env 30000 Day.callback Day.beforeMigration
    = ({| Response.body := "error"; Response.status := 500 |}, Day.beforeMigration)
  ∧ fst (GET Sample.host Sample.env 30000 (Day.callback ++ [("__proto__", "x")])
           Sample.oneOrder) = Response.success.
Proof. vm_compute. repeat split; reflexivity. Qed.

Ltac by_compute := apply (bool_decide_unpack _); vm_compute; exact I.

(** The held unit of O1 is consumed by O1's notification at 30 s. *)
Lemma processNotify_only_consumes_witness :
  Forall2 (fun c c' =>
             c' = c
             ∨ (unused c = true
                ∧ Card.is_used c' = Some true
                ∧ Card.used_at c' = Some 30000
                ∧ Card.id c' = Card.id c
                ∧ Card.product_id c' = Card.product_id c
                ∧ Card.card_key c' = Card.card_key c
                ∧ (Card.reserved_order_id c' = None
                   ∨ Card.reserved_order_id c' = Card.reserved_order_id c)))
    (cards Sample.oneOrder)
    (cards (snd (processNotify Sample.host Sample.env 30000
                   (Sample.tradeSuccess "O1" "10.00") Sample.oneOrder))).
Proof.
  apply (processNotify_only_consumes Sample.host Sample.env 30000
           (Sample.tradeSuccess "O1" "10.00") Sample.oneOrder).
  by_compute.
Defined.

(** O1 is paid within its hold: it gets the unit it holds. *)
Lemma processNotify_delivers_held_unit_witness :
  let r := processNotify Sample.host Sample.env 30000
             (Sample.tradeSuccess "O1" "10.00") Sample.oneOrder in
  fst r = Answered Response.success
  ∧ Forall2 (fun x x' =>
               (Card.reserved_order_id x = Some "O1" ∧ Card.is_used x ≠ Some true →
                Card.is_used x' = Some true
                ∧ Card.used_at x' = Some 30000
                ∧ Card.reserved_order_id x' = None
                ∧ Card.reserved_at x' = None
                ∧ Card.id x' = Card.id x
                ∧ Card.product_id x' = Card.product_id x
                ∧ Card.card_key x' = Card.card_key x)
               ∧ (¬ (Card.reserved_order_id x = Some "O1" ∧ Card.is_used x ≠ Some true) →
                  x' = x))
      (cards Sample.oneOrder) (cards (snd r))
  ∧ ∃ o', findOrder (Some "O1") (snd r) = Some o'
          ∧ Order.status o' = "delivered"
          ∧ Order.cardKey o' = Some "KEY-1"
          ∧ Order.paidAt o' = Some 30000
          ∧ Order.deliveredAt o' = Some 30000
          ∧ (∀ t, Sample.tradeSuccess "O1" "10.00" !! "trade_no" = Some t →
                  Order.tradeNo o' = Some t).
Proof.
  apply (processNotify_delivers_held_unit Sample.host Sample.env 30000
           (Sample.tradeSuccess "O1" "10.00") Sample.oneOrder "O1"
           (Sample.orderOf "O1" "pending" 0)
           (Sample.unit1 false (Some "O1") (Some 0)));
    try (vm_compute; reflexivity).
  - left. reflexivity.
  - discriminate.
Defined.

(** O1 is paid at 200 s, after its unit went to O2 and O2's hold
    lapsed: O1 gets that unit. *)
Lemma processNotify_falls_back_to_available_unit_witness :
  let c := Sample.unit1 false (Some "O2") (Some 61000) in
  let r := processNotify Sample.host Sample.env 200000
             (Sample.tradeSuccess "O1" "10.00") Sample.reassigned in
  fst r = Answered Response.success
  ∧ Forall2 (fun x x' =>
               (x = c →
                Card.is_used x' = Some true
                ∧ Card.used_at x' = Some 200000
                ∧ Card.reserved_order_id x' = None
                ∧ Card.reserved_at x' = None
                ∧ Card.id x' = Card.id c
                ∧ Card.product_id x' = Card.product_id c
                ∧ Card.card_key x' = Card.card_key c)
               ∧ (x ≠ c → x' = x))
      (cards Sample.reassigned) (cards (snd r))
  ∧ ∃ o', findOrder (Some "O1") (snd r) = Some o'
          ∧ Order.status o' = "delivered"
          ∧ Order.cardKey o' = Some "KEY-1"
          ∧ Order.paidAt o' = Some 200000
          ∧ Order.deliveredAt o' = Some 200000.
Proof.
  apply (processNotify_falls_back_to_available_unit Sample.host Sample.env 200000
           (Sample.tradeSuccess "O1" "10.00") Sample.reassigned "O1"
           (Sample.orderOf "O1" "pending" 0)
           (Sample.unit1 false (Some "O2") (Some 61000)));
    try (vm_compute; reflexivity).
  - left. reflexivity.
  - by_compute.
  - by apply elem_of_list1.
  - discriminate.
Defined.

(** alice buys the one unit at opening. *)
Lemma createOrder_success_witness :
  let product := Sample.giftCard None true in
  let c := Sample.unit1 false None None in
  let r := createOrder Sample.host Sample.env (Some Sample.alice) "O1" 1000 "p1" None
             Day.opening in
  (∃ url params,
      fst r = Success ("ldc_pending_order", "O1") url params
      ∧ (url, params) = payDescriptor Sample.host Sample.env "O1" product
      ∧ ("pid", MERCHANT_ID Sample.env) ∈ params
      ∧ ("out_trade_no", Some "O1") ∈ params
      ∧ ("name", Some "Gift card") ∈ params
      ∧ ("money", Some "10.00") ∈ params
      ∧ ("sign_type", Some "MD5") ∈ params)
  ∧ (∃ o, orders (snd r) = [] ++ [o]
          ∧ Order.orderId o = "O1"
          ∧ Order.productId o = "p1"
          ∧ Order.productName o = "Gift card"
          ∧ Order.amount o = "10.00"
          ∧ Order.status o = "pending"
          ∧ Order.created_at o = 1000
          ∧ Order.tradeNo o = None
          ∧ Order.cardKey o = None
          ∧ Order.paidAt o = None
          ∧ Order.deliveredAt o = None
          ∧ Order.email o = Some "a@example.org"
          ∧ Order.userId o = Some "u1"
          ∧ Order.username o = Some "alice")
  ∧ Forall2 (fun x x' =>
               (x = c →
                Card.reserved_order_id x' = Some "O1"
                ∧ Card.reserved_at x' = Some 1000
                ∧ Card.id x' = 1
                ∧ Card.product_id x' = "p1"
                ∧ Card.card_key x' = "KEY-1"
                ∧ Card.is_used x' = Some false
                ∧ Card.used_at x' = None)
               ∧ (x ≠ c → x' = x))
      [c] (cards (snd r))
  ∧ products (snd r) = [product].
Proof.
  apply (createOrder_success Sample.host Sample.env (Some Sample.alice) "O1" 1000 "p1"
           None Day.opening (Sample.giftCard None true) (Sample.unit1 false None None));
    try (vm_compute; reflexivity).
  - intros Hin. apply elem_of_nil in Hin. exact Hin.
  - by_compute.
Defined.

(** A checkout when the only unit is consumed: out of stock, and
    nothing written. *)
Lemma createOrder_refused_writes_nothing_witness :
  let r := createOrder Sample.host Sample.env (Some Sample.alice) "O2" 1000 "p1" None
             Sample.soldOut in
  orders (snd r) = orders Sample.soldOut
  ∧ products (snd r) = products Sample.soldOut
  ∧ Forall2 (fun x x' => x' = x ∨ (Card.is_used x = None ∧ x' = backfill_used x))
      (cards Sample.soldOut) (cards (snd r)).
Proof.
  apply (createOrder_refused_writes_nothing Sample.host Sample.env (Some Sample.alice)
           "O2" 1000 "p1" None Sample.soldOut).
  intros cookie url params H. vm_compute in H. discriminate H.
Defined.

(** A second buyer at 30 s, while O1's hold is alive. *)
Lemma createOrder_respects_live_holds_witness :
  Forall2 (fun c c' =>
             hold_lapsed 30000 c = false →
             (∀ o, o ∈ orders Sample.oneOrder →
                   Card.reserved_order_id c = Some (Order.orderId o) →
                   ¬ stale (Day.ofProduct "p1") 30000 o) →
             Card.reserved_order_id c' = Card.reserved_order_id c
             ∧ Card.reserved_at c' = Card.reserved_at c
             ∧ Card.id c' = Card.id c
             ∧ Card.product_id c' = Card.product_id c
             ∧ Card.card_key c' = Card.card_key c)
    (cards Sample.oneOrder)
    (cards (snd (createOrder Sample.host Sample.env None "O2" 30000 "p1"
                   (Some "b@example.org") Sample.oneOrder))).
Proof.
  apply (createOrder_respects_live_holds Sample.host Sample.env None "O2" 30000 "p1"
           (Some "b@example.org") Sample.oneOrder).
  by_compute.
Defined.

(** The reaper at 10 min, and again at 9 min. *)
Lemma cancelExpiredOrders_again_is_noop_witness :
  let db' := snd (cancelExpiredOrders no_filter 600000 Sample.twoPending) in
  cancelExpiredOrders no_filter 540000 db' = ([], db').
Proof.
  apply (cancelExpiredOrders_again_is_noop no_filter 600000 540000 Sample.twoPending).
  lia.
Defined.

(** alice buys the one unit at 1 s; a second buyer tries at 31 s. *)
Lemma createOrder_hold_survives_next_checkout_witness :
  let c := Sample.unit1 false None None in
  let db1 := snd (createOrder Sample.host Sample.env (Some Sample.alice) "O1" 1000 "p1"
                    None Day.opening) in
  let r2 := createOrder Sample.host Sample.env None "O2" 31000 "p1"
              (Some "b@example.org") db1 in
  ∃ c', c' ∈ cards (snd r2)
        ∧ Card.id c' = Card.id c
        ∧ Card.card_key c' = Card.card_key c
        ∧ Card.reserved_order_id c' = Some "O1"
        ∧ Card.reserved_at c' = Some 1000.
Proof.
  apply (createOrder_hold_survives_next_checkout Sample.host Sample.env
           (Some Sample.alice) "O1" 1000 "p1" None Day.opening
           (Sample.giftCard None true) (Sample.unit1 false None None)
           None "O2" 31000 "p1" (Some "b@example.org"));
    try (vm_compute; reflexivity).
  - intros Hin. apply elem_of_nil in Hin. exact Hin.
  - by_compute.
  - unfold HOLD_TTL. lia.
Defined.

(** A day's operations on the shop of [Sample.limitReached]. *)
Lemma runs_keep_the_ledger_witness :
  let db := Sample.limitReached in
  let db' := runs Sample.host Sample.env Day.operations db in
  products db' = products db
  ∧ List.map Card.id (cards db') = List.map Card.id (cards db)
  ∧ List.map Order.orderId (orders db) `prefix_of` List.map Order.orderId (orders db')
  ∧ (NoDup (List.map Order.orderId (orders db)) →
     NoDup (List.map Order.orderId (orders db'))).
Proof.
  apply (runs_keep_the_ledger Sample.host Sample.env Day.operations Sample.limitReached).
  by_compute.
Defined.

Lemma runs_never_overdeliver_witness :
  let db := Sample.limitReached in
  let db' := runs Sample.host Sample.env Day.operations db in
  (deliveredCount (orders db') ≤ consumedCount (cards db'))%nat
  ∧ (consumedCount (cards db') ≤ length (cards db))%nat.
Proof.
  apply (runs_never_overdeliver Sample.host Sample.env Day.operations Sample.limitReached).
  - by_compute.
  - by_compute.
  - vm_compute. lia.
Defined.

(** An admin pastes three keys, with blanks and empty entries. *)
Lemma addCards_appends_witness :
  let keys := ["KEY-4"; "KEY-5"; "KEY-6"] in
  let r := addCards Office.text Office.admins (Some Sample.alice) true 4 "p1"
             " KEY-4,KEY-5 ,, KEY-6," Office.stock in
  (∀ key, key ∈ keys → key ≠ "")
  ∧ (keys = [] → r = Returned Office.stock)
  ∧ ((∃ p, p ∈ products Office.stock ∧ Product.id p = "p1") →
     ∃ added,
       r = Returned (with_cards Office.stock (cards Office.stock ++ added))
       ∧ Forall2 (fun key c =>
                    Card.card_key c = key
                    ∧ Card.product_id c = "p1"
                    ∧ Card.is_used c = Some false
                    ∧ Card.reserved_order_id c = None
                    ∧ Card.reserved_at c = None
                    ∧ Card.used_at c = None)
           keys added
       ∧ List.map Card.id added = [4; 5; 6]
       ∧ (NoDup (List.map Card.id (cards Office.stock)) →
          (∀ c, c ∈ cards Office.stock → Card.id c < 4) →
          NoDup (List.map Card.id (cards Office.stock ++ added))))
  ∧ (keys ≠ [] → (∀ p, p ∈ products Office.stock → Product.id p ≠ "p1") →
     r = DbError).
Proof.
  apply (addCards_appends Office.text Office.admins (Some Sample.alice) true 4
           "p1" " KEY-4,KEY-5 ,, KEY-6," Office.stock).
  vm_compute. reflexivity.
Defined.

(** The same keys for a product that does not exist: refused. *)
Example addCards_unknown_product :
  addCards Office.text Office.admins (Some Sample.alice) true 4 "p9"
    " KEY-4,KEY-5 ,, KEY-6," Office.stock = DbError.
Proof. vm_compute. reflexivity. Qed.

(** At 60 s an admin selects all three units: only the free one goes. *)
Lemma deleteCards_spares_sold_and_held_witness :
  let db' := with_cards Office.stock
               [Sample.unit1 true None None; Sample.unit2 false (Some "O2") (Some 30000)] in
  db' = with_cards Office.stock
          (List.filter (fun c => negb (deletable 60000 [1; 2; 3] c)) (cards Office.stock))
  ∧ (∀ c, c ∈ cards Office.stock →
       consumed c ∨ reservedNow 60000 c = true ∨ Card.id c ∉ [1; 2; 3] → c ∈ cards db')
  ∧ (∀ c, c ∈ cards Office.stock → c ∉ cards db' →
       Card.id c ∈ [1; 2; 3] ∧ unused c = true ∧ reservedNow 60000 c = false)
  ∧ (∀ c, c ∈ cards db' → c ∈ cards Office.stock).
Proof.
  apply (deleteCards_spares_sold_and_held Office.text Office.admins (Some Sample.alice)
           60000 [1; 2; 3] Office.stock).
  vm_compute. reflexivity.
Defined.

(** At 60 s an admin deletes the free unit, one way or the other. *)
Lemma deleteCard_agrees_with_deleteCards_witness :
  match deleteCard Office.text Office.admins (Some Sample.alice) 60000 3 Office.stock with
  | Returned db' =>
      deleteCards Office.text Office.admins (Some Sample.alice) 60000 [3] Office.stock
      = Returned db'
      ∧ ∃ card, card ∈ cards Office.stock ∧ Card.id card = 3
                ∧ unused card = true ∧ reservedNow 60000 card = false
                ∧ card ∉ cards db'
  | Rejected message =>
      deleteCards Office.text Office.admins (Some Sample.alice) 60000 [3] Office.stock
      = Returned Office.stock
      ∧ (message = "Card not found" ∧ 3 ∉ List.map Card.id (cards Office.stock)
         ∨ ∃ card, card ∈ cards Office.stock ∧ Card.id card = 3
                   ∧ (message = "Cannot delete used card" ∧ consumed card
                      ∨ message = "Cannot delete reserved card"
                        ∧ reservedNow 60000 card = true))
  | DbError => False
  end.
Proof.
  apply (deleteCard_agrees_with_deleteCards Office.text Office.admins
           (Some Sample.alice) 60000 3 Office.stock).
  - by_compute.
  - vm_compute. reflexivity.
  - reflexivity.
Defined.

(** alice reviews her delivered order, tries again, and a visitor who
    is not signed in tries too. *)
Lemma submitAll_one_review_per_delivered_order_witness :
  let subs :=
    [ {| sub_session := Some Day.aliceSession; sub_now := 90000; sub_productId := "p1";
         sub_orderId := "O1"; sub_rating := 5; sub_comment := "works" |};
      {| sub_session := Some Day.aliceSession; sub_now := 95000; sub_productId := "p1";
         sub_orderId := "O1"; sub_rating := 1; sub_comment := "" |};
      {| sub_session := None; sub_now := 99000; sub_productId := "p1";
         sub_orderId := "O1"; sub_rating := 3; sub_comment := "" |} ] in
  let reviews' := submitAll Sample.afterDelivery subs 1 [] in
  NoDup (Review.orderId <$> reviews')
  ∧ NoDup (Review.id <$> reviews')
  ∧ Forall (backed Sample.afterDelivery) reviews'
  ∧ [] `prefix_of` reviews'.
Proof.
  apply (submitAll_one_review_per_delivered_order Sample.afterDelivery _ 1 []).
  - apply NoDup_nil_2.
  - apply NoDup_nil_2.
  - intros r Hr. apply elem_of_nil in Hr. destruct Hr.
  - apply Forall_nil_2.
Defined.

(** alice is offered her delivered order O1 and reviews it. *)
Lemma canUserReview_then_submitReview_witness :
  ∃ r, submitReview (Some Day.aliceSession) 90000 1 "p1" "O1" 5 "works"
         Sample.afterDelivery [] = (None, [] ++ [r])
       ∧ Review.orderId r = "O1"
       ∧ hasUserReviewedOrder "O1" ([] ++ [r]) = true
       ∧ canUserReview "u1" "p1" (session_username Day.aliceSession)
           Sample.afterDelivery ([] ++ [r]) ≠ Some "O1"
       ∧ ∀ now' next' comment',
           submitReview (Some Day.aliceSession) now' next' "p1" "O1" 5 comment'
             Sample.afterDelivery ([] ++ [r])
           = (Some "review.alreadyReviewed", [] ++ [r]).
Proof.
  apply (canUserReview_then_submitReview Day.aliceSession "u1" "p1" "O1" 90000 1 5
           "works" Sample.afterDelivery []).
  - by_compute.
  - reflexivity.
  - discriminate.
  - lia.
  - vm_compute. reflexivity.
Defined.

(** ** What the signature covers *)

Lemma leb_trans (a b c : string) :
  String.leb a b = true → String.leb b c = true → String.leb a c = true.
Proof.
  unfold String.leb.
  change String.compare with OrdersEx.String_as_OT.compare.
  destruct (OrdersEx.String_as_OT.compare_spec a b) as [Hab|Hab|Hab]; try discriminate;
    intros _;
    destruct (OrdersEx.String_as_OT.compare_spec b c) as [Hbc|Hbc|Hbc]; try discriminate;
    intros _.
  - rewrite Hab, Hbc.
    destruct (OrdersEx.String_as_OT.compare_spec c c) as [H|H|H]; auto.
    destruct (RelationClasses.StrictOrder_Irreflexive c H).
  - rewrite Hab. unfold OrdersEx.String_as_OT.lt in Hbc. by rewrite Hbc.
  - rewrite <- Hbc. unfold OrdersEx.String_as_OT.lt in Hab. by rewrite Hab.
  - assert (H : OrdersEx.String_as_OT.lt a c)
      by exact (RelationClasses.StrictOrder_Transitive a b c Hab Hbc).
    unfold OrdersEx.String_as_OT.lt in H. by rewrite H.
Qed.

Lemma insert_sorted_perm (x : string) (l : list string) :
  JS.insert_sorted x l ≡ₚ x :: l.
Proof.
  induction l as [|y l IH]; [done|]. simpl.
  destruct (String.leb x y); [done|]. rewrite IH. apply Permutation_swap.
Qed.

Lemma sort_perm (l : list string) : JS.sort l ≡ₚ l.
Proof.
  induction l as [|x l IH]; [done|]. simpl.
  by rewrite insert_sorted_perm, IH.
Qed.

Lemma insert_sorted_ascending (x : string) (l : list string) :
  ascending l → ascending (JS.insert_sorted x l).
Proof.
  induction 1 as [|y l Hy Hl IH]; simpl.
  - by repeat constructor.
  - destruct (String.leb x y) eqn:Hxy.
    + constructor; [|by constructor]. constructor; [done|].
      eapply Forall_impl; [exact Hy|]. intros z Hz. by apply (leb_trans x y z).
    + constructor; [|done].
      assert (Hyx : String.leb y x = true).
      { destruct (String.leb_total x y); congruence. }
      rewrite insert_sorted_perm. by constructor.
Qed.

Lemma sort_ascending (l : list string) : ascending (JS.sort l).
Proof.
  induction l as [|x l IH]; [constructor|]. simpl. by apply insert_sorted_ascending.
Qed.

Lemma ascending_unique (l1 l2 : list string) :
  ascending l1 → ascending l2 → l1 ≡ₚ l2 → l1 = l2.
Proof.
  intros H1. revert l2. induction H1 as [|x l1 Hx Hl1 IH]; intros l2 H2 Hperm.
  - by apply Permutation_nil_l in Hperm.
  - destruct H2 as [|y l2 Hy Hl2]; [by apply Permutation_nil_r in Hperm|].
    assert (Hxy : x = y).
    { assert (Hin1 : y ∈ x :: l1) by (rewrite Hperm; left).
      assert (Hin2 : x ∈ y :: l2) by (rewrite <- Hperm; left).
      apply elem_of_cons in Hin1 as [->|Hin1]; [done|].
      apply elem_of_cons in Hin2 as [->|Hin2]; [done|].
      rewrite Forall_forall in Hx, Hy.
      apply String.leb_antisym; [by apply Hx | by apply Hy]. }
    subst y. f_equal. apply IH; [done|]. by apply (inj (cons x)).
Qed.

Lemma sort_permutation (l1 l2 : list string) : l1 ≡ₚ l2 → JS.sort l1 = JS.sort l2.
Proof.
  intros Hperm. apply ascending_unique; [apply sort_ascending..|].
  by rewrite !sort_perm.
Qed.

Lemma signed_keys_spec (params : gmap string string) (k : string) :
  k ∈ List.filter
        (fun k => negb (String.eqb k "sign") && negb (String.eqb k "sign_type")
                  && negb (opt_eqb (params !! k) ""))
        (List.map fst (map_to_list params))
  ↔ signedField params k ≠ None.
Proof.
  rewrite list_elem_of_In, filter_In, <- list_elem_of_In.
  change (List.map fst (map_to_list params)) with ((map_to_list params).*1).
  unfold signedField. split.
  - intros [Hin Hk]. apply list_elem_of_fmap in Hin as ([k' v] & -> & Hin).
    apply elem_of_map_to_list in Hin. simpl in *. rewrite Hin in *. simpl in Hk.
    destruct (String.eqb k' "sign"), (String.eqb k' "sign_type"),
      (String.eqb v ""); done.
  - intros Hk. destruct (params !! k) as [v|] eqn:Hv.
    + split.
      * apply list_elem_of_fmap. exists (k, v). split; [done|].
        by apply elem_of_map_to_list.
      * simpl. destruct (String.eqb k "sign"), (String.eqb k "sign_type"),
          (String.eqb v ""); done.
    + by destruct (_ || _).
Qed.

(** X7.  The signature covers exactly the fields other than [sign] and
    [sign_type] that have a non-empty value: two sets of parameters that
    agree on them have the same signature, so whoever changes
    [sign_type], or adds, removes or renames fields without a value,
    leaves a signed notification valid. *)
Theorem mySign_covers_the_signed_fields (h : Host) (env : Env)
    (params params' : gmap string string) :
  (∀ k, signedField params k = signedField params' k) →
  mySign h env params = mySign h env params'
  ∧ (params !! "sign" = params' !! "sign" →
     signatureOk h env params' = signatureOk h env params).
Proof.
  intros Hsame.
  assert (Hsign : mySign h env params = mySign h env params').
  { unfold mySign, canonical. do 2 f_equal.
    assert (Hsort :
      JS.sort (List.filter
                 (fun k => negb (String.eqb k "sign") && negb (String.eqb k "sign_type")
                           && negb (opt_eqb (params !! k) ""))
                 (List.map fst (map_to_list params)))
      = JS.sort (List.filter
                   (fun k => negb (String.eqb k "sign") && negb (String.eqb k "sign_type")
                             && negb (opt_eqb (params' !! k) ""))
                   (List.map fst (map_to_list params')))).
    { apply sort_permutation. apply NoDup_Permutation.
      - apply NoDup_ListNoDup, List.NoDup_filter, NoDup_ListNoDup, NoDup_fst_map_to_list.
      - apply NoDup_ListNoDup, List.NoDup_filter, NoDup_ListNoDup, NoDup_fst_map_to_list.
      - intros k. by rewrite !signed_keys_spec, Hsame. }
    rewrite <- Hsort. f_equal. apply List.map_ext_in. intros k Hk.
    apply list_elem_of_In in Hk. rewrite sort_perm in Hk.
    apply signed_keys_spec in Hk.
    pose proof (Hsame k) as Hk'. unfold signedField in Hk, Hk'.
    destruct (_ || _); [done|].
    destruct (params !! k) as [v|], (params' !! k) as [v'|]; try done.
    destruct (String.eqb v ""); [done|]. destruct (String.eqb v' ""); congruence. }
  split; [done|]. intros Hs. unfold signatureOk. by rewrite Hs, Hsign.
Qed.

(** The gateway's notification for O1 with [sign_type] changed and an
    empty field added still verifies. *)
Lemma mySign_covers_the_signed_fields_witness :
  let params := Sample.tradeSuccess "O1" "10.00" in
  let params' := <["sign_type" := "SHA256"]> (<["note" := ""]> params) in
  mySign Sample.host Sample.env params = mySign Sample.host Sample.env params'
  ∧ (params !! "sign" = params' !! "sign" →
     signatureOk Sample.host Sample.env params'
     = signatureOk Sample.host Sample.env params).
Proof.
  apply (mySign_covers_the_signed_fields Sample.host Sample.env).
  intros k. unfold signedField.
  destruct (String.eqb_spec k "sign") as [->|Hsign]; [done|].
  destruct (String.eqb_spec k "sign_type") as [->|Htype]; [done|].
  cbn [orb]. rewrite lookup_insert_ne by done.
  destruct (String.eqb_spec k "note") as [->|Hnote].
  - rewrite lookup_insert_eq. vm_compute. reflexivity.
  - by rewrite lookup_insert_ne.
Defined.

(** ** Settings *)

Lemma getSetting_setSetting (k k' v : string) (now : Z) (settings : Settings) :
  getSetting k (setSetting k' v now settings)
  = if decide (k = k') then Some v else getSetting k settings.
Proof.
  unfold getSetting, setSetting. destruct (decide (k = k')) as [->|Hne].
  - by rewrite lookup_insert_eq.
  - by rewrite lookup_insert_ne.
Qed.

Lemma positiveOr_spec (tx : Text) (nums : Numbers) (fallback raw : string) :
  positiveOr tx nums fallback raw = fallback
  ∨ ∃ n, 0 < n ∧ positiveOr tx nums fallback raw = showInt nums n.
Proof.
  unfold positiveOr. destruct (parseInt nums (trim tx raw)) as [n|]; [|by left].
  destruct (Z.ltb_spec 0 n); [right; by exists n | by left].
Qed.

Ltac split_valid :=
  unfold validSetting; repeat match goal with |- _ ∧ _ => split end; try discriminate.

(** A call that stores something stores one value, and one that the
    rules admit. *)
Lemma callSetting_saved (tx : Text) (nums : Numbers) (adminUsers : option string)
    (user : option User) (now : Z) (o : settingOp) (settings settings' : Settings) :
  callSetting tx nums adminUsers user now o settings = Saved settings' →
  checkAdmin tx adminUsers user = true
  ∧ ∃ k v, settings' = setSetting k v now settings ∧ validSetting nums k v.
Proof.
  unfold callSetting, saveShopName, saveShopDescription, saveShopLogo, saveShopFooter,
    saveLowStockThreshold, saveCheckinReward, saveCheckinEnabled, saveNoIndex,
    saveThemeColor, asAdmin.
  destruct (checkAdmin tx adminUsers user); [|by destruct o].
  cbn [negb]. intros Hcall. split; [done|].
  destruct o as [raw|raw|raw|raw|raw|raw|enabled|enabled|color].
  - destruct (JS.truthy (Some (trim tx raw))) eqn:Hne; [|done]. cbn [negb] in Hcall.
    destruct (Nat.ltb_spec 64 (String.length (trim tx raw))); [done|].
    injection Hcall as <-. eexists _, _. split; [reflexivity|].
    split_valid. intros _. split; [|done]. intros Hempty. by rewrite Hempty in Hne.
  - destruct (Nat.ltb_spec 200 (String.length (trim tx raw))); [done|].
    injection Hcall as <-. eexists _, _. split; [reflexivity|].
    split_valid. done.
  - destruct (JS.truthy (Some (trim tx raw))) eqn:Hne.
    + destruct (Nat.ltb_spec 500 (String.length (trim tx raw))); [done|].
      injection Hcall as <-. eexists _, _. split; [reflexivity|].
      split_valid. done.
    + injection Hcall as <-. eexists _, _. split; [reflexivity|].
      split_valid. intros _. simpl in Hne.
      destruct (String.eqb_spec (trim tx raw) "") as [->|]; [simpl; lia | done].
  - destruct (Nat.ltb_spec 500 (String.length (trim tx raw))); [done|].
    injection Hcall as <-. eexists _, _. split; [reflexivity|].
    split_valid. done.
  - injection Hcall as <-. eexists _, _. split; [reflexivity|].
    split_valid. intros _. apply positiveOr_spec.
  - injection Hcall as <-. eexists _, _. split; [reflexivity|].
    split_valid. intros _. apply positiveOr_spec.
  - injection Hcall as <-. eexists _, _. split; [reflexivity|].
    split_valid. intros _. destruct enabled; auto.
  - injection Hcall as <-. eexists _, _. split; [reflexivity|].
    split_valid. intros _. destruct enabled; auto.
  - destruct (existsb _ _) eqn:Hin; [|done]. injection Hcall as <-.
    eexists _, _. split; [reflexivity|].
    split_valid. intros _.
    apply existsb_exists in Hin as (x & Hx & ->%String.eqb_eq).
    by apply list_elem_of_In.
Qed.

(** X23.  Whatever settings actions are called, by whomever, in whatever
    order: every stored value that was admissible stays admissible or is
    replaced by an admissible one (the shop name is not empty and at most
    64 long, the theme colour is one of the seven, the switches are
    [true] or [false], the thresholds are a positive number or the
    default); and if no caller is an admin the table is unchanged. *)
Theorem settings_stay_valid (tx : Text) (nums : Numbers) (adminUsers : option string)
    (calls : list (option User * Z * settingOp)) (settings : Settings) :
  (∀ k v, getSetting k settings = Some v → validSetting nums k v) →
  let settings' := fold_left (runSetting tx nums adminUsers) calls settings in
  (∀ k v, getSetting k settings' = Some v → validSetting nums k v)
  ∧ ((∀ call, call ∈ calls → checkAdmin tx adminUsers call.1.1 = false) →
     settings' = settings).
Proof.
  revert settings. induction calls as [|[[user now] o] calls IH]; intros settings Hvalid.
  - done.
  - cbn [fold_left].
    assert (Hstep : (∀ k v, getSetting k (runSetting tx nums adminUsers settings (user, now, o)) = Some v
                            → validSetting nums k v)
                    ∧ (checkAdmin tx adminUsers user = false →
                       runSetting tx nums adminUsers settings (user, now, o) = settings)).
    { unfold runSetting.
      destruct (callSetting tx nums adminUsers user now o settings) as [s1|msg] eqn:Hcall;
        [|done].
      apply callSetting_saved in Hcall as (Hadmin & k1 & v1 & -> & Hv1).
      split; [|congruence]. intros k v. rewrite getSetting_setSetting.
      destruct (decide (k = k1)) as [->|_]; [by intros [= <-] | apply Hvalid]. }
    destruct Hstep as [Hvalid1 Hsame1].
    destruct (IH _ Hvalid1) as [Hvalid' Hsame'].
    split; [done|]. intros Hnone.
    rewrite Hsame'; [apply Hsame1, (Hnone (user, now, o)); left|].
    intros call Hcall. apply Hnone. by right.
Qed.

(** An admin sets the name and the colour; a visitor tries to; an
    invalid colour is refused. *)
Lemma settings_stay_valid_witness :
  let nums := {| parseInt := fun _ => None; showInt := fun _ => "" |} in
  let calls :=
    [ (Some Sample.alice, 1000, SaveShopName "  LDC Shop ");
      (None, 2000, SaveShopName "Mine");
      (Some Sample.alice, 3000, SaveThemeColor "teal");
      (Some Sample.alice, 4000, SaveThemeColor "cyan") ] in
  let settings' := fold_left (runSetting Office.text nums Office.admins) calls ∅ in
  (∀ k v, getSetting k settings' = Some v → validSetting nums k v)
  ∧ ((∀ call, call ∈ calls → checkAdmin Office.text Office.admins call.1.1 = false) →
     settings' = ∅).
Proof.
  apply (settings_stay_valid Office.text
           {| parseInt := fun _ => None; showInt := fun _ => "" |} Office.admins).
  intros k v H. unfold getSetting in H. rewrite lookup_empty in H. discriminate H.
Defined.

Example settings_examples :
  let nums := {| parseInt := fun _ => None; showInt := fun _ => "" |} in
  let settings' :=
    fold_left (runSetting Office.text nums Office.admins)
      [ (Some Sample.alice, 1000, SaveShopName "  LDC Shop ");
        (None, 2000, SaveShopName "Mine");
        (Some Sample.alice, 3000, SaveThemeColor "teal");
        (Some Sample.alice, 4000, SaveThemeColor "cyan");
        (Some Sample.alice, 5000, SaveLowStockThreshold "abc") ] ∅ in
  getSetting "shop_name" settings' = Some "LDC Shop"
  ∧ getSetting "theme_color" settings' = Some "cyan"
  ∧ getSetting "low_stock_threshold" settings' = Some "5"
  ∧ getSetting "shop_logo" settings' = None.
Proof. vm_compute. repeat split; reflexivity. Qed.
